(** * Verification of the POML Python orchestration layer

    Shallow embedding of [python/poml/api.py]: the tracing state manager
    ([set_trace]), the trace discovery protocol ([_latest_trace_prefix]),
    the output format converters and the render call [poml].

    Python values are modelled as follows.
    - [str] and [pathlib.Path] are [string]; a path is the text [str(path)]
      and [base / name] is concatenation with a separator.  File names are
      taken over ASCII: a character is a digit when it is one of 0..9 and it
      is white space when [int] strips it in an ASCII string.
    - Module globals, the file system, the environment variable [POML_TRACE],
      the clock and a log of observable effects form one [state] record that
      every operation threads explicitly.
    - A Python exception is a value of [exn]; a computation is a function
      [state -> outcome A * state], so the state reached when an exception
      propagates is kept (Python does not roll back). *)

From Stdlib Require Import String Ascii List ZArith Bool Arith Lia.
From Stdlib Require Import DecimalString DecimalNat Permutation RelationClasses.
Import ListNotations.
Local Open Scope list_scope.
Local Open Scope string_scope.

Set Implicit Arguments.
Set Warnings "-register-all,-abstract-large-number".

(** ** Strings *)

Module Str.

Definition is_digit (c : ascii) : bool :=
  let n := nat_of_ascii c in ((48 <=? n) && (n <=? 57))%nat.

(** White space accepted by [int] around the digits of an ASCII string:
    tab, line feed, vertical tab, form feed, carriage return, space. *)
Definition is_space (c : ascii) : bool :=
  let n := nat_of_ascii c in (((9 <=? n) && (n <=? 13)) || (n =? 32))%nat.

Definition newline : ascii := ascii_of_nat 10.

Definition digit_val (c : ascii) : Z := Z.of_nat (nat_of_ascii c - 48).

Fixpoint all (p : ascii -> bool) (s : string) : bool :=
  match s with
  | EmptyString => true
  | String c s' => p c && all p s'
  end.

(** [s.startswith(p)] is [String.prefix p s]; [s.endswith(x)]: *)
Fixpoint endswith (s x : string) : bool :=
  (s =? x) ||
  match s with
  | EmptyString => false
  | String _ s' => endswith s' x
  end.

(** [s.split(sep)[0]]: the text before the first separator. *)
Fixpoint split_head (sep : ascii) (s : string) : string :=
  match s with
  | EmptyString => EmptyString
  | String c s' =>
      if Ascii.eqb c sep then EmptyString else String c (split_head sep s')
  end.

Definition truthy (s : string) : bool := negb (s =? "").

Definition of_nat (n : nat) : string :=
  NilZero.string_of_uint (Nat.to_uint n).

Definition of_Z (z : Z) : string :=
  NilZero.string_of_int (Z.to_int z).

Definition digit_char (n : nat) : ascii := ascii_of_nat (48 + n mod 10).

(** [n] in decimal, zero-padded on the left to [w] characters, for [n]
    below the [w]-th power of ten. *)
Fixpoint zero_pad (w : nat) (n : nat) : string :=
  match w with
  | O => EmptyString
  | S w' => zero_pad w' (n / 10) ++ String (digit_char n) EmptyString
  end.

End Str.

(** ** JSON values, as [json.loads] returns them *)

Inductive json : Type :=
| JNull
| JBool (b : bool)
| JInt (z : Z)
| JFloat (repr : string)
| JStr (s : string)
| JArr (items : list json)
| JObj (fields : list (string * json)).

(** [d.get(k)] on a dict kept in insertion order. *)
Fixpoint dict_get (k : string) (d : list (string * json)) : option json :=
  match d with
  | [] => None
  | (k', v) :: d' => if k' =? k then Some v else dict_get k d'
  end.

(** ** The message model (pydantic classes of the source) *)

Record ContentMultiMedia := mkMedia {
  media_type : string;   (* image/png, image/jpeg, ... *)
  media_base64 : string;
  media_alt : option string }.

(** One element of a content list.  Python is untyped at run time: a list
    may hold an object that is neither [str] nor [ContentMultiMedia]; such
    an object is known to the converters only through its [str()]. *)
Inductive content_part :=
| PartStr (s : string)
| PartMedia (m : ContentMultiMedia)
| PartOther (shown : string).

(** [msg.content]: a [str], a [list], or an object of another type, of
    which the converters print [type(msg.content)]. *)
Inductive rich_content :=
| ContentStr (s : string)
| ContentList (parts : list content_part)
| ContentOther (type_shown : string).

Record PomlMessage := mkMessage {
  speaker : string;
  content : rich_content }.

(** [Speaker = Literal["human", "assistant", "system"]] *)
Definition Speaker : list string := ["human"; "assistant"; "system"].

(** What [poml] returns: raw text, the parsed JSON value, the validated
    messages, or a list of dicts built by a converter. *)
Inductive py_result :=
| RText (s : string)
| RJson (j : json)
| RPydantic (msgs : list PomlMessage)
| RDicts (ds : list json).

(** ** Exceptions *)

Inductive exn :=
| FileNotFoundError (msg : string)
| FileExistsError (msg : string)
| NotADirectoryError (msg : string)
| IsADirectoryError (msg : string)
| RuntimeError (msg : string)
| ValueError (msg : string)
| TypeError (msg : string)
| ValidationError (msg : string)
| ForeignError (msg : string).   (* raised inside a collaborator *)

Inductive outcome (A : Type) :=
| Ok (a : A)
| Raise (e : exn).
Arguments Ok {A} a.
Arguments Raise {A} e.

(** ** Process state *)

Definition path := string.

Inductive node :=
| File (text : string)
| Dir.

(** Directory order is the order of the association list: [iterdir] yields
    entries in an order the operating system chooses. *)
Definition filesystem := list (path * node).

Record datetime := mkDatetime {
  year : nat; month : nat; day : nat;
  hour : nat; minute : nat; second : nat; microsecond : nat }.

(** The trace record dict of one [poml] call; an absent key is [None]. *)
Record TraceRecord := mkRecord {
  rec_markup_path : option string;
  rec_markup : option string;
  rec_context : option string;
  rec_context_path : option string;
  rec_stylesheet : option string;
  rec_stylesheet_path : option string;
  rec_result : option py_result }.

Definition empty_record : TraceRecord :=
  mkRecord None None None None None None None.

Definition set_markup_path (v : string) (r : TraceRecord) : TraceRecord :=
  mkRecord (Some v) (rec_markup r) (rec_context r) (rec_context_path r)
    (rec_stylesheet r) (rec_stylesheet_path r) (rec_result r).
Definition set_markup (v : string) (r : TraceRecord) : TraceRecord :=
  mkRecord (rec_markup_path r) (Some v) (rec_context r) (rec_context_path r)
    (rec_stylesheet r) (rec_stylesheet_path r) (rec_result r).
Definition set_context (v : string) (r : TraceRecord) : TraceRecord :=
  mkRecord (rec_markup_path r) (rec_markup r) (Some v) (rec_context_path r)
    (rec_stylesheet r) (rec_stylesheet_path r) (rec_result r).
Definition set_context_path (v : string) (r : TraceRecord) : TraceRecord :=
  mkRecord (rec_markup_path r) (rec_markup r) (rec_context r) (Some v)
    (rec_stylesheet r) (rec_stylesheet_path r) (rec_result r).
Definition set_stylesheet (v : string) (r : TraceRecord) : TraceRecord :=
  mkRecord (rec_markup_path r) (rec_markup r) (rec_context r)
    (rec_context_path r) (Some v) (rec_stylesheet_path r) (rec_result r).
Definition set_stylesheet_path (v : string) (r : TraceRecord) : TraceRecord :=
  mkRecord (rec_markup_path r) (rec_markup r) (rec_context r)
    (rec_context_path r) (rec_stylesheet r) (Some v) (rec_result r).
Definition set_result (v : py_result) (r : TraceRecord) : TraceRecord :=
  mkRecord (rec_markup_path r) (rec_markup r) (rec_context r)
    (rec_context_path r) (rec_stylesheet r) (rec_stylesheet_path r) (Some v).

(** Effects of a call that its return value does not show. *)
Inductive event :=
| EvTempCreate (p : path)
| EvTempDelete (p : path)
| EvWarn (msg : string)
| EvRun (args : list string) (returncode : Z)
| EvReadOutput (p : path)
| EvBackend (backend : string)
| EvAttachResult.

Record state := mkState {
  _trace_enabled : bool;
  _weave_enabled : bool;
  _agentops_enabled : bool;
  _mlflow_enabled : bool;
  _trace_log : list TraceRecord;
  _trace_dir : option path;
  fs : filesystem;
  environ_POML_TRACE : option string;
  clock : datetime;
  tmp_seed : nat;
  events : list event }.

Definition with_trace_enabled (b : bool) (s : state) : state :=
  mkState b (_weave_enabled s) (_agentops_enabled s) (_mlflow_enabled s)
    (_trace_log s) (_trace_dir s) (fs s) (environ_POML_TRACE s) (clock s)
    (tmp_seed s) (events s).
Definition with_weave_enabled (b : bool) (s : state) : state :=
  mkState (_trace_enabled s) b (_agentops_enabled s) (_mlflow_enabled s)
    (_trace_log s) (_trace_dir s) (fs s) (environ_POML_TRACE s) (clock s)
    (tmp_seed s) (events s).
Definition with_agentops_enabled (b : bool) (s : state) : state :=
  mkState (_trace_enabled s) (_weave_enabled s) b (_mlflow_enabled s)
    (_trace_log s) (_trace_dir s) (fs s) (environ_POML_TRACE s) (clock s)
    (tmp_seed s) (events s).
Definition with_mlflow_enabled (b : bool) (s : state) : state :=
  mkState (_trace_enabled s) (_weave_enabled s) (_agentops_enabled s) b
    (_trace_log s) (_trace_dir s) (fs s) (environ_POML_TRACE s) (clock s)
    (tmp_seed s) (events s).
Definition with_trace_log (l : list TraceRecord) (s : state) : state :=
  mkState (_trace_enabled s) (_weave_enabled s) (_agentops_enabled s)
    (_mlflow_enabled s) l (_trace_dir s) (fs s) (environ_POML_TRACE s)
    (clock s) (tmp_seed s) (events s).
Definition with_trace_dir (d : option path) (s : state) : state :=
  mkState (_trace_enabled s) (_weave_enabled s) (_agentops_enabled s)
    (_mlflow_enabled s) (_trace_log s) d (fs s) (environ_POML_TRACE s)
    (clock s) (tmp_seed s) (events s).
Definition with_fs (f : filesystem) (s : state) : state :=
  mkState (_trace_enabled s) (_weave_enabled s) (_agentops_enabled s)
    (_mlflow_enabled s) (_trace_log s) (_trace_dir s) f
    (environ_POML_TRACE s) (clock s) (tmp_seed s) (events s).
Definition with_tmp_seed (n : nat) (s : state) : state :=
  mkState (_trace_enabled s) (_weave_enabled s) (_agentops_enabled s)
    (_mlflow_enabled s) (_trace_log s) (_trace_dir s) (fs s)
    (environ_POML_TRACE s) (clock s) n (events s).
Definition with_events (l : list event) (s : state) : state :=
  mkState (_trace_enabled s) (_weave_enabled s) (_agentops_enabled s)
    (_mlflow_enabled s) (_trace_log s) (_trace_dir s) (fs s)
    (environ_POML_TRACE s) (clock s) (tmp_seed s) l.

(** ** The monad of Python statements: state kept across exceptions *)

Definition St (S A : Type) : Type := S -> outcome A * S.

Definition ret {S A} (a : A) : St S A := fun s => (Ok a, s).

Definition bind {S A B} (m : St S A) (k : A -> St S B) : St S B :=
  fun s =>
    match m s with
    | (Ok a, s') => k a s'
    | (Raise e, s') => (Raise e, s')
    end.

Definition raise {S A} (e : exn) : St S A := fun s => (Raise e, s).

Definition gets {S A} (f : S -> A) : St S A := fun s => (Ok (f s), s).

Definition modify {S} (f : S -> S) : St S unit := fun s => (Ok tt, f s).

Definition lift {S A} (o : outcome A) : St S A := fun s => (o, s).

(** [try: body finally: cleanup], for a cleanup that does not raise. *)
Definition try_finally {S A} (body : St S A) (cleanup : St S unit) : St S A :=
  fun s =>
    match body s with
    | (o, s') =>
        match cleanup s' with
        | (Ok _, s'') => (o, s'')
        | (Raise e, s'') => (Raise e, s'')
        end
    end.

(** Statements that use the module globals and the outside world only. *)
Definition M (A : Type) : Type := St state A.

Definition emit (e : event) : M unit :=
  modify (fun s => with_events (events s ++ [e])%list s).

Declare Scope py_scope.
Delimit Scope py_scope with py.
Notation "x <- m ;; k" := (bind m (fun x => k))
  (at level 61, m at next level, right associativity) : py_scope.
Notation "m ;; k" := (bind m (fun _ => k))
  (at level 61, right associativity) : py_scope.
Local Open Scope py_scope.

(** ** File system operations *)

Module FS.

Fixpoint lookup (f : filesystem) (p : path) : option node :=
  match f with
  | [] => None
  | (q, n) :: f' => if q =? p then Some n else lookup f' p
  end.

Definition exists_ (f : filesystem) (p : path) : bool :=
  match lookup f p with Some _ => true | None => false end.

Definition is_dir (f : filesystem) (p : path) : bool :=
  match lookup f p with Some Dir => true | _ => false end.

Definition is_file (f : filesystem) (p : path) : bool :=
  match lookup f p with Some (File _) => true | _ => false end.

Fixpoint remove (f : filesystem) (p : path) : filesystem :=
  match f with
  | [] => []
  | (q, n) :: f' => if q =? p then remove f' p else (q, n) :: remove f' p
  end.

(** Writing a file replaces an entry in place or adds one at the end. *)
Fixpoint write (f : filesystem) (p : path) (text : string) : filesystem :=
  match f with
  | [] => [(p, File text)]
  | (q, n) :: f' =>
      if q =? p then (q, File text) :: f' else (q, n) :: write f' p text
  end.

Definition add_dir (f : filesystem) (p : path) : filesystem :=
  if exists_ f p then f else (f ++ [(p, Dir)])%list.

(** [base / name] *)
Definition join (base : path) (name : string) : path :=
  base ++ "/" ++ name.

(** The proper ancestors of a path: its prefixes that end before a
    separator, the root excluded. *)
Fixpoint ancestors_from (pre rest : string) : list path :=
  match rest with
  | EmptyString => []
  | String c rest' =>
      let pre' := pre ++ String c EmptyString in
      if Ascii.eqb c "/"
      then ((if pre =? "" then [] else [pre]) ++ ancestors_from pre' rest')%list
      else ancestors_from pre' rest'
  end.

Definition ancestors (p : path) : list path := ancestors_from "" p.

(** [Path(p).mkdir(parents=True, exist_ok=True)]: every missing ancestor
    and the path itself become directories; an existing regular file on
    the way makes the call raise.  Other failures of the operating system
    (permissions, the length or the form of a name) are not modelled. *)
Definition mkdir_parents (p : path) (f : filesystem) : outcome filesystem :=
  if existsb (is_file f) (ancestors p) then
    Raise (NotADirectoryError p)
  else if is_file f p then
    Raise (FileExistsError p)
  else
    Ok (fold_left add_dir (ancestors p ++ [p])%list f).

(** [p.read_text()] and [open(p, "r").read()].  The text of a file is the
    text as Python reads it in text mode.  What is not modelled: a file
    that does not decode, and a text written with a carriage return, which
    text mode gives back as a line feed. *)
Definition read_text (f : filesystem) (p : path) : outcome string :=
  match lookup f p with
  | Some (File t) => Ok t
  | Some Dir => Raise (IsADirectoryError p)
  | None => Raise (FileNotFoundError p)
  end.

(** [[e.name for e in d.iterdir()]]: the names of the entries directly
    inside [d], in directory order. *)
Fixpoint child_name (d rest : string) : option string :=
  match d, rest with
  | EmptyString, String c name =>
      if Ascii.eqb c "/" && Str.all (fun x => negb (Ascii.eqb x "/")) name
         && Str.truthy name
      then Some name else None
  | String a d', String b rest' =>
      if Ascii.eqb a b then child_name d' rest' else None
  | _, _ => None
  end.

Fixpoint iterdir (f : filesystem) (d : path) : list string :=
  match f with
  | [] => []
  | (q, _) :: f' =>
      match child_name d q with
      | Some name => name :: iterdir f' d
      | None => iterdir f' d
      end
  end.

End FS.

Definition mkdir (p : path) : M unit :=
  fun s =>
    match FS.mkdir_parents p (fs s) with
    | Ok f' => (Ok tt, with_fs f' s)
    | Raise e => (Raise e, s)
    end.

(** ** 4.1 Tracing state manager *)

(** [datetime.now().strftime("%Y%m%d%H%M%S%f")]: the year is printed
    without padding, the other fields zero-padded to 2, 2, 2, 2, 2 and 6
    characters. *)
Definition strftime_YmdHMSf (t : datetime) : string :=
  Str.of_nat (year t) ++ Str.zero_pad 2 (month t) ++ Str.zero_pad 2 (day t)
  ++ Str.zero_pad 2 (hour t) ++ Str.zero_pad 2 (minute t)
  ++ Str.zero_pad 2 (second t) ++ Str.zero_pad 6 (microsecond t).

(** The first argument of [set_trace]: [bool | List[Backend] | Backend]. *)
Inductive enabled_arg :=
| EnBool (b : bool)
| EnStr (s : string)
| EnList (l : list string).

Definition str_in (x : string) (l : list string) : bool :=
  existsb (String.eqb x) l.

Definition list_truthy {A} (l : list A) : bool :=
  match l with [] => false | _ => true end.

(** Lines 63-69: the argument as a list of backend names. *)
Definition enabled_list (enabled : enabled_arg) : list string :=
  match enabled with
  | EnBool true => ["local"]
  | EnBool false => []
  | EnStr s => [s]
  | EnList l => l
  end.

Definition set_trace (enabled : enabled_arg) (trace_dir : option path)
  : M (option path) :=
  let enabled := enabled_list enabled in
  (if list_truthy enabled || str_in "local" enabled then
     (* When enabled is non-empty, we always enable local tracing. *)
     modify (with_trace_enabled true) ;;
     env_dir <- gets environ_POML_TRACE ;;
     match trace_dir with
     | Some base =>
         mkdir base ;;
         ts <- gets (fun s => strftime_YmdHMSf (clock s)) ;;
         let run_dir := FS.join base ts in
         mkdir run_dir ;;
         modify (with_trace_dir (Some run_dir))
     | None =>
         match env_dir with
         | Some d =>
             if Str.truthy d then
               mkdir d ;;
               modify (with_trace_dir (Some d))
             else modify (with_trace_dir None)
         | None => modify (with_trace_dir None)
         end
     end
   else
     modify (with_trace_enabled false) ;;
     modify (with_trace_dir None)) ;;
  modify (with_weave_enabled (str_in "weave" enabled)) ;;
  modify (with_agentops_enabled (str_in "agentops" enabled)) ;;
  modify (with_mlflow_enabled (str_in "mlflow" enabled)) ;;
  gets _trace_dir.

(** The test of line 72: does this argument enable local tracing? *)
Definition activates (enabled : enabled_arg) : bool :=
  list_truthy (enabled_list enabled) || str_in "local" (enabled_list enabled).

(** The backend flags that lines 93-106 set. *)
Definition flags_set (enabled : enabled_arg) (s' : state) : Prop :=
  _weave_enabled s' = str_in "weave" (enabled_list enabled)
  /\ _agentops_enabled s' = str_in "agentops" (enabled_list enabled)
  /\ _mlflow_enabled s' = str_in "mlflow" (enabled_list enabled).

(** [clear_trace] and [get_trace] *)
Definition clear_trace : M unit := modify (with_trace_log []).

Definition get_trace : M (list TraceRecord) := gets _trace_log.

(** Module initialisation, the last statement of the source file:
    [if os.getenv("POML_TRACE") and not _trace_enabled: set_trace(True)]. *)
Definition module_init : M unit :=
  env <- gets environ_POML_TRACE ;;
  te <- gets _trace_enabled ;;
  match env with
  | Some d => if Str.truthy d && negb te
              then set_trace (EnBool true) None ;; ret tt
              else ret tt
  | None => ret tt
  end.

(** ** 4.2 Trace discovery protocol *)

(** [p.name]: the text after the last separator. *)
Fixpoint path_name_from (acc rest : string) : string :=
  match rest with
  | EmptyString => acc
  | String c rest' =>
      if Ascii.eqb c "/" then path_name_from "" rest'
      else path_name_from (acc ++ String c EmptyString) rest'
  end.

Definition path_name (p : path) : string := path_name_from "" p.

Definition _current_trace_version (s : state) : option string :=
  match _trace_enabled s, _trace_dir s with
  | true, Some d => Some (path_name d)
  | _, _ => None
  end.

Module Pattern.

(** The pattern [^(\d{4}.*?)(?:\.source)?\.poml$] of the source.  [$]
    matches at the end of the name or before a line feed that ends it. *)
Definition tail_matches (rest : string) : bool :=
  let nl := String Str.newline EmptyString in
  str_in rest [".source.poml"; ".source.poml" ++ nl; ".poml"; ".poml" ++ nl].

(** The lazy [.*?] of group 1: the group is extended one character at a
    time, never over a line feed, until the rest of the pattern matches
    what follows. *)
Fixpoint lazy_group (group rest : string) : option string :=
  if tail_matches rest then Some group
  else
    match rest with
    | EmptyString => None
    | String c rest' =>
        if Ascii.eqb c Str.newline then None
        else lazy_group (group ++ String c EmptyString) rest'
    end.

(** [pattern.match(name)], giving [match.group(1)]. *)
Definition match_group1 (name : string) : option string :=
  match name with
  | String a (String b (String c (String d rest))) =>
      if Str.is_digit a && Str.is_digit b && Str.is_digit c && Str.is_digit d
      then lazy_group (String a (String b (String c (String d EmptyString)))) rest
      else None
  | _ => None
  end.

End Pattern.

(** [int(text)] in base 10 on an ASCII string: optional white space, an
    optional sign, digits that single underscores may separate, optional
    white space.  [None] stands for [ValueError]. *)
Module PyInt.

Inductive seen := Nothing | Digit | Underscore.

Fixpoint digits (acc : Z) (prev : seen) (s : string) : option Z :=
  match s with
  | EmptyString =>
      match prev with Digit => Some acc | _ => None end
  | String c s' =>
      if Str.is_digit c then digits (10 * acc + Str.digit_val c) Digit s'
      else if Ascii.eqb c "_" then
        match prev with Digit => digits acc Underscore s' | _ => None end
      else if Str.is_space c then
        match prev with
        | Digit => if Str.all Str.is_space s' then Some acc else None
        | _ => None
        end
      else None
  end.

Fixpoint lstrip (s : string) : string :=
  match s with
  | String c s' => if Str.is_space c then lstrip s' else s
  | EmptyString => s
  end.

Definition int (text : string) : option Z :=
  match lstrip text with
  | String c s' =>
      if Ascii.eqb c "-" then option_map Z.opp (digits 0 Nothing s')
      else if Ascii.eqb c "+" then digits 0 Nothing s'
      else digits 0 Nothing (String c s')
  | EmptyString => None
  end.

End PyInt.

(** The body of the loop of [_latest_trace_prefix], on the pair
    [(latest_idx, latest_prefix)]. *)
Definition scan_entry (dir : path) (latest : Z * option path) (name : string)
  : Z * option path :=
  match Pattern.match_group1 name with
  | None => latest
  | Some prefix_part =>
      (* skip any source link files *)
      if Str.endswith prefix_part ".source" then latest
      else
        match PyInt.int (Str.split_head "." prefix_part) with
        | None => latest
        | Some idx =>
            if (idx >? fst latest)%Z
            then (idx, Some (FS.join dir prefix_part))
            else latest
        end
  end.

Definition _latest_trace_prefix (s : state) : outcome (option path) :=
  match _trace_enabled s, _trace_dir s with
  | true, Some d =>
      if FS.is_dir (fs s) d then
        Ok (snd (fold_left (scan_entry d) (FS.iterdir (fs s) d) ((-1)%Z, None)))
      else if FS.exists_ (fs s) d then Raise (NotADirectoryError d)
      else Raise (FileNotFoundError d)
  | _, _ => Ok None
  end.

Definition _read_latest_traced_file (file_suffix : string) : M (option string) :=
  prefix <- (fun s => (_latest_trace_prefix s, s)) ;;
  match prefix with
  | None => ret None
  | Some prefix =>
      let p := prefix ++ file_suffix in
      ex <- gets (fun s => FS.exists_ (fs s) p) ;;
      if ex then
        text <- (fun s => (FS.read_text (fs s) p, s)) ;;
        ret (Some text)
      else ret None
  end.

(** [trace_artifact], for [str] contents. *)
Definition trace_artifact (file_suffix contents : string) : M (option path) :=
  prefix <- (fun s => (_latest_trace_prefix s, s)) ;;
  match prefix with
  | None => ret None
  | Some prefix =>
      let suffix := if String.prefix "." file_suffix then file_suffix
                    else "." ++ file_suffix in
      let p := prefix ++ suffix in
      isd <- gets (fun s => FS.is_dir (fs s) p) ;;
      if isd then raise (IsADirectoryError p)
      else modify (fun s => with_fs (FS.write (fs s) p contents) s) ;; ret (Some p)
  end.

(** ** Temporary files *)

Definition tmp_name (n : nat) : path := "/tmp/tmp" ++ Str.of_nat n.

(** [tempfile] picks a name that does not exist yet. *)
Fixpoint unused_seed (f : filesystem) (n fuel : nat) : nat :=
  match fuel with
  | O => n
  | S k => if FS.exists_ f (tmp_name n) then unused_seed f (S n) k else n
  end.

(** [tempfile.NamedTemporaryFile(mode)]: an empty file under a new name. *)
Definition NamedTemporaryFile : M path :=
  fun s =>
    let n := unused_seed (fs s) (tmp_seed s) (length (fs s)) in
    let p := tmp_name n in
    (Ok p,
     with_events (events s ++ [EvTempCreate p])%list
       (with_tmp_seed (S n) (with_fs (FS.write (fs s) p "") s))).

(** [write_file(content)] of the source; the handle is the file's name. *)
Definition write_file (content : string) : M path :=
  temp_file <- NamedTemporaryFile ;;
  modify (fun s => with_fs (FS.write (fs s) temp_file content) s) ;;
  ret temp_file.

(** [temp_file.close()]: a named temporary file is deleted when closed.
    Creating, writing and deleting a temporary file are taken to succeed. *)
Definition close_temp (p : path) : M unit :=
  modify (fun s => with_fs (FS.remove (fs s) p) s) ;;
  emit (EvTempDelete p).

(** ** 4.4 Output format converter *)

Fixpoint map_outcome {A B} (f : A -> outcome B) (l : list A) : outcome (list B) :=
  match l with
  | [] => Ok []
  | a :: l' =>
      match f a with
      | Raise e => Raise e
      | Ok b =>
          match map_outcome f l' with
          | Raise e => Raise e
          | Ok bs => Ok (b :: bs)
          end
      end
  end.

Fixpoint assoc (k : string) (d : list (string * string)) : option string :=
  match d with
  | [] => None
  | (k', v) :: d' => if k' =? k then Some v else assoc k d'
  end.

Definition speaker_to_role : list (string * string) :=
  [("human", "user"); ("assistant", "assistant"); ("system", "system")].

Definition openai_content_part (content_part : content_part) : outcome json :=
  match content_part with
  | PartStr s => Ok (JObj [("type", JStr "text"); ("text", JStr s)])
  | PartMedia m =>
      Ok (JObj [("type", JStr "image_url");
                ("image_url",
                 JObj [("url", JStr ("data:" ++ media_type m ++ ";base64,"
                                     ++ media_base64 m))])])
  | PartOther shown => Raise (ValueError ("Unexpected content part: " ++ shown))
  end.

Definition openai_message (msg : PomlMessage) : outcome json :=
  match assoc (speaker msg) speaker_to_role with
  | None => Raise (ValueError ("Unknown speaker: " ++ speaker msg))
  | Some role =>
      match content msg with
      | ContentStr s => Ok (JObj [("role", JStr role); ("content", JStr s)])
      | ContentList parts =>
          match map_outcome openai_content_part parts with
          | Raise e => Raise e
          | Ok contents =>
              Ok (JObj [("role", JStr role); ("content", JArr contents)])
          end
      | ContentOther t => Raise (ValueError ("Unexpected content type: " ++ t))
      end
  end.

Definition _poml_response_to_openai_chat (messages : list PomlMessage)
  : outcome (list json) :=
  map_outcome openai_message messages.

Definition langchain_content_part (content_part : content_part) : outcome json :=
  match content_part with
  | PartStr s => Ok (JObj [("type", JStr "text"); ("text", JStr s)])
  | PartMedia m =>
      Ok (JObj [("type", JStr "image"); ("source_type", JStr "base64");
                ("data", JStr (media_base64 m));
                ("mime_type", JStr (media_type m))])
  | PartOther shown => Raise (ValueError ("Unexpected content part: " ++ shown))
  end.

Definition langchain_message (msg : PomlMessage) : outcome json :=
  match content msg with
  | ContentStr s =>
      Ok (JObj [("type", JStr (speaker msg));
                ("data", JObj [("content", JStr s)])])
  | ContentList parts =>
      match map_outcome langchain_content_part parts with
      | Raise e => Raise e
      | Ok content_parts =>
          Ok (JObj [("type", JStr (speaker msg));
                    ("data", JObj [("content", JArr content_parts)])])
      end
  | ContentOther t => Raise (ValueError ("Unexpected content type: " ++ t))
  end.

Definition _poml_response_to_langchain (messages : list PomlMessage)
  : outcome (list json) :=
  map_outcome langchain_message messages.

(** ** Validation by the pydantic classes

    Building a [PomlMessage] from the keys of [item] checks the declared
    field types: [speaker] is one
    of the three literals of [Speaker]; [content] is a [str] or a list whose
    elements are each a [str] or the fields of a [ContentMultiMedia]
    ([type] and [base64] strings, [alt] a string, null or absent).  Keys
    that are not fields are ignored. *)
Module Pydantic.

Definition validate_media (d : list (string * json)) : outcome ContentMultiMedia :=
  match dict_get "type" d, dict_get "base64" d with
  | Some (JStr t), Some (JStr b) =>
      match dict_get "alt" d with
      | None | Some JNull => Ok (mkMedia t b None)
      | Some (JStr a) => Ok (mkMedia t b (Some a))
      | Some _ => Raise (ValidationError "content: alt")
      end
  | _, _ => Raise (ValidationError "content: type, base64")
  end.

Definition validate_part (j : json) : outcome content_part :=
  match j with
  | JStr s => Ok (PartStr s)
  | JObj d =>
      match validate_media d with
      | Ok m => Ok (PartMedia m)
      | Raise e => Raise e
      end
  | _ => Raise (ValidationError "content")
  end.

Definition validate_content (j : json) : outcome rich_content :=
  match j with
  | JStr s => Ok (ContentStr s)
  | JArr l =>
      match map_outcome validate_part l with
      | Ok parts => Ok (ContentList parts)
      | Raise e => Raise e
      end
  | _ => Raise (ValidationError "content")
  end.

Definition validate_speaker (j : json) : outcome string :=
  match j with
  | JStr s => if str_in s Speaker then Ok s
              else Raise (ValidationError "speaker")
  | _ => Raise (ValidationError "speaker")
  end.

(** [PomlMessage(speaker=sp, content=c)] *)
Definition construct (sp c : json) : outcome PomlMessage :=
  match validate_speaker sp with
  | Raise e => Raise e
  | Ok s =>
      match validate_content c with
      | Raise e => Raise e
      | Ok rc => Ok (mkMessage s rc)
      end
  end.

(** [PomlMessage] built from the keys of the dict [item] (call with
    keyword unpacking). *)
Definition construct_kwargs (item : json) : outcome PomlMessage :=
  match item with
  | JObj d =>
      match dict_get "speaker" d, dict_get "content" d with
      | Some sp, Some c => construct sp c
      | _, _ => Raise (ValidationError "field required")
      end
  | _ => Raise (TypeError "argument after ** must be a mapping")
  end.

(** [for item in result]: a list yields its elements, a dict its keys, a
    string its characters; other JSON values are not iterable. *)
Definition iterate (j : json) : outcome (list json) :=
  match j with
  | JArr l => Ok l
  | JObj d => Ok (map (fun kv => JStr (fst kv)) d)
  | JStr s =>
      Ok (map (fun c => JStr (String c EmptyString)) (list_ascii_of_string s))
  | _ => Raise (TypeError "object is not iterable")
  end.

End Pydantic.

(** The value [pydantic_result] of [poml] (lines 375-379). *)
Definition pydantic_result (chat : bool) (result : json) : outcome (list PomlMessage) :=
  if chat then
    match Pydantic.iterate result with
    | Raise e => Raise e
    | Ok items => map_outcome Pydantic.construct_kwargs items
    end
  else
    match Pydantic.construct (JStr "human") result with
    | Raise e => Raise e
    | Ok m => Ok [m]
    end.

(** ** 4.3 Invocation orchestrator: [poml] *)

(** [markup: str | Path] *)
Inductive markup_arg :=
| MarkupPath (p : path)
| MarkupStr (s : string).

(** [context] and [stylesheet]: [dict | str | Path], or [None]. *)
Inductive data_arg :=
| DataDict (d : list (string * json))
| DataStr (s : string)
| DataPath (p : path).

(** Truth value of a [str] or [Path] argument; [str()] of it. *)
Definition data_truthy (a : data_arg) : bool :=
  match a with
  | DataDict d => list_truthy d
  | DataStr s => Str.truthy s
  | DataPath _ => true
  end.

Definition data_str (a : data_arg) : string :=
  match a with
  | DataDict _ => ""
  | DataStr s => s
  | DataPath p => p
  end.

(** What [poml] calls outside this file: the [json] module, the renderer
    launcher [run] of [.cli] (returning [process.returncode]), and the
    modules of [.integration], whose import may fail and whose
    [log_poml_call] may raise. *)
Record collaborators := mkCollaborators {
  json_dumps : json -> outcome string;
  json_loads : string -> outcome json;
  run : list string -> filesystem -> outcome Z * filesystem;
  import_integration : string -> option exn;
  log_poml_call :
    string -> string -> string -> option json -> option json -> py_result
    -> option exn }.

(** The local variables of one call that its [finally] block reads. *)
Record frame := mkFrame {
  temp_input_file : option path;
  temp_context_file : option path;
  temp_stylesheet_file : option path;
  trace_record : option TraceRecord }.

Definition init_frame : frame := mkFrame None None None None.

Definition set_temp_input_file (v : option path) (fr : frame) : frame :=
  mkFrame v (temp_context_file fr) (temp_stylesheet_file fr) (trace_record fr).
Definition set_temp_context_file (v : option path) (fr : frame) : frame :=
  mkFrame (temp_input_file fr) v (temp_stylesheet_file fr) (trace_record fr).
Definition set_temp_stylesheet_file (v : option path) (fr : frame) : frame :=
  mkFrame (temp_input_file fr) (temp_context_file fr) v (trace_record fr).
Definition set_trace_record (v : option TraceRecord) (fr : frame) : frame :=
  mkFrame (temp_input_file fr) (temp_context_file fr) (temp_stylesheet_file fr) v.

(** Statements of [poml]: locals and process state. *)
Definition L (A : Type) : Type := St (frame * state) A.

Definition glob {A} (m : M A) : L A :=
  fun x =>
    match m (snd x) with
    | (o, s') => (o, (fst x, s'))
    end.

Definition local (f : frame -> frame) : L unit :=
  modify (fun x => (f (fst x), snd x)).

(** [trace_record[key] = value] *)
Definition record_set (f : TraceRecord -> TraceRecord) : L unit :=
  local (fun fr => set_trace_record (option_map f (trace_record fr)) fr).

Definition os_path_exists (p : path) : L bool :=
  glob (gets (fun s => FS.exists_ (fs s) p)).

Definition read_text (p : path) : L string :=
  glob (fun s => (FS.read_text (fs s) p, s)).

(** Lines 293-299 and 300-306: the context or stylesheet of the record. *)
Definition trace_data (E : collaborators) (data : option data_arg)
  (set_text set_path : string -> TraceRecord -> TraceRecord) : L unit :=
  match data with
  | Some (DataDict d) =>
      text <- lift (json_dumps E (JObj d)) ;;
      record_set (set_text text)
  | Some a =>
      if data_truthy a then
        ex <- os_path_exists (data_str a) ;;
        if ex then
          record_set (set_path (data_str a)) ;;
          text <- read_text (data_str a) ;;
          record_set (set_text text)
        else ret tt
      else ret tt
  | None => ret tt
  end.

(** Lines 285-306: the inputs of the call, kept in the record. *)
Definition trace_fill (E : collaborators) (markup : markup_arg)
  (context stylesheet : option data_arg) : L unit :=
  (match markup with
   | MarkupPath p =>
       record_set (set_markup_path p) ;;
       ex <- os_path_exists p ;;
       if ex then text <- read_text p ;; record_set (set_markup text)
       else ret tt
   | MarkupStr s =>
       ex <- os_path_exists s ;;
       if ex then
         record_set (set_markup_path s) ;;
         ex' <- os_path_exists s ;;
         if ex' then text <- read_text s ;; record_set (set_markup text)
         else ret tt
       else record_set (set_markup s)
   end) ;;
  trace_data E context set_context set_context_path ;;
  trace_data E stylesheet set_stylesheet set_stylesheet_path.

(** Lines 283-306. *)
Definition trace_inputs (E : collaborators) (markup : markup_arg)
  (context stylesheet : option data_arg) : L unit :=
  te <- glob (gets _trace_enabled) ;;
  if te then
    local (set_trace_record (Some empty_record)) ;;
    trace_fill E markup context stylesheet
  else ret tt.

(** [re.match(r"^[\w\-./]+$", markup)] on ASCII text. *)
Definition is_path_char (c : ascii) : bool :=
  let n := nat_of_ascii c in
  Str.is_digit c
  || ((65 <=? n) && (n <=? 90))%nat || ((97 <=? n) && (n <=? 122))%nat
  || Ascii.eqb c "_" || Ascii.eqb c "-" || Ascii.eqb c "." || Ascii.eqb c "/".

Fixpoint path_chars_to_end (s : string) : bool :=
  match s with
  | EmptyString => true
  | String c s' =>
      (is_path_char c && path_chars_to_end s')
      || (Ascii.eqb c Str.newline && (s' =? ""))
  end.

Definition looks_like_path (s : string) : bool :=
  match s with
  | EmptyString => false
  | String c s' => is_path_char c && path_chars_to_end s'
  end.

(** Lines 308-320: the markup file, written to a temporary file when the
    argument is inline text. *)
Definition resolve_markup (markup : markup_arg) : L path :=
  match markup with
  | MarkupPath p =>
      ex <- os_path_exists p ;;
      if ex then ret p
      else raise (FileNotFoundError ("File not found: " ++ p))
  | MarkupStr s =>
      ex <- os_path_exists s ;;
      if ex then ret s
      else
        (* Test if the markup looks like a path. *)
        (if looks_like_path s then
           glob (emit (EvWarn ("The markup '" ++ s ++ "' looks like a file path, but it does not exist. Assuming it is a POML string.")))
         else ret tt) ;;
        f <- glob (write_file s) ;;
        local (set_temp_input_file (Some f)) ;;
        ret f
  end.

(** [with tempfile.NamedTemporaryFile("r") as f: body]: the file is deleted
    when the block is left, normally or by an exception. *)
Definition with_NamedTemporaryFile {A} (body : path -> L A) : L A :=
  f <- glob NamedTemporaryFile ;;
  try_finally (body f) (glob (close_temp f)).

(** Lines 330-337 and 339-346: the arguments for a context or stylesheet. *)
Definition data_args (E : collaborators) (flag : string)
  (data : option data_arg) (set_slot : option path -> frame -> frame)
  : L (list string) :=
  match data with
  | Some (DataDict d) =>
      text <- lift (json_dumps E (JObj d)) ;;
      f <- glob (write_file text) ;;
      local (set_slot (Some f)) ;;
      ret [flag; f]
  | Some a =>
      if data_truthy a then
        ex <- os_path_exists (data_str a) ;;
        if ex then ret [flag; data_str a]
        else raise (FileNotFoundError ("File not found: " ++ data_str a))
      else ret []
  | None => ret []
  end.

(** [process = run] applied to the arguments; the state keeps the file
    system the renderer leaves and its return code. *)
Definition run_renderer (E : collaborators) (args : list string) : M Z :=
  fun s =>
    match run E args (fs s) with
    | (Ok returncode, f') =>
        (Ok returncode,
         with_events (events s ++ [EvRun args returncode])%list (with_fs f' s))
    | (Raise e, f') => (Raise e, with_fs f' s)
    end.

(** Lines 362-366: the text of the output file. *)
Definition read_output (output_file_specified : bool) (output_file : path)
  : M string :=
  emit (EvReadOutput output_file) ;;
  if output_file_specified then
    (fun s => (FS.read_text (fs s) output_file, s))
  else
    gets (fun s => match FS.lookup (fs s) output_file with
                   | Some (File t) => t
                   | _ => ""
                   end).

(** Lines 368-388 either return from [poml] or fall through with [result]. *)
Inductive flow :=
| Return (v : py_result)
| Continue (result : py_result).

Definition convert (E : collaborators) (chat : bool) (format : string)
  (text : string) : outcome flow :=
  if format =? "raw" then
    (* Do nothing *)
    Ok (Continue (RText text))
  else
    match json_loads E text with
    | Raise e => Raise e
    | Ok result =>
        if negb (format =? "dict") then
          (* Continue to validate the format. *)
          match pydantic_result chat result with
          | Raise e => Raise e
          | Ok pydantic_result =>
              if format =? "pydantic" then Ok (Return (RPydantic pydantic_result))
              else if format =? "openai_chat" then
                match _poml_response_to_openai_chat pydantic_result with
                | Ok ds => Ok (Return (RDicts ds))
                | Raise e => Raise e
                end
              else if format =? "langchain" then
                match _poml_response_to_langchain pydantic_result with
                | Ok ds => Ok (Return (RDicts ds))
                | Raise e => Raise e
                end
              else Raise (ValueError ("Unknown output format: " ++ format))
          end
        else Ok (Continue (RJson result))
    end.

Definition loads_if_truthy (E : collaborators) (text : option string)
  : M (option json) :=
  match text with
  | Some t =>
      if Str.truthy t then
        match json_loads E t with
        | Ok j => ret (Some j)
        | Raise e => raise e
        end
      else ret None
  | None => ret None
  end.

(** One of the three blocks of lines 390-440.  [traced_markup] tells
    whether the markup passed on is [poml_content or str(markup)] (weave,
    mlflow) or [str(markup)] (agentops). *)
Definition forward (E : collaborators) (backend label : string)
  (traced_markup : bool) (markup : path) (result : py_result) : M unit :=
  match import_integration E backend with
  | Some e => raise e
  | None =>
      trace_prefix <- (fun s => (_latest_trace_prefix s, s)) ;;
      current_version <- gets _current_trace_version ;;
      match trace_prefix, current_version with
      | Some trace_prefix, Some _ =>
          poml_content <- _read_latest_traced_file ".poml" ;;
          context_content <- _read_latest_traced_file ".context.json" ;;
          stylesheet_content <- _read_latest_traced_file ".stylesheet.json" ;;
          let shown :=
            match poml_content with
            | Some t => if traced_markup && Str.truthy t then t else markup
            | None => markup
            end in
          context_value <- loads_if_truthy E context_content ;;
          stylesheet_value <- loads_if_truthy E stylesheet_content ;;
          match log_poml_call E backend (path_name trace_prefix) shown
                  context_value stylesheet_value result with
          | Some e => raise e
          | None => ret tt
          end
      | _, _ =>
          raise (RuntimeError (label ++ " tracing requires local tracing to be enabled."))
      end
  end.

Definition forward_if (flag : state -> bool) (E : collaborators)
  (backend label : string) (traced_markup : bool) (markup : path)
  (result : py_result) : M unit :=
  on <- gets flag ;;
  if on then
    emit (EvBackend backend) ;;
    forward E backend label traced_markup markup result
  else ret tt.

(** Lines 442-443. *)
Definition attach_result (result : py_result) : L unit :=
  fr <- gets fst ;;
  match trace_record fr with
  | Some _ => record_set (set_result result) ;; glob (emit EvAttachResult)
  | None => ret tt
  end.

Definition close_if_set (f : option path) : L unit :=
  match f with
  | Some p => glob (close_temp p)
  | None => ret tt
  end.

(** Lines 445-453. *)
Definition poml_finally : L unit :=
  fr <- gets fst ;;
  close_if_set (temp_input_file fr) ;;
  close_if_set (temp_context_file fr) ;;
  close_if_set (temp_stylesheet_file fr) ;;
  match trace_record fr with
  | Some r => glob (modify (fun s => with_trace_log (_trace_log s ++ [r])%list s))
  | None => ret tt
  end.

(** Lines 390-440: the three backends, in the order of the source. *)
Definition forward_all (E : collaborators) (markup : path)
  (result : py_result) : M unit :=
  forward_if _weave_enabled E "weave" "Weave" true markup result ;;
  forward_if _agentops_enabled E "agentops" "AgentOps" false markup result ;;
  forward_if _mlflow_enabled E "mlflow" "MLflow" true markup result.

(** Lines 362-444: what happens once the renderer has exited with 0. *)
Definition deliver (E : collaborators) (markup : path) (chat : bool)
  (output_file_specified : bool) (output_file : path) (format : string)
  : L py_result :=
  text <- glob (read_output output_file_specified output_file) ;;
  fl <- lift (convert E chat format text) ;;
  match fl with
  | Return v => ret v
  | Continue result =>
      glob (forward_all E markup result) ;;
      attach_result result ;;
      ret result
  end.

(** The message of line 360. *)
Definition command_failed (returncode : Z) : string :=
  "POML command failed with return code " ++ Str.of_Z returncode
  ++ ". See the log for details.".

(** Lines 348-361, then [deliver]: the last arguments and the renderer. *)
Definition invoke (E : collaborators) (markup : path) (chat : bool)
  (output_file_specified : bool) (output_file : path) (format : string)
  (extra_args : option (list string))
  (context_args stylesheet_args : list string) : L py_result :=
  trace_args <-
    glob (gets (fun s =>
            match _trace_enabled s, _trace_dir s with
            | true, Some d => ["--traceDir"; d]
            | _, _ => []
            end)) ;;
  let args :=
    (["-f"; markup; "-o"; output_file] ++ context_args ++ stylesheet_args
     ++ ["--chat"; if chat then "true" else "false"] ++ trace_args
     ++ match extra_args with Some l => l | None => [] end)%list in
  returncode <- glob (run_renderer E args) ;;
  if negb (returncode =? 0)%Z then
    raise (RuntimeError (command_failed returncode))
  else deliver E markup chat output_file_specified output_file format.

(** Lines 321-444: the block under [with]. *)
Definition render (E : collaborators) (markup : path)
  (context stylesheet : option data_arg) (chat : bool)
  (output_file : option string) (format : string)
  (extra_args : option (list string)) (temp_output_file : path)
  : L py_result :=
  let output_file_specified :=
    match output_file with None => false | Some _ => true end in
  let output_file :=
    match output_file with None => temp_output_file | Some o => o end in
  context_args <- data_args E "--context-file" context set_temp_context_file ;;
  stylesheet_args <-
    data_args E "--stylesheet-file" stylesheet set_temp_stylesheet_file ;;
  invoke E markup chat output_file_specified output_file format extra_args
    context_args stylesheet_args.

(** Lines 308-444: the markup file, then the block under [with]. *)
Definition poml_main (E : collaborators) (markup : markup_arg)
  (context stylesheet : option data_arg) (chat : bool)
  (output_file : option string) (format : string)
  (extra_args : option (list string)) : L py_result :=
  markup <- resolve_markup markup ;;
  with_NamedTemporaryFile
    (render E markup context stylesheet chat output_file format extra_args).

(** Lines 282-444: the block under [try]. *)
Definition poml_try (E : collaborators) (markup : markup_arg)
  (context stylesheet : option data_arg) (chat : bool)
  (output_file : option string) (format : string)
  (extra_args : option (list string)) : L py_result :=
  trace_inputs E markup context stylesheet ;;
  poml_main E markup context stylesheet chat output_file format extra_args.

Definition poml (E : collaborators) (markup : markup_arg)
  (context stylesheet : option data_arg) (chat : bool)
  (output_file : option string) (format : string)
  (extra_args : option (list string)) : M py_result :=
  fun s =>
    match try_finally
            (poml_try E markup context stylesheet chat output_file format extra_args)
            poml_finally (init_frame, s) with
    | (o, (_, s')) => (o, s')
    end.

(** ** Relations between the states before and after a statement *)

(** The kinds of effect a statement may log. *)
Inductive kind :=
| KTempCreate | KTempDelete | KWarn | KRun | KReadOutput | KBackend | KAttach.

Definition kind_of (e : event) : kind :=
  match e with
  | EvTempCreate _ => KTempCreate
  | EvTempDelete _ => KTempDelete
  | EvWarn _ => KWarn
  | EvRun _ _ => KRun
  | EvReadOutput _ => KReadOutput
  | EvBackend _ => KBackend
  | EvAttachResult => KAttach
  end.

(** The module globals of the source. *)
Definition globals_of (s : state) :=
  (_trace_enabled s, _weave_enabled s, _agentops_enabled s,
   _mlflow_enabled s, _trace_log s, _trace_dir s).

(** [steps ks s s']: from [s] to [s'] the globals did not change and the
    effects logged are all of the kinds [ks]. *)
Definition steps (ks : list kind) (s s' : state) : Prop :=
  globals_of s' = globals_of s
  /\ exists evs, events s' = (events s ++ evs)%list
                 /\ Forall (fun e => In (kind_of e) ks) evs.

(** Relations on the locals of [poml]. *)
Definition same_temps (fr fr' : frame) : Prop :=
  temp_input_file fr' = temp_input_file fr
  /\ temp_context_file fr' = temp_context_file fr
  /\ temp_stylesheet_file fr' = temp_stylesheet_file fr.

Definition record_kept (fr fr' : frame) : Prop :=
  forall r, trace_record fr = Some r -> exists r', trace_record fr' = Some r'.

Definition no_result_kept (fr fr' : frame) : Prop :=
  forall r, trace_record fr = Some r -> rec_result r = None ->
            exists r', trace_record fr' = Some r' /\ rec_result r' = None.

(** [frel temps res]: the trace record, once made, stays; with [temps] the
    three temporary file variables are unchanged; with [res] a record
    without result stays without result. *)
Definition frel (temps res : bool) (fr fr' : frame) : Prop :=
  record_kept fr fr'
  /\ (temps = true -> same_temps fr fr')
  /\ (res = true -> no_result_kept fr fr').

Definition pair_rel {A B} (Ra : A -> A -> Prop) (Rb : B -> B -> Prop)
  (x y : A * B) : Prop :=
  Ra (fst x) (fst y) /\ Rb (snd x) (snd y).

(** [preserves R m]: every run of [m] relates its start and end states,
    whether it returns or raises. *)
Definition preserves {S A} (R : S -> S -> Prop) (m : St S A) : Prop :=
  forall x, R x (snd (m x)).

(** [spec Re T m]: a run of [m] that raises [e] relates its states by
    [Re e], one that returns [v] by [T v]. *)
Definition spec {S A} (Re : exn -> S -> S -> Prop) (T : A -> S -> S -> Prop)
  (m : St S A) : Prop :=
  forall x,
    match fst (m x) with
    | Raise e => Re e x (snd (m x))
    | Ok v => T v x (snd (m x))
    end.

(** Temporary files created and deleted among logged effects, and those
    the locals of [poml] still hold. *)
Fixpoint opened (p : path) (evs : list event) : nat :=
  match evs with
  | [] => 0
  | EvTempCreate q :: evs' => (if q =? p then 1 else 0) + opened p evs'
  | _ :: evs' => opened p evs'
  end.

Fixpoint closed (p : path) (evs : list event) : nat :=
  match evs with
  | [] => 0
  | EvTempDelete q :: evs' => (if q =? p then 1 else 0) + closed p evs'
  | _ :: evs' => closed p evs'
  end.

Definition holds (p : path) (f : option path) : nat :=
  match f with
  | Some q => if q =? p then 1 else 0
  | None => 0
  end.

Definition held (p : path) (fr : frame) : nat :=
  holds p (temp_input_file fr) + holds p (temp_context_file fr)
  + holds p (temp_stylesheet_file fr).

(** *** Relations for the trace log of one call *)

Definition all_kinds : list kind :=
  [KTempCreate; KTempDelete; KWarn; KRun; KReadOutput; KBackend; KAttach].

(** Kinds of effect that may be logged before the result is attached. *)
Definition before_attach : list kind :=
  [KTempCreate; KWarn; KRun; KReadOutput; KBackend].

(** Each backend enabled in [s] has an entry among [evs]. *)
Definition backends_called (s : state) (evs : list event) : Prop :=
  (_weave_enabled s = true -> In (EvBackend "weave") evs)
  /\ (_agentops_enabled s = true -> In (EvBackend "agentops") evs)
  /\ (_mlflow_enabled s = true -> In (EvBackend "mlflow") evs).

(** From [x] to [y] the result [v] was attached to the record, after every
    backend entry and before the temporary files were deleted. *)
Definition attached (v : py_result) (x y : frame * state) : Prop :=
  forall r, trace_record (fst x) = Some r ->
    exists r' pre post,
      trace_record (fst y) = Some r' /\ rec_result r' = Some v
      /\ events (snd y) = (events (snd x) ++ pre ++ EvAttachResult :: post)%list
      /\ Forall (fun e => In (kind_of e) before_attach) pre
      /\ Forall (fun e => kind_of e = KTempDelete) post
      /\ backends_called (snd x) pre.

(** What holds of a block of [poml] that raised: a record without result
    is still without result. *)
Definition raised (x y : frame * state) : Prop :=
  pair_rel (frel false true) (steps all_kinds) x y.

(** What holds of a block of [poml] that returned [v]. *)
Definition returned (format : string) (v : py_result) (x y : frame * state)
  : Prop :=
  pair_rel (frel false false) (steps all_kinds) x y
  /\ (format = "dict" -> attached v x y /\ exists j, v = RJson j).

(** The temporary files the [finally] block of [poml] closes, in order. *)
Definition olist {A} (o : option A) : list A :=
  match o with Some a => [a] | None => [] end.

Definition temps_of (fr : frame) : list path :=
  (olist (temp_input_file fr) ++ olist (temp_context_file fr)
   ++ olist (temp_stylesheet_file fr))%list.

(** *** Relations for the renderer's exit status *)

(** The effects logged between two states. *)
Definition new_events (s s' : state) : list event :=
  skipn (length (events s)) (events s').

(** Kinds of effect that may be logged before the renderer is started. *)
Definition before_run : list kind := [KWarn; KTempCreate].




(** *** Relations for temporary files *)


(** A temporary file is created under a name that [tempfile] gave. *)
Definition temp_named (e : event) : Prop :=
  match e with
  | EvTempCreate p => exists n, p = tmp_name n
  | _ => True
  end.

(** From [x] to [y], each temporary file created was deleted or is held
    by one of the variables the [finally] block closes. *)
Definition balanced (x y : frame * state) : Prop :=
  exists evs,
    events (snd y) = (events (snd x) ++ evs)%list
    /\ (forall p, opened p evs + held p (fst x) = closed p evs + held p (fst y))
    /\ Forall temp_named evs.

(** *** Relations for the files of a call *)


(** No condition on the locals of [poml]. *)
Definition any_frame (fr fr' : frame) : Prop := True.

(** The same files, with the same text. *)
Definition same_files (s s' : state) : Prop := fs s' = fs s.

(** A path that exists in [s] exists in [s']. *)
Definition still_there (q : path) (s s' : state) : Prop :=
  FS.exists_ (fs s) q = true -> FS.exists_ (fs s') q = true.


(** What one directory entry contributes to the loop of
    [_latest_trace_prefix]: its index and prefix, when the name matches the
    pattern, the prefix does not end in [.source] and the text before the
    first dot of the prefix is an integer for [int]. *)
Definition entry_index (name : string) : option (Z * string) :=
  match Pattern.match_group1 name with
  | None => None
  | Some prefix_part =>
      if Str.endswith prefix_part ".source" then None
      else
        match PyInt.int (Str.split_head "." prefix_part) with
        | None => None
        | Some idx => Some (idx, prefix_part)
        end
  end.

(** A source link file of the run directory: a name that ends in
    [.source.poml], before a final line feed or not. *)
Definition is_source_link (name : string) : bool :=
  Str.endswith name ".source.poml"
  || Str.endswith name (".source.poml" ++ String Str.newline EmptyString).

(** ** The shapes the specification names

    The dicts of section 4.4, written from its words, to compare with what
    the converters of the source build. *)
Module Shape.

Definition role_of (speaker : string) : string :=
  if speaker =? "human" then "user" else speaker.

Definition text_part (text : string) : json :=
  JObj [("type", JStr "text"); ("text", JStr text)].

Definition image_url_part (mime_type base64 : string) : json :=
  JObj [("type", JStr "image_url");
        ("image_url",
         JObj [("url", JStr ("data:" ++ mime_type ++ ";base64," ++ base64))])].

Definition is_other (p : content_part) : bool :=
  match p with PartOther _ => true | _ => false end.

Definition openai_part (p : content_part) : json :=
  match p with
  | PartStr s => text_part s
  | PartMedia m => image_url_part (media_type m) (media_base64 m)
  | PartOther _ => JNull
  end.

Definition openai_content (c : rich_content) : json :=
  match c with
  | ContentStr s => JStr s
  | ContentList parts => JArr (map openai_part parts)
  | ContentOther _ => JNull
  end.

Definition openai_message (m : PomlMessage) : json :=
  JObj [("role", JStr (role_of (speaker m)));
        ("content", openai_content (content m))].

(** Content of the legal shapes only: text, or a list of text and
    multimedia parts. *)
Definition legal_content (c : rich_content) : bool :=
  match c with
  | ContentStr _ => true
  | ContentList parts => forallb (fun p => negb (is_other p)) parts
  | ContentOther _ => false
  end.

Definition legal_message (m : PomlMessage) : bool :=
  str_in (speaker m) Speaker && legal_content (content m).

End Shape.


(** What the statements before the backend blocks keep. *)
Definition log_prefix : frame * state -> frame * state -> Prop :=
  pair_rel (frel false true) (steps before_attach).

(** Leaving the [with] block deletes the output file and nothing else. *)
Definition closes (y z : frame * state) : Prop :=
  fst z = fst y
  /\ globals_of (snd z) = globals_of (snd y)
  /\ exists dels, events (snd z) = (events (snd y) ++ dels)%list
                  /\ Forall (fun e => kind_of e = KTempDelete) dels.

(** What the statements before the renderer run keep; the kinds of
    effect logged after it; what holds of a block that raised and of one
    that returned. *)
Definition exit_prefix : frame * state -> frame * state -> Prop :=
  pair_rel (frel false false) (steps before_run).

Definition after_run : list kind := [KReadOutput; KBackend; KAttach].




(** Collaborators and states for the examples: a renderer that writes a
    fixed text to the file after [-o] and exits with a given code, a JSON
    reader that knows the empty list, backends that accept every call. *)
Module Example.

Definition renderer (returncode : Z) (args : list string) (f : filesystem)
  : outcome Z * filesystem :=
  (Ok returncode, FS.write f (nth 3 args "") "[]").

Definition world (returncode : Z) : collaborators :=
  mkCollaborators (fun _ => Ok "{}")
    (fun text => if text =? "[]" then Ok (JArr [])
                 else Raise (ValueError "Expecting value"))
    (renderer returncode) (fun _ => None) (fun _ _ _ _ _ _ => None).

Definition fresh : state :=
  mkState false false false false [] None [] None
    (mkDatetime 2025 7 1 12 0 0 0) 0 [].

(** After [set_trace("weave")] with no directory anywhere. *)
Definition weave_without_directory : state :=
  snd (set_trace (EnStr "weave") None fresh).

(** After [set_trace(True, trace_dir="/traces")]. *)
Definition local_tracing : state :=
  snd (set_trace (EnBool true) (Some "/traces") fresh).

End Example.

(** ** The dicts of the langchain conversion

    What [_poml_response_to_langchain] builds for content of the legal
    shapes, as pure functions of the message. *)
Module LangchainShape.

Definition image_part (mime_type base64 : string) : json :=
  JObj [("type", JStr "image"); ("source_type", JStr "base64");
        ("data", JStr base64); ("mime_type", JStr mime_type)].

Definition part (p : content_part) : json :=
  match p with
  | PartStr s => Shape.text_part s
  | PartMedia m => image_part (media_type m) (media_base64 m)
  | PartOther _ => JNull
  end.

Definition content_of (c : rich_content) : json :=
  match c with
  | ContentStr s => JStr s
  | ContentList parts => JArr (map part parts)
  | ContentOther _ => JNull
  end.

Definition message (m : PomlMessage) : json :=
  JObj [("type", JStr (speaker m));
        ("data", JObj [("content", content_of (content m))])].

End LangchainShape.

(** ** The renderer's JSON for a message

    The object the renderer writes for one message: the keys [speaker] and
    [content], the content a string or a list of strings and multimedia
    objects with the keys [type], [base64] and, when there is one, [alt]. *)
Module Wire.

Definition media (m : ContentMultiMedia) : json :=
  JObj ([("type", JStr (media_type m)); ("base64", JStr (media_base64 m))]
        ++ match media_alt m with
           | Some a => [("alt", JStr a)]
           | None => []
           end)%list.

Definition part (p : content_part) : json :=
  match p with
  | PartStr s => JStr s
  | PartMedia m => media m
  | PartOther _ => JNull
  end.

Definition content_of (c : rich_content) : json :=
  match c with
  | ContentStr s => JStr s
  | ContentList parts => JArr (map part parts)
  | ContentOther _ => JNull
  end.

Definition message (m : PomlMessage) : json :=
  JObj [("speaker", JStr (speaker m)); ("content", content_of (content m))].

End Wire.

(** ** Relations and predicates for whole calls of [poml] *)

(** A trace record that is absent stays absent. *)
Definition none_kept (fr fr' : frame) : Prop :=
  trace_record fr = None -> trace_record fr' = None.

(** The kinds of effect of a call that enters no backend block and
    attaches no result. *)
Definition without_backends : list kind :=
  [KTempCreate; KTempDelete; KWarn; KRun; KReadOutput].

(** [OutputFormat] of the source. *)
Definition OutputFormat : list string :=
  ["raw"; "dict"; "openai_chat"; "langchain"; "pydantic"].

(** The kind of value each output format names. *)
Definition format_result (format : string) (v : py_result) : Prop :=
  match v with
  | RText _ => format = "raw"
  | RJson _ => format = "dict"
  | RPydantic _ => format = "pydantic"
  | RDicts _ => format = "openai_chat" \/ format = "langchain"
  end.

(** The value that lines 368-388 return or pass on. *)
Definition value_of (fl : flow) : py_result :=
  match fl with
  | Return v => v
  | Continue result => result
  end.

(** [yields P m]: every value that [m] returns satisfies [P]. *)
Definition yields {S A} (P : A -> Prop) (m : St S A) : Prop :=
  forall x v, fst (m x) = Ok v -> P v.

(** ** The renderer's command line *)

(** Lines 349-350: the trace directory is passed on when tracing is
    enabled and a run directory is set. *)
Definition trace_args (s : state) : list string :=
  match _trace_enabled s, _trace_dir s with
  | true, Some d => ["--traceDir"; d]
  | _, _ => []
  end.

(** Lines 329-353: the arguments given to [run]. *)
Definition renderer_args (markup output_file : path)
  (context_args stylesheet_args : list string) (chat : bool)
  (trace_args extra_args : list string) : list string :=
  (["-f"; markup; "-o"; output_file] ++ context_args ++ stylesheet_args
   ++ ["--chat"; if chat then "true" else "false"] ++ trace_args
   ++ extra_args)%list.

(** The file given after [-f]: the markup path itself, or a temporary file
    when the markup is text that names no existing file. *)
Definition markup_file (markup : markup_arg) (s : state) (m : path) : Prop :=
  match markup with
  | MarkupPath p => m = p
  | MarkupStr t =>
      if FS.exists_ (fs s) t then m = t else exists n, m = tmp_name n
  end.

(** The file given after [-o]: the caller's, or a temporary file. *)
Definition output_path (output_file : option string) (out : path) : Prop :=
  match output_file with
  | Some o => out = o
  | None => exists n, out = tmp_name n
  end.

(** The arguments for a context or stylesheet: none without data, a
    temporary file for a dict, and else the path given. *)
Definition data_file_args (flag : string) (data : option data_arg)
  (args : list string) : Prop :=
  match data with
  | None => args = []
  | Some (DataDict _) => exists n, args = [flag; tmp_name n]
  | Some a => args = if data_truthy a then [flag; data_str a] else []
  end.

Definition command_line (markup : markup_arg)
  (context stylesheet : option data_arg) (chat : bool)
  (output_file : option string) (extra_args : option (list string))
  (s : state) (args : list string) : Prop :=
  exists m out context_args stylesheet_args,
    markup_file markup s m /\ output_path output_file out
    /\ data_file_args "--context-file" context context_args
    /\ data_file_args "--stylesheet-file" stylesheet stylesheet_args
    /\ args = renderer_args m out context_args stylesheet_args chat
                (trace_args s)
                match extra_args with Some l => l | None => [] end.

(** The argument lists of the renderer runs among logged effects. *)
Definition runs (evs : list event) : list (list string) :=
  flat_map (fun ev => match ev with EvRun args _ => [args] | _ => [] end) evs.

Definition at_most_one_run (P : list string -> Prop) (evs : list event)
  : Prop :=
  runs evs = [] \/ exists args, runs evs = [args] /\ P args.

(** From [x] to [y] the globals did not change and the renderer was
    started at most once, with arguments that satisfy [P]. *)
Definition ran (P : list string -> Prop) (x y : frame * state) : Prop :=
  globals_of (snd y) = globals_of (snd x)
  /\ exists evs, events (snd y) = (events (snd x) ++ evs)%list
                 /\ at_most_one_run P evs.

(** ** [integration/llamaindex.py]

    [poml_formatter] turns the messages that [poml] returns for the format
    [pydantic] into the chat messages of LlamaIndex; the constructors of
    [LlamaIndexPomlTemplate] prepare the template text they hand to the
    parent class. *)
Module LlamaIndex.

Inductive MessageRole := USER | ASSISTANT | SYSTEM.

(** [ChatMessage(role=..., content=...)] *)
Record ChatMessage := mkChatMessage {
  role : MessageRole;
  chat_content : string }.

(** What the functions of this file raise: an exception of [poml], or the
    [AttributeError] of an attribute that an object does not have. *)
Inductive py_exn :=
| Exn (e : exn)
| AttributeError (msg : string).

Inductive result (A : Type) :=
| Returned (a : A)
| Failed (e : py_exn).
Arguments Returned {A} a.
Arguments Failed {A} e.

(** [List[ChatMessage]] in speaker mode, [str] otherwise. *)
Inductive formatted :=
| Messages (l : list ChatMessage)
| Text (s : string).

(** Lines 27-34. *)
Definition role_of (speaker : string) : MessageRole :=
  if speaker =? "human" then USER
  else if speaker =? "ai" then ASSISTANT
  else if speaker =? "system" then SYSTEM
  else USER.   (* fallback *)

Section Formatter.

(** Lines 47-48, for a part that is neither [str] nor [ContentMultiMedia]
    and is known by its [str()]: the text added when the part is a dict
    of type [text], the empty string when it is not. *)
Variable other_text : string -> string.

(** Lines 43-48: the text parts, concatenated. *)
Definition text_content (parts : list content_part) : string :=
  fold_left
    (fun text_content part =>
       match part with
       | PartStr s => text_content ++ s
       | PartMedia _ => text_content
       | PartOther shown => text_content ++ other_text shown
       end)
    parts "".

(** Lines 25-49: the loop over the messages. *)
Definition chat_messages (messages : list PomlMessage) : list ChatMessage :=
  fold_left
    (fun chat_messages msg =>
       let role := role_of (speaker msg) in
       match content msg with
       | ContentStr s => (chat_messages ++ [mkChatMessage role s])%list
       | ContentList parts =>
           (chat_messages ++ [mkChatMessage role (text_content parts)])%list
       | ContentOther _ => chat_messages
       end)
    messages [].

(** [poml_formatter(markup, speaker_mode, context)].  Without speaker mode
    line 55 reads the attribute [content] of the list [messages], which a
    list does not have.  The last case is not reached: the format is
    [pydantic]. *)
Definition poml_formatter (E : collaborators) (markup : markup_arg)
  (speaker_mode : bool) (context : option data_arg)
  : state -> result formatted * state :=
  fun s =>
    match poml E markup context None speaker_mode None "pydantic" None s with
    | (Raise e, s') => (Failed (Exn e), s')
    | (Ok (RPydantic messages), s') =>
        if speaker_mode then
          (Returned (Messages (chat_messages messages)), s')
        else if (length messages =? 1)%nat then
          (Failed (AttributeError "'list' object has no attribute 'content'"),
           s')
        else
          (Failed (Exn (ValueError "Non-speaker mode requires exactly one message")),
           s')
    | (Ok _, s') => (Failed (Exn (TypeError "not a list of messages")), s')
    end.

End Formatter.

(** The text of legal content: a string as it is, of a list its strings
    in order, multimedia parts left out. *)
Definition part_text (p : content_part) : string :=
  match p with
  | PartStr s => s
  | _ => ""
  end.

Definition plain_text (c : rich_content) : string :=
  match c with
  | ContentStr s => s
  | ContentList parts => String.concat "" (map part_text parts)
  | ContentOther _ => ""
  end.

(** [needle in hay] on strings. *)
Fixpoint contains (needle hay : string) : bool :=
  String.prefix needle hay
  || match hay with
     | EmptyString => false
     | String _ hay' => contains needle hay'
     end.

Definition quote : string := String (ascii_of_nat 34) EmptyString.

Definition line_feed : string := String Str.newline EmptyString.

(** The f-string of lines 150-154 and 176-180: the template as the body
    of one chat block of the user. *)
Definition user_block (template : string) : string :=
  line_feed ++ "{% chat role=" ++ quote ++ "user" ++ quote ++ " %}"
  ++ line_feed ++ template ++ line_feed ++ "{% endchat %}" ++ line_feed.

(** [from_template]: the template text given to the parent class. *)
Definition from_template (template : string) (speaker_mode : bool) : string :=
  if speaker_mode
     && negb (contains "{% chat" template || contains "{{" template)
  then user_block template
  else template.

(** [from_file]: the template text given to the parent class. *)
Definition from_file (template_file : path) (speaker_mode : bool) : M string :=
  ex <- gets (fun s => FS.exists_ (fs s) template_file) ;;
  if negb ex then
    raise (FileNotFoundError ("Template file not found: " ++ template_file))
  else
    template_content <- (fun s => (FS.read_text (fs s) template_file, s)) ;;
    if speaker_mode then
      if negb (contains "{% chat" template_content
               || contains "{{" template_content)
      then ret (user_block template_content)
      else ret template_content
    else ret template_content.

End LlamaIndex.

(** ** Text written and read back *)

Definition carriage_return : ascii := ascii_of_nat 13.

(** The text holds no carriage return.  Reading in text mode, as
    [open(path, "r")] does, turns a carriage return, alone or before a line
    feed, into a line feed; it leaves any other text as it was written. *)
Definition no_carriage_return (text : string) : bool :=
  Str.all (fun c => negb (Ascii.eqb c carriage_return)) text.

(** ** Backends *)

(** Some backend is enabled while there is no run directory to read the
    trace files from. *)
Definition stranded (s : state) : Prop :=
  (_weave_enabled s = true \/ _agentops_enabled s = true
   \/ _mlflow_enabled s = true)
  /\ (_trace_enabled s = false \/ _trace_dir s = None).

(** The backends enabled, in the order of lines 390-440. *)
Definition enabled_backends (s : state) : list string :=
  ((if _weave_enabled s then ["weave"] else [])
   ++ (if _agentops_enabled s then ["agentops"] else [])
   ++ (if _mlflow_enabled s then ["mlflow"] else []))%list.

(** The backend blocks entered among logged effects, in order. *)
Definition backends_entered (evs : list event) : list string :=
  flat_map (fun ev => match ev with EvBackend b => [b] | _ => [] end) evs.

(** The kinds of effect of the statements around the backend blocks. *)
Definition around_backends : list kind :=
  [KTempCreate; KTempDelete; KWarn; KRun; KReadOutput; KAttach].

(** Between [x] and [y] the backends entered are all those enabled, in
    order; or, for a block that raised, the first of them. *)
Definition entered_all (x y : frame * state) : Prop :=
  exists evs, events (snd y) = (events (snd x) ++ evs)%list
              /\ backends_entered evs = enabled_backends (snd x).

Definition entered_some (x y : frame * state) : Prop :=
  exists evs rest, events (snd y) = (events (snd x) ++ evs)%list
                   /\ enabled_backends (snd x)
                      = (backends_entered evs ++ rest)%list.

(** ** The markup in the trace record *)

(** Lines 285-291, the first block of [trace_fill]. *)
Definition trace_markup (markup : markup_arg) : L unit :=
  match markup with
  | MarkupPath p =>
      record_set (set_markup_path p) ;;
      ex <- os_path_exists p ;;
      if ex then text <- read_text p ;; record_set (set_markup text)
      else ret tt
  | MarkupStr s =>
      ex <- os_path_exists s ;;
      if ex then
        record_set (set_markup_path s) ;;
        ex' <- os_path_exists s ;;
        if ex' then text <- read_text s ;; record_set (set_markup text)
        else ret tt
      else record_set (set_markup s)
  end.

(** The keys [markup_path] and [markup] of a record. *)
Definition markup_fields (r : TraceRecord) : option string * option string :=
  (rec_markup_path r, rec_markup r).

(** What those keys hold for a call made in state [s]: the path and the
    text of the file for markup that names an existing file, the path
    alone when the file cannot be read, the text alone for inline
    markup. *)
Definition traced_markup (markup : markup_arg) (s : state)
  : option string * option string :=
  let text_of p :=
    match FS.lookup (fs s) p with
    | Some (File text) => Some text
    | _ => None
    end in
  match markup with
  | MarkupPath p => (Some p, text_of p)
  | MarkupStr t =>
      if FS.exists_ (fs s) t then (Some t, text_of t) else (None, Some t)
  end.

(** The record, once made, keeps its markup keys. *)
Definition markup_kept (fr fr' : frame) : Prop :=
  forall r, trace_record fr = Some r ->
    exists r', trace_record fr' = Some r' /\ markup_fields r' = markup_fields r.

(** * Properties *)

(** ** File system lemmas *)

Module FSFacts.
Import FS.

Lemma lookup_app_old (f g : filesystem) p n :
  lookup f p = Some n -> lookup (f ++ g)%list p = Some n.
Proof.
  induction f as [|[q m] f IH]; simpl; [discriminate|].
  destruct (q =? p); auto.
Qed.

Lemma lookup_app_new (f g : filesystem) p :
  lookup f p = None -> lookup (f ++ g)%list p = lookup g p.
Proof.
  induction f as [|[q m] f IH]; simpl; [reflexivity|].
  destruct (q =? p); [discriminate|auto].
Qed.

Lemma add_dir_old f q p n :
  lookup f p = Some n -> lookup (add_dir f q) p = Some n.
Proof.
  intros H. unfold add_dir. destruct (exists_ f q); [exact H|].
  now apply lookup_app_old.
Qed.

Lemma add_dir_self f q :
  is_file f q = false -> is_dir (add_dir f q) q = true.
Proof.
  unfold add_dir, exists_, is_file, is_dir.
  destruct (lookup f q) as [[t|]|] eqn:Hq; intros Hf; try discriminate.
  - now rewrite Hq.
  - rewrite lookup_app_new by exact Hq. simpl. now rewrite String.eqb_refl.
Qed.

Lemma add_dir_not_file f q p :
  is_file f p = false -> is_file (add_dir f q) p = false.
Proof.
  unfold is_file at 1. destruct (lookup f p) as [n|] eqn:Hp.
  - intros H. unfold is_file. rewrite (@add_dir_old f q p n Hp). exact H.
  - intros _. unfold add_dir, is_file. destruct (exists_ f q).
    + now rewrite Hp.
    + rewrite lookup_app_new by exact Hp. simpl. now destruct (q =? p).
Qed.

Lemma fold_add_dir_old l : forall f p n,
  lookup f p = Some n -> lookup (fold_left add_dir l f) p = Some n.
Proof.
  induction l as [|a l IH]; simpl; intros f p n H; [exact H|].
  apply IH. now apply add_dir_old.
Qed.

Lemma is_dir_lookup f p : is_dir f p = true <-> lookup f p = Some Dir.
Proof.
  unfold is_dir. destruct (lookup f p) as [[t|]|]; split; congruence.
Qed.

Lemma fold_add_dir_in l : forall f q,
  In q l -> is_file f q = false ->
  is_dir (fold_left add_dir l f) q = true.
Proof.
  induction l as [|a l IH]; simpl; intros f q Hin Hf; [contradiction|].
  destruct Hin as [->|Hin].
  - apply is_dir_lookup, fold_add_dir_old, is_dir_lookup.
    now apply add_dir_self.
  - apply IH; [exact Hin|]. now apply add_dir_not_file.
Qed.

(** What a successful [mkdir(parents=True, exist_ok=True)] leaves. *)
Lemma mkdir_parents_ok p f f' :
  mkdir_parents p f = Ok f' ->
  is_dir f' p = true
  /\ Forall (fun a => is_dir f' a = true) (ancestors p)
  /\ (forall q n, lookup f q = Some n -> lookup f' q = Some n).
Proof.
  unfold mkdir_parents.
  destruct (existsb (is_file f) (ancestors p)) eqn:Ha; [discriminate|].
  destruct (is_file f p) eqn:Hp; [discriminate|].
  intros H. injection H as <-.
  assert (Hall : forall a, In a (ancestors p) -> is_file f a = false).
  { intros a Hin. destruct (is_file f a) eqn:Hfa; [|reflexivity].
    assert (existsb (is_file f) (ancestors p) = true)
      by (apply existsb_exists; eauto).
    congruence. }
  split; [|split].
  - apply fold_add_dir_in; [apply in_or_app; right; now left | exact Hp].
  - apply Forall_forall. intros a Hin.
    apply fold_add_dir_in; [apply in_or_app; now left | now apply Hall].
  - intros q n. apply fold_add_dir_old.
Qed.

End FSFacts.

(** ** The timestamp has twenty digits *)

Module Timestamp.

Lemma digit_char_is_digit n : Str.is_digit (Str.digit_char n) = true.
Proof.
  unfold Str.digit_char.
  assert (H : n mod 10 < 10) by (apply Nat.mod_upper_bound; lia).
  remember (n mod 10) as m eqn:Hm. clear Hm.
  do 10 (destruct m as [|m]; [reflexivity|]). lia.
Qed.

Lemma all_app p a b :
  Str.all p (a ++ b) = Str.all p a && Str.all p b.
Proof.
  induction a as [|c a IH]; simpl; [reflexivity|].
  now rewrite IH, andb_assoc.
Qed.

Lemma length_app a b :
  String.length (a ++ b) = String.length a + String.length b.
Proof. induction a as [|c a IH]; simpl; [reflexivity|now rewrite IH]. Qed.


Lemma zero_pad_digits w : forall n, Str.all Str.is_digit (Str.zero_pad w n) = true.
Proof.
  induction w as [|w IH]; intros n; cbn [Str.zero_pad]; [reflexivity|].
  rewrite all_app, IH. cbn [Str.all andb]. now rewrite digit_char_is_digit.
Qed.




End Timestamp.

(** ** Properties of the tracing state manager *)

Module SetTrace.

Ltac run :=
  unfold set_trace, mkdir, bind, ret, raise, gets, modify, lift;
  cbn [fst snd].

(** An explicit [trace_dir]: both directories are made and the second
    becomes the run directory. *)
Lemma with_trace_dir_arg enabled base s r s' :
  activates enabled = true ->
  set_trace enabled (Some base) s = (Ok r, s') ->
  let run_dir := FS.join base (strftime_YmdHMSf (clock s)) in
  exists f1,
    FS.mkdir_parents base (fs s) = Ok f1
    /\ FS.mkdir_parents run_dir f1 = Ok (fs s')
    /\ r = Some run_dir /\ _trace_dir s' = Some run_dir
    /\ _trace_enabled s' = true /\ flags_set enabled s'.
Proof.
  unfold activates. intros Hact. run. rewrite Hact. cbn.
  destruct (FS.mkdir_parents base (fs s)) as [f1|e] eqn:H1; cbn;
    [|discriminate].
  destruct (FS.mkdir_parents _ f1) as [f2|e] eqn:H2; cbn; [|discriminate].
  intros H. injection H as <- <-. exists f1. cbn.
  repeat split; auto.
Qed.

(** No [trace_dir] and a non-empty [POML_TRACE]: that directory itself
    becomes the run directory. *)
Lemma with_environment enabled d s r s' :
  activates enabled = true ->
  environ_POML_TRACE s = Some d -> Str.truthy d = true ->
  set_trace enabled None s = (Ok r, s') ->
  FS.mkdir_parents d (fs s) = Ok (fs s')
  /\ r = Some d /\ _trace_dir s' = Some d
  /\ _trace_enabled s' = true /\ flags_set enabled s'.
Proof.
  unfold activates. intros Hact Henv Hd. run. rewrite Hact. cbn.
  rewrite Henv, Hd. cbn.
  destruct (FS.mkdir_parents d (fs s)) as [f1|e] eqn:H1; cbn;
    [|discriminate].
  intros H. injection H as <- <-. cbn. repeat split; auto.
Qed.

(** Neither: tracing is enabled without a run directory. *)
Lemma without_directory enabled s :
  activates enabled = true ->
  (environ_POML_TRACE s = None \/ environ_POML_TRACE s = Some "") ->
  exists s',
    set_trace enabled None s = (Ok None, s')
    /\ _trace_dir s' = None /\ fs s' = fs s
    /\ _trace_enabled s' = true /\ flags_set enabled s'.
Proof.
  unfold activates. intros Hact Henv. run. rewrite Hact. cbn.
  destruct Henv as [-> | ->]; cbn; eexists; repeat split.
Qed.

Lemma truthy_iff d : Str.truthy d = true <-> d <> "".
Proof.
  unfold Str.truthy. destruct (String.eqb_spec d ""); cbn; split;
    congruence.
Qed.

End SetTrace.

(** C8.  [set_trace(False)], from any state and with any [trace_dir]
    argument, returns [None] and leaves every backend disabled and no run
    directory; the log and the file system are not touched. *)
Theorem set_trace_false_disables_everything :
  forall (trace_dir : option path) (s : state),
    exists s',
      set_trace (EnBool false) trace_dir s = (Ok None, s')
      /\ _trace_enabled s' = false /\ _weave_enabled s' = false
      /\ _agentops_enabled s' = false /\ _mlflow_enabled s' = false
      /\ _trace_dir s' = None
      /\ _trace_log s' = _trace_log s /\ fs s' = fs s.
Proof.
  intros trace_dir s. eexists. repeat split.
Qed.

(** C2, as stated, fails: with no [trace_dir] argument and no [POML_TRACE]
    in the environment, [set_trace("weave")] enables local tracing and
    weave but returns [None]. *)
Lemma set_trace_weave_without_directory :
  let s := mkState false false false false [] None [] None
             (mkDatetime 2025 7 1 12 0 0 0) 0 [] in
  fst (set_trace (EnStr "weave") None s) = Ok None
  /\ _trace_enabled (snd (set_trace (EnStr "weave") None s)) = true
  /\ _weave_enabled (snd (set_trace (EnStr "weave") None s)) = true.
Proof. repeat split. Qed.

(** C2, amended.  A call [set_trace("weave")] that returns leaves local
    tracing and weave enabled and returns the run directory it stored; that
    directory is not [None] exactly when a [trace_dir] argument was given
    or [POML_TRACE] is set to a non-empty value. *)
Theorem set_trace_weave :
  forall (trace_dir : option path) (s s' : state) (r : option path),
    set_trace (EnStr "weave") trace_dir s = (Ok r, s') ->
    _trace_enabled s' = true /\ _weave_enabled s' = true
    /\ _trace_dir s' = r
    /\ (r <> None <->
        trace_dir <> None
        \/ exists d, environ_POML_TRACE s = Some d /\ d <> "").
Proof.
  intros [base|] s s' r H.
  - apply SetTrace.with_trace_dir_arg in H; [|reflexivity].
    destruct H as (f1 & _ & _ & -> & Hd & He & Hw & _).
    repeat split; auto; try congruence. intros _. left. congruence.
  - destruct (environ_POML_TRACE s) as [d|] eqn:Henv.
    + destruct (Str.truthy d) eqn:Hd.
      * apply (@SetTrace.with_environment _ d) in H; auto.
        destruct H as (_ & -> & Hdir & He & Hw & _).
        repeat split; auto; try congruence.
        intros _. right. exists d. split; [reflexivity|].
        now apply SetTrace.truthy_iff.
      * assert (d = "").
        { destruct (String.eqb_spec d ""); [assumption|].
          apply SetTrace.truthy_iff in n. congruence. }
        subst d.
        destruct (@SetTrace.without_directory (EnStr "weave") s eq_refl)
          as (s1 & Hs & Hdir & _ & He & Hw & _); [now right|].
        rewrite Hs in H. injection H as <- <-.
        repeat split; auto.
        intros [C|(d & Hd' & Hne)]; congruence.
    + destruct (@SetTrace.without_directory (EnStr "weave") s eq_refl)
        as (s1 & Hs & Hdir & _ & He & Hw & _); [now left|].
      rewrite Hs in H. injection H as <- <-.
      repeat split; auto.
      intros [C|(d & Hd' & _)]; congruence.
Qed.

Lemma set_trace_weave_witness :
  let s := mkState false false false false [] None [] None
             (mkDatetime 2025 7 1 12 0 0 0) 0 [] in
  _trace_enabled (snd (set_trace (EnStr "weave") (Some "/traces") s)) = true
  /\ _weave_enabled (snd (set_trace (EnStr "weave") (Some "/traces") s)) = true
  /\ _trace_dir (snd (set_trace (EnStr "weave") (Some "/traces") s))
     = Some "/traces/20250701120000000000"
  /\ (Some "/traces/20250701120000000000" <> None <->
      Some "/traces" <> None
      \/ exists d, environ_POML_TRACE
                     (mkState false false false false [] None [] None
                        (mkDatetime 2025 7 1 12 0 0 0) 0 [])
                   = Some d /\ d <> "").
Proof.
  intros s.
  apply (@set_trace_weave (Some "/traces") s
           (snd (set_trace (EnStr "weave") (Some "/traces") s))
           (Some "/traces/20250701120000000000")).
  reflexivity.
Defined.




(** ** Properties of the output format converter *)

Module Convert.

Lemma map_outcome_map {A B} (f : A -> outcome B) (g : A -> B) l :
  (forall a, In a l -> f a = Ok (g a)) -> map_outcome f l = Ok (map g l).
Proof.
  induction l as [|a l IH]; intros H; cbn; [reflexivity|].
  rewrite (H a) by now left. rewrite IH; [reflexivity|].
  intros x Hx. apply H. now right.
Qed.

Lemma map_outcome_first_raise {A B} (f : A -> outcome B) (g : A -> B)
      pre x post e :
  (forall a, In a pre -> f a = Ok (g a)) -> f x = Raise e ->
  map_outcome f (pre ++ x :: post)%list = Raise e.
Proof.
  induction pre as [|a pre IH]; intros H Hx; cbn.
  - now rewrite Hx.
  - rewrite (H a) by now left. rewrite IH; [reflexivity| |exact Hx].
    intros y Hy. apply H. now right.
Qed.

Lemma map_outcome_inv {A B} (f : A -> outcome B) l : forall bs,
  map_outcome f l = Ok bs -> Forall2 (fun a b => f a = Ok b) l bs.
Proof.
  induction l as [|a l IH]; cbn; intros bs H.
  - injection H as <-. constructor.
  - destruct (f a) as [b|e] eqn:Ha; [|discriminate].
    destruct (map_outcome f l) as [bs'|e]; [|discriminate].
    injection H as <-. constructor; auto.
Qed.

Lemma speaker_role sp :
  str_in sp Speaker = true ->
  assoc sp speaker_to_role = Some (Shape.role_of sp).
Proof.
  unfold str_in, Speaker, Shape.role_of, speaker_to_role.
  cbn [existsb assoc].
  rewrite (String.eqb_sym sp "human"), (String.eqb_sym sp "assistant"),
    (String.eqb_sym sp "system").
  destruct (String.eqb_spec "human" sp) as [<-|]; [reflexivity|].
  destruct (String.eqb_spec "assistant" sp) as [<-|]; [reflexivity|].
  destruct (String.eqb_spec "system" sp) as [<-|]; [reflexivity|].
  discriminate.
Qed.

Lemma unknown_speaker sp :
  str_in sp Speaker = false -> assoc sp speaker_to_role = None.
Proof.
  unfold str_in, Speaker, speaker_to_role. cbn [existsb assoc].
  rewrite (String.eqb_sym sp "human"), (String.eqb_sym sp "assistant"),
    (String.eqb_sym sp "system").
  destruct ("human" =? sp); [discriminate|].
  destruct ("assistant" =? sp); [discriminate|].
  destruct ("system" =? sp); [discriminate|reflexivity].
Qed.

Lemma part_ok p :
  Shape.is_other p = false -> openai_content_part p = Ok (Shape.openai_part p).
Proof. destruct p; cbn; intros H; [reflexivity|reflexivity|discriminate]. Qed.

Lemma parts_ok parts :
  forallb (fun p => negb (Shape.is_other p)) parts = true ->
  map_outcome openai_content_part parts = Ok (map Shape.openai_part parts).
Proof.
  intros H. apply map_outcome_map. intros p Hp. apply part_ok.
  rewrite forallb_forall in H. apply H in Hp. now destruct (Shape.is_other p).
Qed.

Lemma message_ok m :
  Shape.legal_message m = true -> openai_message m = Ok (Shape.openai_message m).
Proof.
  unfold Shape.legal_message, openai_message, Shape.openai_message.
  intros H. apply andb_true_iff in H. destruct H as [Hs Hc].
  rewrite (speaker_role _ Hs).
  destruct (content m) as [t|parts|t]; cbn in *; [reflexivity| |discriminate].
  now rewrite (parts_ok _ Hc).
Qed.

Lemma str_in_In x l : str_in x l = true <-> In x l.
Proof.
  unfold str_in. rewrite existsb_exists. split.
  - intros (y & Hy & He). apply String.eqb_eq in He. now subst.
  - intros H. exists x. split; [exact H|apply String.eqb_refl].
Qed.

End Convert.

(** *** What validation guarantees *)

Module Validated.

Lemma part_not_other j p :
  Pydantic.validate_part j = Ok p -> Shape.is_other p = false.
Proof.
  destruct j; cbn; try discriminate.
  - intros H. now injection H as <-.
  - destruct (Pydantic.validate_media fields); [|discriminate].
    intros H. now injection H as <-.
Qed.

Lemma content_legal j c :
  Pydantic.validate_content j = Ok c -> Shape.legal_content c = true.
Proof.
  destruct j; cbn; try discriminate.
  - intros H. now injection H as <-.
  - destruct (map_outcome Pydantic.validate_part items) as [parts|e] eqn:Hp;
      [|discriminate].
    intros H. injection H as <-. cbn.
    apply Convert.map_outcome_inv in Hp.
    induction Hp as [|a b l l' Hab _ IH]; cbn; [reflexivity|].
    now rewrite (part_not_other _ Hab), IH.
Qed.

Lemma speaker_known j sp :
  Pydantic.validate_speaker j = Ok sp -> str_in sp Speaker = true.
Proof.
  destruct j; cbn [Pydantic.validate_speaker]; try discriminate.
  destruct (str_in s Speaker) eqn:Hs; [|discriminate].
  intros H. now injection H as <-.
Qed.

Lemma construct_legal sp c m :
  Pydantic.construct sp c = Ok m -> Shape.legal_message m = true.
Proof.
  unfold Pydantic.construct.
  destruct (Pydantic.validate_speaker sp) as [s|e] eqn:Hs; [|discriminate].
  destruct (Pydantic.validate_content c) as [rc|e] eqn:Hc; [|discriminate].
  intros H. injection H as <-. unfold Shape.legal_message. cbn [speaker content].
  now rewrite (speaker_known _ Hs), (content_legal _ Hc).
Qed.

Lemma construct_kwargs_legal item m :
  Pydantic.construct_kwargs item = Ok m -> Shape.legal_message m = true.
Proof.
  destruct item; cbn; try discriminate.
  destruct (dict_get "speaker" fields) as [sp|]; [|discriminate].
  destruct (dict_get "content" fields) as [c|]; [|discriminate].
  apply construct_legal.
Qed.

Lemma pydantic_result_legal chat result msgs :
  pydantic_result chat result = Ok msgs ->
  forallb Shape.legal_message msgs = true.
Proof.
  unfold pydantic_result. destruct chat.
  - destruct (Pydantic.iterate result) as [items|e]; [|discriminate].
    intros H. apply Convert.map_outcome_inv in H.
    induction H as [|a b l l' Hab _ IH]; cbn; [reflexivity|].
    now rewrite (construct_kwargs_legal _ Hab), IH.
  - destruct (Pydantic.construct (JStr "human") result) as [m|e] eqn:Hm;
      [|discriminate].
    intros H. injection H as <-. cbn.
    now rewrite (construct_legal _ _ Hm).
Qed.

Lemma human_speaker c m :
  Pydantic.construct (JStr "human") c = Ok m -> speaker m = "human".
Proof.
  unfold Pydantic.construct. cbn.
  destruct (Pydantic.validate_content c); [|discriminate].
  intros H. now injection H as <-.
Qed.

Lemma legal_converts msgs :
  forallb Shape.legal_message msgs = true ->
  _poml_response_to_openai_chat msgs = Ok (map Shape.openai_message msgs).
Proof.
  intros H. apply Convert.map_outcome_map. intros m Hm.
  apply Convert.message_ok. rewrite forallb_forall in H. now apply H.
Qed.

End Validated.

(** C7.  The [openai_chat] conversion.  Messages whose speaker is one of
    human, assistant, system and whose content is text, or a list of text
    and multimedia parts, become the dicts of the specification: role user,
    assistant, system; text content as it is; a list as the list of
    [{type: text}] and [{type: image_url}] dicts.  The first message with
    another speaker makes the call raise "Unknown speaker", the first other
    element of a content list "Unexpected content part".  With [chat] false
    the parsed output is validated as the content of one human message, and
    that message is what is converted. *)
Theorem openai_chat_conversion :
  forall (E : collaborators) (pre post : list PomlMessage) (msg : PomlMessage)
         (before rest : list content_part) (shown text : string)
         (j : json) (m : PomlMessage),
    (assoc "human" speaker_to_role = Some "user"
     /\ assoc "assistant" speaker_to_role = Some "assistant"
     /\ assoc "system" speaker_to_role = Some "system")
    /\ (forallb Shape.legal_message pre = true ->
        _poml_response_to_openai_chat pre = Ok (map Shape.openai_message pre))
    /\ (forallb Shape.legal_message pre = true ->
        ~ In (speaker msg) Speaker ->
        _poml_response_to_openai_chat (pre ++ msg :: post)%list
        = Raise (ValueError ("Unknown speaker: " ++ speaker msg)))
    /\ (forallb Shape.legal_message pre = true ->
        In (speaker msg) Speaker ->
        content msg = ContentList (before ++ PartOther shown :: rest)%list ->
        forallb (fun p => negb (Shape.is_other p)) before = true ->
        _poml_response_to_openai_chat (pre ++ msg :: post)%list
        = Raise (ValueError ("Unexpected content part: " ++ shown)))
    /\ (json_loads E text = Ok j ->
        Pydantic.construct (JStr "human") j = Ok m ->
        speaker m = "human"
        /\ pydantic_result false j = Ok [m]
        /\ convert E false "openai_chat" text
           = Ok (Return (RDicts [Shape.openai_message m]))
        /\ Shape.openai_message m
           = JObj [("role", JStr "user");
                   ("content", Shape.openai_content (content m))]).
Proof.
  intros E pre post msg before rest shown text j m.
  split; [repeat split|]. split; [apply Validated.legal_converts|].
  split; [|split].
  - intros Hpre Hsp.
    apply Convert.map_outcome_first_raise with (g := Shape.openai_message).
    + intros a Ha. apply Convert.message_ok.
      rewrite forallb_forall in Hpre. now apply Hpre.
    + unfold openai_message. rewrite Convert.unknown_speaker; [reflexivity|].
      destruct (str_in (speaker msg) Speaker) eqn:Hs; [|reflexivity].
      apply Convert.str_in_In in Hs. contradiction.
  - intros Hpre Hsp Hc Hbefore.
    apply Convert.map_outcome_first_raise with (g := Shape.openai_message).
    + intros a Ha. apply Convert.message_ok.
      rewrite forallb_forall in Hpre. now apply Hpre.
    + unfold openai_message.
      rewrite (@Convert.speaker_role (speaker msg))
        by now apply Convert.str_in_In.
      rewrite Hc.
      rewrite Convert.map_outcome_first_raise
        with (g := Shape.openai_part)
             (e := ValueError ("Unexpected content part: " ++ shown));
        [reflexivity| |reflexivity].
      intros p Hp. apply Convert.part_ok.
      rewrite forallb_forall in Hbefore. apply Hbefore in Hp.
      now destruct (Shape.is_other p).
  - intros Hj Hm.
    assert (Hs : speaker m = "human") by exact (Validated.human_speaker _ Hm).
    assert (Hp : pydantic_result false j = Ok [m])
      by (unfold pydantic_result; now rewrite Hm).
    repeat split; auto.
    + unfold convert. cbn [String.eqb Ascii.eqb Bool.eqb]. rewrite Hj. cbn [negb].
      rewrite Hp. cbn [String.eqb Ascii.eqb Bool.eqb].
      rewrite Validated.legal_converts; [reflexivity|].
      cbn. now rewrite (Validated.construct_legal _ _ Hm).
    + unfold Shape.openai_message, Shape.role_of. now rewrite Hs.
Qed.

Lemma openai_chat_conversion_witness :
  let hi := mkMessage "human" (ContentStr "hi") in
  let ai := mkMessage "ai" (ContentStr "hello") in
  let odd := mkMessage "system"
               (ContentList [PartStr "see:"; PartOther "3.14"; PartStr "x"]) in
  let E := mkCollaborators (fun _ => Ok "{}") (fun _ => Ok (JStr "hi"))
             (fun _ f => (Ok 0%Z, f)) (fun _ => None)
             (fun _ _ _ _ _ _ => None) in
  _poml_response_to_openai_chat [hi]
  = Ok [JObj [("role", JStr "user"); ("content", JStr "hi")]]
  /\ _poml_response_to_openai_chat [hi; ai; hi]
     = Raise (ValueError "Unknown speaker: ai")
  /\ _poml_response_to_openai_chat [hi; odd; hi]
     = Raise (ValueError "Unexpected content part: 3.14")
  /\ convert E false "openai_chat" "hi"
     = Ok (Return (RDicts [JObj [("role", JStr "user"); ("content", JStr "hi")]])).
Proof.
  intros hi ai odd E.
  destruct (openai_chat_conversion E [hi] [hi] ai [] [] "" "hi" (JStr "hi") hi)
    as (_ & H1 & H2 & _ & H4).
  destruct (openai_chat_conversion E [hi] [hi] odd [PartStr "see:"]
              [PartStr "x"] "3.14" "hi" (JStr "hi") hi)
    as (_ & _ & _ & H3 & _).
  split; [apply H1; reflexivity|].
  split; [apply H2; [reflexivity|]|].
  { intros [H|[H|[H|[]]]]; discriminate H. }
  split; [apply H3; try reflexivity|].
  { right. right. left. reflexivity. }
  apply H4; reflexivity.
Defined.

(** C10.  Messages that came out of the validation of [poml] (either the
    per-item validation of chat mode or the single human message of
    non-chat mode) all have a speaker among human, assistant and system;
    [_poml_response_to_openai_chat] returns on them, so it raises neither
    "Unknown speaker" nor anything else. *)
Theorem validated_messages_have_known_speakers :
  forall (chat : bool) (result : json) (msgs : list PomlMessage),
    pydantic_result chat result = Ok msgs ->
    Forall (fun m => In (speaker m) Speaker) msgs
    /\ _poml_response_to_openai_chat msgs = Ok (map Shape.openai_message msgs)
    /\ forall e, _poml_response_to_openai_chat msgs <> Raise e.
Proof.
  intros chat result msgs H.
  apply Validated.pydantic_result_legal in H.
  split; [|split].
  - apply Forall_forall. intros m Hm. rewrite forallb_forall in H.
    apply H in Hm. unfold Shape.legal_message in Hm.
    apply andb_true_iff in Hm. now apply Convert.str_in_In.
  - now apply Validated.legal_converts.
  - intros e. now rewrite Validated.legal_converts.
Qed.

Lemma validated_messages_have_known_speakers_witness :
  let picture := JObj [("type", JStr "image/png"); ("base64", JStr "AAAA");
                       ("alt", JStr "x")] in
  let item := JObj [("speaker", JStr "assistant");
                    ("content", JArr [JStr "see:"; picture])] in
  let msgs := [mkMessage "assistant"
                 (ContentList [PartStr "see:";
                               PartMedia (mkMedia "image/png" "AAAA" (Some "x"))])] in
  Forall (fun m => In (speaker m) Speaker) msgs
  /\ _poml_response_to_openai_chat msgs = Ok (map Shape.openai_message msgs)
  /\ forall e, _poml_response_to_openai_chat msgs <> Raise e.
Proof.
  intros picture item msgs.
  apply (@validated_messages_have_known_speakers true (JArr [item]) msgs).
  reflexivity.
Defined.

(** ** Properties of the trace discovery protocol *)

Module Discovery.

Lemma scan_entry_index d latest name :
  scan_entry d latest name
  = match entry_index name with
    | None => latest
    | Some (idx, g) =>
        if (idx >? fst latest)%Z then (idx, Some (FS.join d g)) else latest
    end.
Proof.
  unfold scan_entry, entry_index.
  destruct (Pattern.match_group1 name) as [g|]; [|reflexivity].
  destruct (Str.endswith g ".source"); [reflexivity|].
  now destruct (PyInt.int (Str.split_head "." g)).
Qed.

(** The loop keeps the first entry whose index is the largest, among
    those above the starting index. *)
Lemma scan_fold d names : forall m r,
  ((forall x i g, In x names -> entry_index x = Some (i, g) -> (i <= m)%Z)
   /\ fold_left (scan_entry d) names (m, r) = (m, r))
  \/ exists n1 name n2 idx g,
       names = (n1 ++ name :: n2)%list
       /\ entry_index name = Some (idx, g) /\ (m < idx)%Z
       /\ fold_left (scan_entry d) names (m, r) = (idx, Some (FS.join d g))
       /\ (forall x i g', In x n1 -> entry_index x = Some (i, g') -> (i < idx)%Z)
       /\ (forall x i g', In x n2 -> entry_index x = Some (i, g') -> (i <= idx)%Z).
Proof.
  induction names as [|a l IH]; intros m r.
  - left. split; [intros x i g []|reflexivity].
  - cbn [fold_left]. rewrite scan_entry_index.
    destruct (entry_index a) as [[ia ga]|] eqn:Ha.
    + cbn [fst]. destruct (Z.gtb_spec ia m) as [Hgt|Hle].
      * destruct (IH ia (Some (FS.join d ga)))
          as [[Hall Hres]|(n1 & name & n2 & idx & g & -> & Hn & Hlt & Hres & H1 & H2)].
        -- right. exists [], a, l, ia, ga. cbn [app].
           repeat split; auto. intros x i g' [].
        -- right. exists (a :: n1), name, n2, idx, g. cbn [app].
           repeat split; auto; [lia|].
           intros x i g' [<-|Hx] Hi; [|eauto].
           rewrite Ha in Hi. injection Hi as <- <-. exact Hlt.
      * destruct (IH m r)
          as [[Hall Hres]|(n1 & name & n2 & idx & g & -> & Hn & Hlt & Hres & H1 & H2)].
        -- left. split; [|exact Hres].
           intros x i g [<-|Hx] Hi; [|eauto].
           rewrite Ha in Hi. injection Hi as <- <-. exact Hle.
        -- right. exists (a :: n1), name, n2, idx, g. cbn [app].
           repeat split; auto.
           intros x i g' [<-|Hx] Hi; [|eauto].
           rewrite Ha in Hi. injection Hi as <- <-. lia.
    + destruct (IH m r)
        as [[Hall Hres]|(n1 & name & n2 & idx & g & -> & Hn & Hlt & Hres & H1 & H2)].
      * left. split; [|exact Hres].
        intros x i g [<-|Hx] Hi; [congruence|eauto].
      * right. exists (a :: n1), name, n2, idx, g. cbn [app].
        repeat split; auto.
        intros x i g' [<-|Hx] Hi; [congruence|eauto].
Qed.

(** Facts about a digit character. *)
Lemma digit_facts a :
  Str.is_digit a = true ->
  Str.is_space a = false /\ Ascii.eqb a "." = false
  /\ Ascii.eqb a "-" = false /\ Ascii.eqb a "+" = false
  /\ (0 <= Str.digit_val a)%Z.
Proof.
  destruct a as [[] [] [] [] [] [] [] []]; intros H;
    try discriminate H; repeat split; discriminate.
Qed.

Lemma digits_nonneg s : forall acc prev z,
  (0 <= acc)%Z -> PyInt.digits acc prev s = Some z -> (0 <= z)%Z.
Proof.
  induction s as [|c s IH]; intros acc prev z Hacc; cbn [PyInt.digits].
  - destruct prev; intros H; try discriminate. now injection H as <-.
  - destruct (Str.is_digit c) eqn:Hd.
    + apply IH. destruct (digit_facts _ Hd) as (_ & _ & _ & _ & Hv). lia.
    + destruct (Ascii.eqb c "_").
      * destruct prev; try discriminate. now apply IH.
      * destruct (Str.is_space c); [|discriminate].
        destruct prev; try discriminate.
        destruct (Str.all Str.is_space s); [|discriminate].
        intros H. now injection H as <-.
Qed.

Lemma lazy_group_extends rest : forall g g',
  Pattern.lazy_group g rest = Some g' -> exists suffix, g' = g ++ suffix.
Proof.
  induction rest as [|c rest IH]; intros g g'; cbn [Pattern.lazy_group].
  - destruct (Pattern.tail_matches ""); [|discriminate].
    intros H. injection H as <-. exists "". induction g; cbn; congruence.
  - destruct (Pattern.tail_matches (String c rest)).
    + intros H. injection H as <-. exists "". induction g; cbn; congruence.
    + destruct (Ascii.eqb c Str.newline); [discriminate|].
      intros H. apply IH in H. destruct H as [suffix ->].
      exists (String c suffix).
      clear. induction g; cbn; congruence.
Qed.

Lemma group_starts_with_digit name g :
  Pattern.match_group1 name = Some g ->
  exists a rest, g = String a rest /\ Str.is_digit a = true.
Proof.
  unfold Pattern.match_group1.
  destruct name as [|a [|b [|c [|d rest]]]]; try discriminate.
  destruct (Str.is_digit a) eqn:Ha; [|discriminate].
  destruct (Str.is_digit b); [|discriminate].
  destruct (Str.is_digit c); [|discriminate].
  destruct (Str.is_digit d); [|discriminate].
  cbn [andb]. intros H. apply lazy_group_extends in H.
  destruct H as [suffix ->]. cbn. eauto.
Qed.

Lemma entry_index_nonneg name i g :
  entry_index name = Some (i, g) -> (0 <= i)%Z.
Proof.
  unfold entry_index.
  destruct (Pattern.match_group1 name) as [g0|] eqn:Hm; [|discriminate].
  destruct (Str.endswith g0 ".source"); [discriminate|].
  destruct (PyInt.int (Str.split_head "." g0)) as [z|] eqn:Hz; [|discriminate].
  intros H. injection H as <- <-.
  destruct (group_starts_with_digit _ Hm) as (a & rest & -> & Ha).
  destruct (digit_facts _ Ha) as (Hsp & Hdot & Hminus & Hplus & _).
  cbn [Str.split_head] in Hz. rewrite Hdot in Hz.
  unfold PyInt.int in Hz. cbn [PyInt.lstrip] in Hz.
  rewrite Hsp, Hminus, Hplus in Hz.
  now apply digits_nonneg in Hz.
Qed.

End Discovery.

(** C4, as stated, fails on the tie: two entries with the same index, the
    lexicographically smaller name listed first.  The loop compares with a
    strict [>], so the first entry stays; the lexicographically last one
    does not win. *)
Lemma latest_trace_prefix_tie_keeps_first :
  let s := mkState true false false false [] (Some "/t")
             [("/t", Dir); ("/t/0002.a.poml", File ""); ("/t/0002.b.poml", File "")]
             None (mkDatetime 2025 7 1 12 0 0 0) 0 [] in
  FS.iterdir (fs s) "/t" = ["0002.a.poml"; "0002.b.poml"]
  /\ entry_index "0002.a.poml" = Some (2%Z, "0002.a")
  /\ entry_index "0002.b.poml" = Some (2%Z, "0002.b")
  /\ String.compare "0002.a.poml" "0002.b.poml" = Lt
  /\ _latest_trace_prefix s = Ok (Some "/t/0002.a").
Proof. repeat split. Qed.

(** C4, amended.  [_latest_trace_prefix] returns [None] when tracing is
    disabled or no run directory is set.  Otherwise, over the names of an
    existing run directory that holds no source link file, in directory
    order, an entry counts when its name matches the record pattern and the
    text before the first dot of its prefix is an integer for [int]; the
    result is [None] when no entry counts, and else the prefix of the first
    entry, in directory order, whose index is the largest.  Over a
    directory holding 0001.x.poml, 0002.x.poml and 0002.x.source.poml, in
    any order, it is the prefix for 0002.x.  What source link files
    contribute in other directories is not stated here. *)
Theorem latest_trace_prefix_first_maximum :
  forall (s : state) (d : path),
    (_trace_enabled s = false \/ _trace_dir s = None ->
     _latest_trace_prefix s = Ok None)
    /\ (_trace_enabled s = true -> _trace_dir s = Some d ->
        FS.is_dir (fs s) d = true ->
        (forall x, In x (FS.iterdir (fs s) d) -> is_source_link x = false) ->
        ((forall x, In x (FS.iterdir (fs s) d) -> entry_index x = None)
          /\ _latest_trace_prefix s = Ok None)
        \/ exists n1 name n2 idx g,
             FS.iterdir (fs s) d = (n1 ++ name :: n2)%list
             /\ entry_index name = Some (idx, g)
             /\ _latest_trace_prefix s = Ok (Some (FS.join d g))
             /\ (forall x i g', In x n1 -> entry_index x = Some (i, g') -> (i < idx)%Z)
             /\ (forall x i g', In x n2 -> entry_index x = Some (i, g') -> (i <= idx)%Z))
    /\ (_trace_enabled s = true -> _trace_dir s = Some d ->
        FS.is_dir (fs s) d = true ->
        Permutation (FS.iterdir (fs s) d)
          ["0001.x.poml"; "0002.x.poml"; "0002.x.source.poml"] ->
        _latest_trace_prefix s = Ok (Some (FS.join d "0002.x"))).
Proof.
  intros s d.
  assert (Hmain : _trace_enabled s = true -> _trace_dir s = Some d ->
        FS.is_dir (fs s) d = true ->
        ((forall x, In x (FS.iterdir (fs s) d) -> entry_index x = None)
          /\ _latest_trace_prefix s = Ok None)
        \/ exists n1 name n2 idx g,
             FS.iterdir (fs s) d = (n1 ++ name :: n2)%list
             /\ entry_index name = Some (idx, g)
             /\ _latest_trace_prefix s = Ok (Some (FS.join d g))
             /\ (forall x i g', In x n1 -> entry_index x = Some (i, g') -> (i < idx)%Z)
             /\ (forall x i g', In x n2 -> entry_index x = Some (i, g') -> (i <= idx)%Z)).
  { intros He Hd Hdir. unfold _latest_trace_prefix. rewrite He, Hd, Hdir.
    destruct (Discovery.scan_fold d (FS.iterdir (fs s) d) (-1)%Z None)
      as [[Hall Hres]|(n1 & name & n2 & idx & g & Hn & Hi & Hlt & Hres & H1 & H2)].
    - left. rewrite Hres. split; [|reflexivity].
      intros x Hx. destruct (entry_index x) as [[i g]|] eqn:Hi; [|reflexivity].
      pose proof (Discovery.entry_index_nonneg _ Hi).
      specialize (Hall x i g Hx Hi). lia.
    - right. exists n1, name, n2, idx, g. rewrite Hres. repeat split; auto. }
  split; [|split; [intros He Hd Hdir _; exact (Hmain He Hd Hdir)|]].
  - unfold _latest_trace_prefix. intros [-> | ->]; [reflexivity|].
    now destruct (_trace_enabled s).
  - intros He Hd Hdir Hperm.
    assert (Hin : In "0002.x.poml" (FS.iterdir (fs s) d))
      by (apply (Permutation_in _ (Permutation_sym Hperm)); right; now left).
    destruct (Hmain He Hd Hdir)
      as [[Hall _]|(n1 & name & n2 & idx & g & Hn & Hi & Hres & H1 & H2)].
    + apply Hall in Hin. discriminate Hin.
    + rewrite Hres.
      assert (Hname : In name (FS.iterdir (fs s) d))
        by (rewrite Hn; apply in_or_app; right; now left).
      assert (Hge : (2 <= idx)%Z).
      { rewrite Hn in Hin. apply in_app_or in Hin.
        destruct Hin as [Hin|[->|Hin]].
        - specialize (H1 _ 2%Z "0002.x" Hin eq_refl). lia.
        - vm_compute in Hi. injection Hi as <- _. lia.
        - exact (H2 _ 2%Z "0002.x" Hin eq_refl). }
      apply (Permutation_in _ Hperm) in Hname.
      destruct Hname as [<-|[<-|[<-|[]]]]; vm_compute in Hi;
        injection Hi as <- <-; [lia|reflexivity|reflexivity].
Qed.

Lemma latest_trace_prefix_first_maximum_witness :
  let s := mkState true false false false [] (Some "/t")
             [("/t", Dir); ("/t/0002.x.source.poml", File "");
              ("/t/0001.x.poml", File ""); ("/t/0002.x.poml", File "")]
             None (mkDatetime 2025 7 1 12 0 0 0) 0 [] in
  _latest_trace_prefix s = Ok (Some (FS.join "/t" "0002.x")).
Proof.
  intros s.
  destruct (latest_trace_prefix_first_maximum s "/t") as (_ & _ & H).
  apply H; try reflexivity.
  cbn. apply perm_trans with ["0001.x.poml"; "0002.x.source.poml"; "0002.x.poml"].
  - apply perm_swap.
  - apply perm_skip, perm_swap.
Defined.

(** ** Rules for [preserves] and [spec] *)

Module Rules.

Section Preserve.
Context {S : Type} (R : S -> S -> Prop) {HR : PreOrder R}.

Lemma ret_ {A} (a : A) : preserves R (ret a).
Proof. intros x. cbn. reflexivity. Qed.

Lemma raise_ {A} e : preserves R (@raise S A e).
Proof. intros x. cbn. reflexivity. Qed.

Lemma gets_ {A} (f : S -> A) : preserves R (gets f).
Proof. intros x. cbn. reflexivity. Qed.

Lemma lift_ {A} (o : outcome A) : preserves R (lift o).
Proof. intros x. cbn. reflexivity. Qed.

Lemma pure_ {A} (f : S -> outcome A) : preserves R (fun s => (f s, s)).
Proof. intros x. cbn. reflexivity. Qed.

Lemma modify_ (f : S -> S) : (forall x, R x (f x)) -> preserves R (modify f).
Proof. intros H x. apply H. Qed.

Lemma bind_ {A B} (m : St S A) (k : A -> St S B) :
  preserves R m -> (forall a, preserves R (k a)) -> preserves R (bind m k).
Proof.
  intros Hm Hk x. unfold bind. specialize (Hm x).
  destruct (m x) as [[a|e] y]; cbn in *; [|exact Hm].
  transitivity y; [exact Hm|apply Hk].
Qed.

Lemma try_finally_ {A} (body : St S A) (cleanup : St S unit) :
  preserves R body -> preserves R cleanup ->
  preserves R (try_finally body cleanup).
Proof.
  intros Hb Hc x. unfold try_finally. specialize (Hb x).
  destruct (body x) as [o y]. specialize (Hc y).
  destruct (cleanup y) as [[u|e] z]; cbn in *; transitivity y; auto.
Qed.

End Preserve.

#[export] Instance pair_rel_preorder {A B} (Ra : A -> A -> Prop)
  (Rb : B -> B -> Prop) {HA : PreOrder Ra} {HB : PreOrder Rb} :
  PreOrder (pair_rel Ra Rb).
Proof.
  split.
  - intros x. split; reflexivity.
  - intros x y z [H1 H2] [H3 H4]. split; etransitivity; eauto.
Qed.

Lemma glob_ {A} (Rf : frame -> frame -> Prop) (Rg : state -> state -> Prop)
      {HF : PreOrder Rf} (m : M A) :
  preserves Rg m -> preserves (pair_rel Rf Rg) (glob m).
Proof.
  intros H [fr s]. unfold glob. cbn. specialize (H s).
  destruct (m s) as [o s']. cbn in *. split; [reflexivity|exact H].
Qed.

Lemma local_ (Rf : frame -> frame -> Prop) (Rg : state -> state -> Prop)
      {HG : PreOrder Rg} (f : frame -> frame) :
  (forall fr, Rf fr (f fr)) -> preserves (pair_rel Rf Rg) (local f).
Proof. intros H [fr s]. cbn. split; [apply H|reflexivity]. Qed.

(** *** The relations used are preorders *)

#[export] Instance steps_preorder ks : PreOrder (steps ks).
Proof.
  split.
  - intros s. split; [reflexivity|]. exists []. split; [|constructor].
    now rewrite app_nil_r.
  - intros s1 s2 s3 [G1 (e1 & E1 & F1)] [G2 (e2 & E2 & F2)]. split.
    + congruence.
    + exists (e1 ++ e2)%list. split.
      * now rewrite E2, E1, app_assoc.
      * apply Forall_app. now split.
Qed.

#[export] Instance frel_preorder t r : PreOrder (frel t r).
Proof.
  split.
  - intros fr. split; [|split].
    + intros r0 H. eauto.
    + intros _. repeat split.
    + intros _ r0 H1 H2. eauto.
  - intros a b c (K1 & T1 & N1) (K2 & T2 & N2). split; [|split].
    + intros r0 H. destruct (K1 _ H) as [r1 H1]. eauto.
    + intros Ht. destruct (T1 Ht) as (A1 & A2 & A3).
      destruct (T2 Ht) as (B1 & B2 & B3). repeat split; congruence.
    + intros Hr r0 H Hn. destruct (N1 Hr _ H Hn) as (r1 & H1 & Hn1).
      exact (N2 Hr _ H1 Hn1).
Qed.

Lemma steps_mono ks ks' s s' :
  incl ks ks' -> steps ks s s' -> steps ks' s s'.
Proof.
  intros Hi [G (evs & E & F)]. split; [exact G|]. exists evs.
  split; [exact E|]. eapply Forall_impl; [|exact F]. intros e. apply Hi.
Qed.

Lemma emit_ ks e : In (kind_of e) ks -> preserves (steps ks) (emit e).
Proof.
  intros H s. cbn. split; [reflexivity|]. exists [e]. split; [reflexivity|].
  now constructor.
Qed.

(** A change of the file system or of the temporary name seed. *)
Lemma silent_ ks (f : state -> state) :
  (forall s, globals_of (f s) = globals_of s /\ events (f s) = events s) ->
  preserves (steps ks) (modify f).
Proof.
  intros H s. cbn. destruct (H s) as [G E]. split; [exact G|]. exists [].
  split; [now rewrite app_nil_r|constructor].
Qed.

Section Spec.
Context {S : Type} (R0 : S -> S -> Prop) (Re : exn -> S -> S -> Prop).

Lemma spec_run {A} (T : A -> S -> S -> Prop) (m : St S A) :
  (forall x o y, m x = (o, y) ->
     match o with Raise e => Re e x y | Ok v => T v x y end) ->
  spec Re T m.
Proof.
  intros H x. specialize (H x). destruct (m x) as [o y]. exact (H o y eq_refl).
Qed.

Lemma spec_ret {A} (T : A -> S -> S -> Prop) v :
  (forall x, T v x x) -> spec Re T (ret v).
Proof. intros H x. apply H. Qed.

Lemma spec_raise {A} (T : A -> S -> S -> Prop) e :
  (forall x, Re e x x) -> spec Re T (@raise S A e).
Proof. intros H x. apply H. Qed.

Lemma spec_bind {A B} (T : B -> S -> S -> Prop) (m : St S A)
      (k : A -> St S B) :
  preserves R0 m ->
  (forall a, (exists x, fst (m x) = Ok a) -> spec Re T (k a)) ->
  (forall e x y, R0 x y -> Re e x y) ->
  (forall e x y z, R0 x y -> Re e y z -> Re e x z) ->
  (forall v x y z, R0 x y -> T v y z -> T v x z) ->
  spec Re T (bind m k).
Proof.
  intros Hm Hk H0 He Ht x. unfold bind. specialize (Hm x).
  destruct (m x) as [[a|e] y] eqn:Hx; cbn in *; [|now apply H0].
  assert (Ha : exists x, fst (m x) = Ok a) by (exists x; now rewrite Hx).
  specialize (Hk a Ha y). destruct (k a y) as [[v|e] z]; cbn in *; eauto.
Qed.

(** A cleanup that always returns. *)
Lemma spec_try_finally {A} (T : A -> S -> S -> Prop) (body : St S A)
      (cleanup : St S unit) (Rc : S -> S -> Prop) :
  spec Re T body ->
  (forall y, fst (cleanup y) = Ok tt /\ Rc y (snd (cleanup y))) ->
  (forall e x y z, Re e x y -> Rc y z -> Re e x z) ->
  (forall v x y z, T v x y -> Rc y z -> T v x z) ->
  spec Re T (try_finally body cleanup).
Proof.
  intros Hb Hc He Ht x. unfold try_finally. specialize (Hb x).
  destruct (body x) as [o y]. destruct (Hc y) as [Hok Hr].
  destruct (cleanup y) as [[u|e] z]; cbn in *; [|discriminate].
  destruct o; eauto.
Qed.

End Spec.

End Rules.

(** ** What each block of [poml] does to the state *)

Module Stages.
Import Rules.

Ltac leaf := first [assumption | cbn; tauto | reflexivity].

Ltac order :=
  lazymatch goal with
  | |- PreOrder _ => typeclasses eauto
  | |- _ => idtac
  end.

Ltac rule l := apply l; order.

Ltac pres :=
  repeat lazymatch goal with
  | |- preserves _ (bind _ _) => rule bind_; [|intros ?]
  | |- preserves _ (ret _) => rule ret_
  | |- preserves _ (raise _) => rule raise_
  | |- preserves _ (gets _) => rule gets_
  | |- preserves _ (lift _) => rule lift_
  | |- preserves _ (emit _) => rule emit_; leaf
  | |- preserves _ (glob _) => rule glob_
  | |- preserves _ (fun s => (_, s)) => rule pure_
  | |- preserves _ (match ?x with _ => _ end) => destruct x
  end.

Section Globals.
Variable ks : list kind.
Variable E : collaborators.

Lemma NamedTemporaryFile_steps :
  In KTempCreate ks -> preserves (steps ks) NamedTemporaryFile.
Proof.
  intros H s. cbn. split; [reflexivity|]. eexists. split; [reflexivity|].
  now constructor.
Qed.

Lemma fs_write_steps p text :
  preserves (steps ks) (modify (fun s => with_fs (FS.write (fs s) p text) s)).
Proof. apply silent_. intros s. now split. Qed.

Lemma write_file_steps content :
  In KTempCreate ks -> preserves (steps ks) (write_file content).
Proof.
  intros H. unfold write_file. pres.
  - now apply NamedTemporaryFile_steps.
  - apply fs_write_steps.
Qed.

Lemma close_temp_steps p :
  In KTempDelete ks -> preserves (steps ks) (close_temp p).
Proof.
  intros H. unfold close_temp. pres. apply silent_. intros s. now split.
Qed.

Lemma run_renderer_steps args :
  In KRun ks -> preserves (steps ks) (run_renderer E args).
Proof.
  intros H s. unfold run_renderer.
  destruct (run E args (fs s)) as [[c|e] f']; cbn.
  - split; [reflexivity|]. eexists. split; [reflexivity|]. now constructor.
  - split; [reflexivity|]. exists []. split; [now rewrite app_nil_r|constructor].
Qed.

Lemma read_output_steps b p :
  In KReadOutput ks -> preserves (steps ks) (read_output b p).
Proof. intros H. unfold read_output. pres. Qed.

Lemma read_latest_steps suffix :
  preserves (steps ks) (_read_latest_traced_file suffix).
Proof. unfold _read_latest_traced_file. pres. Qed.

Lemma loads_if_truthy_steps text :
  preserves (steps ks) (loads_if_truthy E text).
Proof. unfold loads_if_truthy. pres. Qed.

Lemma forward_steps backend label t markup result :
  preserves (steps ks) (forward E backend label t markup result).
Proof.
  unfold forward. pres;
    first [apply read_latest_steps | apply loads_if_truthy_steps].
Qed.

Lemma forward_if_steps flag backend label t markup result :
  In KBackend ks ->
  preserves (steps ks) (forward_if flag E backend label t markup result).
Proof. intros H. unfold forward_if. pres. apply forward_steps. Qed.

Lemma forward_all_steps markup result :
  In KBackend ks -> preserves (steps ks) (forward_all E markup result).
Proof.
  intros H. unfold forward_all. pres; now apply forward_if_steps.
Qed.

End Globals.

Section Locals.
Variable ks : list kind.
Variable E : collaborators.
Variables t r : bool.

Lemma record_set_rel (f : TraceRecord -> TraceRecord) :
  (forall x, rec_result (f x) = rec_result x) ->
  preserves (pair_rel (frel t r) (steps ks)) (record_set f).
Proof.
  intros Hf. unfold record_set. rule local_.
  intros fr. split; [|split].
  - intros r0 H. cbn. rewrite H. cbn. eauto.
  - intros _. repeat split.
  - intros _ r0 H Hn. cbn. rewrite H. cbn. eexists. split; [reflexivity|].
    now rewrite Hf.
Qed.

Lemma os_path_exists_rel p :
  preserves (pair_rel (frel t r) (steps ks)) (os_path_exists p).
Proof. unfold os_path_exists. pres. Qed.

Lemma read_text_rel p :
  preserves (pair_rel (frel t r) (steps ks)) (read_text p).
Proof. unfold read_text. pres. Qed.

Lemma trace_data_rel data set_text set_path :
  (forall v x, rec_result (set_text v x) = rec_result x) ->
  (forall v x, rec_result (set_path v x) = rec_result x) ->
  preserves (pair_rel (frel t r) (steps ks))
    (trace_data E data set_text set_path).
Proof.
  intros H1 H2. unfold trace_data. pres;
    first [apply record_set_rel; auto | apply os_path_exists_rel
          | apply read_text_rel].
Qed.

(** After the first statement under [if _trace_enabled] the record
    exists and has no result. *)
Lemma new_record_rel :
  preserves (pair_rel (frel t r) (steps ks))
    (local (set_trace_record (Some empty_record))).
Proof.
  rule local_. intros fr. split; [|split].
  - intros r0 _. cbn. eauto.
  - intros _. repeat split.
  - intros _ r0 _ _. cbn. eauto.
Qed.

Lemma trace_fill_rel markup context stylesheet :
  preserves (pair_rel (frel t r) (steps ks))
    (trace_fill E markup context stylesheet).
Proof.
  unfold trace_fill. pres;
    first [apply record_set_rel; reflexivity
          | apply os_path_exists_rel | apply read_text_rel
          | apply trace_data_rel; reflexivity].
Qed.

Lemma trace_inputs_rel markup context stylesheet :
  preserves (pair_rel (frel t r) (steps ks))
    (trace_inputs E markup context stylesheet).
Proof.
  unfold trace_inputs. pres;
    first [apply new_record_rel | apply trace_fill_rel].
Qed.

End Locals.

Section Slots.
Variable ks : list kind.
Variable E : collaborators.
Variable r : bool.

Lemma set_slot_rel (set_slot : option path -> frame -> frame) v :
  (forall fr, trace_record (set_slot v fr) = trace_record fr) ->
  preserves (pair_rel (frel false r) (steps ks)) (local (set_slot v)).
Proof.
  intros Hs. rule local_. intros fr. split; [|split].
  - intros r0 H. rewrite Hs. eauto.
  - discriminate.
  - intros _ r0 H Hn. rewrite Hs. eauto.
Qed.

Lemma resolve_markup_rel markup :
  In KWarn ks -> In KTempCreate ks ->
  preserves (pair_rel (frel false r) (steps ks)) (resolve_markup markup).
Proof.
  intros H1 H2. unfold resolve_markup. pres;
    first [apply os_path_exists_rel | apply write_file_steps; assumption
          | apply set_slot_rel; reflexivity].
Qed.

Lemma data_args_rel flag data set_slot :
  In KTempCreate ks ->
  (forall v fr, trace_record (set_slot v fr) = trace_record fr) ->
  preserves (pair_rel (frel false r) (steps ks))
    (data_args E flag data set_slot).
Proof.
  intros H1 Hs. unfold data_args. pres;
    first [apply os_path_exists_rel | apply write_file_steps; assumption
          | apply set_slot_rel; auto].
Qed.

End Slots.

Lemma attach_result_rel ks t result :
  In KAttach ks ->
  preserves (pair_rel (frel t false) (steps ks)) (attach_result result).
Proof.
  intros H. unfold attach_result. pres.
  unfold record_set. rule local_. intros fr. split; [|split].
  - intros r0 H0. cbn. rewrite H0. cbn. eauto.
  - intros _. repeat split.
  - discriminate.
Qed.

Lemma deliver_rel ks E t markup chat specified output_file format :
  In KReadOutput ks -> In KBackend ks -> In KAttach ks ->
  preserves (pair_rel (frel t false) (steps ks))
    (deliver E markup chat specified output_file format).
Proof.
  intros H1 H2 H3. unfold deliver. pres.
  - now apply read_output_steps.
  - now apply forward_all_steps.
  - now apply attach_result_rel.
Qed.


End Stages.

(** ** The trace log of one call *)

Module Log.
Import Rules Stages.

Lemma before_attach_all : incl before_attach all_kinds.
Proof. intros k. cbn. tauto. Qed.

Lemma frel_forget t fr fr' : frel t true fr fr' -> frel t false fr fr'.
Proof.
  intros (K & T & _).
  split; [exact K|split; [exact T|intros H; discriminate H]].
Qed.

Lemma prefix_raised x y : log_prefix x y -> raised x y.
Proof.
  intros [F G]. split; [exact F|]. exact (steps_mono before_attach_all G).
Qed.

Lemma raised_trans x y z : raised x y -> raised y z -> raised x z.
Proof. unfold raised. intros. etransitivity; eauto. Qed.

Lemma prefix_attached v x y z :
  log_prefix x y -> attached v y z -> attached v x z.
Proof.
  intros [(K & _ & _) [G (e0 & E0 & F0)]] Hat r Hr.
  destruct (K _ Hr) as [r1 Hr1].
  destruct (Hat _ Hr1) as (r' & pre & post & Hr' & Hv & Ev & Fpre & Fpost & Hb).
  exists r', (e0 ++ pre)%list, post. repeat split; auto.
  - now rewrite Ev, E0, <- !app_assoc.
  - apply Forall_app. now split.
  - intros Hw. apply in_or_app. right. apply Hb.
    unfold globals_of in G. congruence.
  - intros Hw. apply in_or_app. right. apply Hb.
    unfold globals_of in G. congruence.
  - intros Hw. apply in_or_app. right. apply Hb.
    unfold globals_of in G. congruence.
Qed.

Lemma prefix_returned format v x y z :
  log_prefix x y -> returned format v y z -> returned format v x z.
Proof.
  intros Hp [Hr Hd]. split.
  - destruct Hp as [F G], Hr as [F' G']. split.
    + etransitivity; [exact (frel_forget F)|exact F'].
    + etransitivity; [exact (steps_mono before_attach_all G)|exact G'].
  - intros Hf. destruct (Hd Hf) as [Ha Hj]. split; [|exact Hj].
    eapply prefix_attached; eauto.
Qed.

(** The rule for a statement of the prefix followed by the rest. *)
Lemma bind_prefix {A} format (m : L A) (k : A -> L py_result) :
  preserves log_prefix m ->
  (forall a, (exists x, fst (m x) = Ok a) ->
             spec (fun _ => raised) (returned format) (k a)) ->
  spec (fun _ => raised) (returned format) (bind m k).
Proof.
  intros Hm Hk. apply spec_bind with (R0 := log_prefix); auto.
  - intros _ x y. apply prefix_raised.
  - intros _ x y z H1 H2. eapply raised_trans; [|exact H2].
    now apply prefix_raised.
  - intros v x y z. apply prefix_returned.
Qed.

Lemma convert_dict E chat text fl :
  convert E chat "dict" text = Ok fl -> exists j, fl = Continue (RJson j).
Proof.
  unfold convert. cbn [String.eqb Ascii.eqb Bool.eqb negb].
  destruct (json_loads E text) as [j|e]; [|discriminate].
  intros H. injection H as <-. eauto.
Qed.

(** A guarded backend block that returns has logged its entry. *)
Lemma forward_if_called flag E backend label tm markup result s :
  exists evs,
    events (snd (forward_if flag E backend label tm markup result s))
    = (events s ++ evs)%list
    /\ globals_of (snd (forward_if flag E backend label tm markup result s))
       = globals_of s
    /\ Forall (fun e => In (kind_of e) before_attach) evs
    /\ (flag s = true -> In (EvBackend backend) evs).
Proof.
  unfold forward_if, bind, gets. cbn [fst snd].
  destruct (flag s) eqn:Hf.
  - unfold emit, modify. cbn [fst snd].
    match goal with
    | |- context [forward E backend label tm markup result ?s1] =>
        destruct (@forward_steps before_attach E backend label tm markup
                    result s1) as [G (evs & Ev & F)]
    end.
    exists (EvBackend backend :: evs). repeat split.
    + rewrite Ev. cbn. now rewrite <- app_assoc.
    + exact G.
    + constructor; [cbn; tauto|exact F].
    + intros _. now left.
  - exists []. cbn. rewrite app_nil_r. repeat split; [constructor|discriminate].
Qed.

Lemma forward_if_run flag E backend label tm markup result s o s' :
  forward_if flag E backend label tm markup result s = (o, s') ->
  exists evs,
    events s' = (events s ++ evs)%list /\ globals_of s' = globals_of s
    /\ Forall (fun e => In (kind_of e) before_attach) evs
    /\ (flag s = true -> In (EvBackend backend) evs).
Proof.
  intros H.
  destruct (forward_if_called flag E backend label tm markup result s)
    as (evs & H1 & H2 & H3 & H4).
  rewrite H in H1, H2. cbn in H1, H2. eauto.
Qed.

(** The three backend blocks: when they all return, every enabled
    backend has its entry. *)
Lemma forward_all_run E markup result s o s' :
  forward_all E markup result s = (o, s') ->
  exists evs,
    events s' = (events s ++ evs)%list /\ globals_of s' = globals_of s
    /\ Forall (fun e => In (kind_of e) before_attach) evs
    /\ (o = Ok tt -> backends_called s evs).
Proof.
  unfold forward_all, bind.
  destruct (forward_if _weave_enabled E "weave" "Weave" true markup result s)
    as [[u1|e1] s1] eqn:H1.
  - apply forward_if_run in H1. destruct H1 as (v1 & E1 & G1 & F1 & C1).
    destruct (forward_if _agentops_enabled E "agentops" "AgentOps" false
                markup result s1) as [[u2|e2] s2] eqn:H2.
    + apply forward_if_run in H2. destruct H2 as (v2 & E2 & G2 & F2 & C2).
      intros H3. apply forward_if_run in H3.
      destruct H3 as (v3 & E3 & G3 & F3 & C3).
      exists (v1 ++ v2 ++ v3)%list.
      split; [|split; [|split; [|intros _; repeat split]]].
      * now rewrite E3, E2, E1, <- !app_assoc.
      * congruence.
      * repeat (apply Forall_app; split); assumption.
      * intros Hw. apply in_or_app. left. now apply C1.
      * intros Hw. apply in_or_app. right. apply in_or_app. left.
        apply C2. unfold globals_of in G1. congruence.
      * intros Hw. apply in_or_app. right. apply in_or_app. right.
        apply C3. unfold globals_of in G1, G2. congruence.
    + apply forward_if_run in H2. destruct H2 as (v2 & E2 & G2 & F2 & C2).
      intros H. injection H as <- <-.
      exists (v1 ++ v2)%list. split; [|split; [|split; [|discriminate]]].
      * now rewrite E2, E1, <- !app_assoc.
      * congruence.
      * apply Forall_app; split; assumption.
  - apply forward_if_run in H1. destruct H1 as (v1 & E1 & G1 & F1 & C1).
    intros H. injection H as <- <-.
    exists v1. split; [|split; [|split; [|discriminate]]]; auto.
Qed.

(** Lines 390-444 for a result that fell through. *)
Lemma deliver_tail_spec E markup format result :
  (format = "dict" -> exists j, result = RJson j) ->
  spec (fun _ => raised) (returned format)
    (glob (forward_all E markup result) ;;
     attach_result result ;; ret result).
Proof.
  intros Hj. apply spec_run. intros [fr s] o y Hrun.
  unfold bind at 1 in Hrun. unfold glob in Hrun. cbn [fst snd] in Hrun.
  destruct (forward_all E markup result s) as [[[]|e] s1] eqn:Hf;
    apply forward_all_run in Hf; destruct Hf as (evs & Ev & G & F & C).
  - specialize (C eq_refl).
    cbv [bind attach_result gets record_set local modify glob emit ret
           fst snd] in Hrun.
    destruct (trace_record fr) as [r0|] eqn:Hr; injection Hrun as <- <-.
    + split; [split|].
      * cbn [fst]. split; [|split]; try discriminate.
        intros r1 _. cbn. rewrite Hr. cbn. eauto.
      * cbn [snd]. split; [exact G|]. exists (evs ++ [EvAttachResult])%list.
        split; [cbn; now rewrite Ev, <- app_assoc|].
        apply Forall_app. split.
        -- eapply Forall_impl; [|exact F]. intros ev. apply before_attach_all.
        -- constructor; [cbn; tauto|constructor].
      * intros Hd. split; [|auto]. intros r1 Hr1. cbn [fst snd] in *.
        exists (set_result result r0), evs, []. rewrite Hr. cbn.
        repeat split; auto; try apply C.
        now rewrite Ev, <- app_assoc.
    + split; [split|].
      * cbn [fst]. reflexivity.
      * cbn [snd]. split; [exact G|]. exists evs. split; [exact Ev|].
        eapply Forall_impl; [|exact F]. intros ev. apply before_attach_all.
      * intros Hd. split; [|auto]. intros r1 Hr1. cbn [fst] in Hr1.
        congruence.
  - injection Hrun as <- <-. split.
    + cbn [fst]. reflexivity.
    + cbn [snd]. split; [exact G|]. exists evs. split; [exact Ev|].
      eapply Forall_impl; [|exact F]. intros ev. apply before_attach_all.
Qed.

Lemma raised_refl x : raised x x.
Proof. unfold raised. reflexivity. Qed.

Lemma deliver_spec E markup chat specified output_file format :
  spec (fun _ => raised) (returned format)
    (deliver E markup chat specified output_file format).
Proof.
  unfold deliver. apply bind_prefix.
  { pres. apply read_output_steps. cbn. tauto. }
  intros text _. apply bind_prefix; [pres|].
  intros fl [x Hfl]. cbn in Hfl. destruct fl as [v|result].
  - apply spec_ret. intros y. split; [reflexivity|].
    intros ->. apply convert_dict in Hfl. destruct Hfl as [j Hj].
    discriminate Hj.
  - apply deliver_tail_spec. intros ->. apply convert_dict in Hfl.
    destruct Hfl as [j Hj]. injection Hj as ->. eauto.
Qed.

Lemma invoke_spec E markup chat specified output_file format extra_args
      context_args stylesheet_args :
  spec (fun _ => raised) (returned format)
    (invoke E markup chat specified output_file format extra_args
       context_args stylesheet_args).
Proof.
  unfold invoke. apply bind_prefix; [pres|]. intros trace_args _.
  apply bind_prefix.
  { pres. apply run_renderer_steps. cbn. tauto. }
  intros returncode _. destruct (negb (returncode =? 0)%Z).
  - apply spec_raise. intros x. apply raised_refl.
  - apply deliver_spec.
Qed.

Lemma render_spec E markup context stylesheet chat output_file format
      extra_args temp_output_file :
  spec (fun _ => raised) (returned format)
    (render E markup context stylesheet chat output_file format extra_args
       temp_output_file).
Proof.
  unfold render. apply bind_prefix.
  { apply data_args_rel; [cbn; tauto|reflexivity]. }
  intros context_args _. apply bind_prefix.
  { apply data_args_rel; [cbn; tauto|reflexivity]. }
  intros stylesheet_args _. apply invoke_spec.
Qed.

Lemma close_temp_closes f y :
  fst (glob (close_temp f) y) = Ok tt /\ closes y (snd (glob (close_temp f) y)).
Proof.
  destruct y as [fr s]. cbv [glob close_temp bind modify emit fst snd].
  split; [reflexivity|]. split; [reflexivity|]. split; [reflexivity|].
  exists [EvTempDelete f]. cbn. split; [reflexivity|]. now constructor.
Qed.

Lemma closes_steps y z : closes y z -> steps all_kinds (snd y) (snd z).
Proof.
  intros (_ & G & dels & Ev & F). split; [exact G|]. exists dels.
  split; [exact Ev|]. eapply Forall_impl; [|exact F].
  intros e ->. cbn. tauto.
Qed.

Lemma raised_closes x y z : raised x y -> closes y z -> raised x z.
Proof.
  intros [F G] Hc. pose proof (closes_steps Hc) as Hs.
  destruct Hc as (Hf & _). split.
  - rewrite Hf. exact F.
  - etransitivity; eauto.
Qed.

Lemma returned_closes format v x y z :
  returned format v x y -> closes y z -> returned format v x z.
Proof.
  intros [[F G] Hd] Hc. pose proof (closes_steps Hc) as Hs.
  destruct Hc as (Hf & _ & dels & Ev & Fd). split; [split|].
  - rewrite Hf. exact F.
  - etransitivity; eauto.
  - intros Hfmt. destruct (Hd Hfmt) as [Ha Hj]. split; [|exact Hj].
    intros r Hr.
    destruct (Ha r Hr) as (r' & pre & post & Hr' & Hv & Hev & Fpre & Fpost & Hb).
    exists r', pre, (post ++ dels)%list. rewrite Hf. repeat split; auto;
      try apply Hb.
    + rewrite Ev, Hev, <- !app_assoc. reflexivity.
    + apply Forall_app. now split.
Qed.

Lemma poml_main_spec E markup context stylesheet chat output_file format
      extra_args :
  spec (fun _ => raised) (returned format)
    (poml_main E markup context stylesheet chat output_file format
       extra_args).
Proof.
  unfold poml_main. apply bind_prefix.
  { apply resolve_markup_rel; cbn; tauto. }
  intros markup' _. unfold with_NamedTemporaryFile. apply bind_prefix.
  { pres. apply NamedTemporaryFile_steps. cbn. tauto. }
  intros f _. apply spec_try_finally with (Rc := closes).
  - apply render_spec.
  - apply close_temp_closes.
  - intros _ x y z. apply raised_closes.
  - intros v x y z. apply returned_closes.
Qed.

(** Lines 283-306 with tracing enabled leave a record without result and
    log nothing. *)
Lemma trace_inputs_run E markup context stylesheet fr s o fr' s' :
  _trace_enabled s = true ->
  trace_inputs E markup context stylesheet (fr, s) = (o, (fr', s')) ->
  (exists r, trace_record fr' = Some r /\ rec_result r = None)
  /\ steps [] s s' /\ same_temps fr fr'.
Proof.
  intros He. cbv [trace_inputs bind glob gets local modify fst snd].
  rewrite He.
  pose proof (@trace_fill_rel [] E true true markup context stylesheet
                (set_trace_record (Some empty_record) fr, s)) as Hp.
  destruct (trace_fill E markup context stylesheet
              (set_trace_record (Some empty_record) fr, s))
    as [[u|e] [fr1 s1]]; intros H; injection H as <- <- <-;
    destruct Hp as [(K & T & N) G]; cbn [fst snd] in *;
    (split; [exact (N eq_refl _ eq_refl eq_refl)|split; [exact G|]]);
    destruct (T eq_refl) as (T1 & T2 & T3); repeat split; assumption.
Qed.

(** Lines 445-453: the [finally] block returns, deletes the temporary
    files the locals hold and appends the record, when there is one. *)
Lemma poml_finally_run fr s :
  exists s',
    poml_finally (fr, s) = (Ok tt, (fr, s'))
    /\ _trace_log s' = (_trace_log s ++ olist (trace_record fr))%list
    /\ _trace_enabled s' = _trace_enabled s
    /\ _weave_enabled s' = _weave_enabled s
    /\ _agentops_enabled s' = _agentops_enabled s
    /\ _mlflow_enabled s' = _mlflow_enabled s
    /\ _trace_dir s' = _trace_dir s
    /\ events s' = (events s ++ map EvTempDelete (temps_of fr))%list.
Proof.
  destruct fr as [[i|] [c|] [st|] [r|]];
    cbv [poml_finally bind gets glob close_if_set close_temp modify emit ret
           fst snd temp_input_file temp_context_file temp_stylesheet_file
           trace_record];
    eexists; (split; [reflexivity|]); cbn;
    rewrite <- ?app_assoc, ?app_nil_r; repeat split.
Qed.

(** The log and the effects of one call of [poml] made with tracing
    enabled. *)
Lemma poml_log E markup context stylesheet chat output_file format
      extra_args s o s' :
  _trace_enabled s = true ->
  poml E markup context stylesheet chat output_file format extra_args s
  = (o, s') ->
  exists r evs,
    _trace_log s' = (_trace_log s ++ [r])%list
    /\ events s' = (events s ++ evs)%list
    /\ match o with
       | Raise _ => rec_result r = None
       | Ok v =>
           format = "dict" ->
           rec_result r = Some v /\ (exists j, v = RJson j)
           /\ exists pre post,
                evs = (pre ++ EvAttachResult :: post)%list
                /\ Forall (fun e => In (kind_of e) before_attach) pre
                /\ Forall (fun e => kind_of e = KTempDelete) post
                /\ backends_called s pre
       end.
Proof.
  intros He. unfold poml, try_finally.
  destruct (poml_try E markup context stylesheet chat output_file format
              extra_args (init_frame, s)) as [o1 [fr1 s1]] eqn:Htry.
  destruct (poml_finally_run fr1 s1)
    as (s2 & Hfin & Hlog & _ & _ & _ & _ & _ & Hev).
  rewrite Hfin. intros H. injection H as <- <-.
  unfold poml_try, bind in Htry.
  destruct (trace_inputs E markup context stylesheet (init_frame, s))
    as [[u|e] [fr0 s0]] eqn:Hti;
    destruct (@trace_inputs_run _ _ _ _ _ _ _ _ _ He Hti)
      as ((r0 & Hr0 & Hn0) & [G0 (e0 & Ev0 & F0)] & _);
    (assert (e0 = []) by (destruct F0 as [|x l Hx _]; [reflexivity|destruct Hx]));
    subst e0; rewrite app_nil_r in Ev0.
  - pose proof (poml_main_spec E markup context stylesheet chat output_file
                  format extra_args (fr0, s0)) as Hspec.
    rewrite Htry in Hspec. cbn [fst snd] in Hspec.
    destruct o1 as [v|e].
    + destruct Hspec as [[(K & _ & _) [G (evs & Ev & F)]] Hd].
      cbn [fst snd] in *. destruct (K _ Hr0) as [r1 Hr1].
      exists r1, (evs ++ map EvTempDelete (temps_of fr1))%list.
      split; [|split].
      * rewrite Hlog, Hr1. unfold globals_of in G, G0. cbn. congruence.
      * rewrite Hev, Ev, Ev0, <- app_assoc. reflexivity.
      * intros Hfmt. destruct (Hd Hfmt) as [Ha Hj].
        destruct (Ha _ Hr0)
          as (r' & pre & post & Hr' & Hv & Hev' & Fpre & Fpost & Hb).
        cbn [fst snd] in *. rewrite Hr1 in Hr'. injection Hr' as <-.
        split; [exact Hv|split; [exact Hj|]].
        exists pre, (post ++ map EvTempDelete (temps_of fr1))%list.
        split; [|split; [exact Fpre|split]].
        -- rewrite Ev in Hev'. apply app_inv_head in Hev'. rewrite Hev'.
           now rewrite <- app_assoc.
        -- apply Forall_app. split; [exact Fpost|].
           apply Forall_forall. intros ev Hin. apply in_map_iff in Hin.
           destruct Hin as (p & <- & _). reflexivity.
        -- unfold globals_of in G0.
           destruct Hb as (B1 & B2 & B3).
           repeat split; intros Hw; [apply B1|apply B2|apply B3]; congruence.
    + destruct Hspec as [(_ & _ & N) [G (evs & Ev & F)]].
      cbn [fst snd] in *. destruct (N eq_refl _ Hr0 Hn0) as (r1 & Hr1 & Hn1).
      exists r1, (evs ++ map EvTempDelete (temps_of fr1))%list.
      split; [|split].
      * rewrite Hlog, Hr1. unfold globals_of in G, G0. cbn. congruence.
      * rewrite Hev, Ev, Ev0, <- app_assoc. reflexivity.
      * exact Hn1.
  - injection Htry as <- <- <-.
    exists r0, (map EvTempDelete (temps_of fr0)).
    split; [|split].
    + rewrite Hlog, Hr0. unfold globals_of in G0. cbn. congruence.
    + rewrite Hev, Ev0. reflexivity.
    + exact Hn0.
Qed.

End Log.

(** C1, as stated, fails: the renderer exits with 0 and its output parses,
    tracing and weave are enabled, and the weave block raises.  The block
    ran before anything was attached, and the record appended to the log
    has no result. *)
Lemma poml_backend_failure_leaves_no_result :
  let res := poml (Example.world 0) (MarkupStr "<p>hi</p>") None None true
               None "dict" None Example.weave_without_directory in
  _trace_enabled Example.weave_without_directory = true
  /\ fst res
     = Raise (RuntimeError "Weave tracing requires local tracing to be enabled.")
  /\ events (snd res)
     = [EvTempCreate "/tmp/tmp0"; EvTempCreate "/tmp/tmp1";
        EvRun ["-f"; "/tmp/tmp0"; "-o"; "/tmp/tmp1"; "--chat"; "true"] 0;
        EvReadOutput "/tmp/tmp1"; EvBackend "weave";
        EvTempDelete "/tmp/tmp1"; EvTempDelete "/tmp/tmp0"]
  /\ map rec_result (_trace_log (snd res)) = [None].
Proof. vm_compute. repeat split. Qed.

(** C1, amended.  A call of [poml] with the format [dict], made with
    tracing enabled, appends one record to the log.  When the call returns,
    the record holds the value returned, a parsed JSON value; the result
    was attached after every backend block, each enabled backend having
    been entered before, and only deletions of temporary files follow.
    When the call raises, as when a backend block raises, the record
    appended has no result. *)
Theorem poml_attaches_result_after_forwarding :
  forall (E : collaborators) (markup : markup_arg)
         (context stylesheet : option data_arg) (chat : bool)
         (output_file : option string) (extra_args : option (list string))
         (s : state),
    _trace_enabled s = true ->
    exists r evs,
      _trace_log (snd (poml E markup context stylesheet chat output_file
                         "dict" extra_args s))
      = (_trace_log s ++ [r])%list
      /\ events (snd (poml E markup context stylesheet chat output_file
                        "dict" extra_args s))
         = (events s ++ evs)%list
      /\ match fst (poml E markup context stylesheet chat output_file
                      "dict" extra_args s) with
         | Ok v =>
             rec_result r = Some v /\ (exists j, v = RJson j)
             /\ exists pre post,
                  evs = (pre ++ EvAttachResult :: post)%list
                  /\ Forall (fun e => kind_of e <> KAttach) pre
                  /\ Forall (fun e => kind_of e = KTempDelete) post
                  /\ backends_called s pre
         | Raise _ => rec_result r = None
         end.
Proof.
  intros E markup context stylesheet chat output_file extra_args s He.
  destruct (poml E markup context stylesheet chat output_file "dict"
              extra_args s) as [o s'] eqn:Hrun.
  destruct (@Log.poml_log _ _ _ _ _ _ _ _ _ _ _ He Hrun) as (r & evs & Hl & Hev & Ho).
  exists r, evs. cbn [fst snd]. split; [exact Hl|split; [exact Hev|]].
  destruct o as [v|e]; [|exact Ho].
  destruct (Ho eq_refl) as (Hv & Hj & pre & post & He' & Fpre & Fpost & Hb).
  split; [exact Hv|split; [exact Hj|]]. exists pre, post.
  split; [exact He'|split; [|split; [exact Fpost|exact Hb]]].
  eapply Forall_impl; [|exact Fpre]. intros ev Hin Hk. cbn beta in Hin.
  rewrite Hk in Hin.
  cbn in Hin. intuition discriminate.
Qed.

Lemma poml_attaches_result_after_forwarding_witness :
  let s := Example.local_tracing in
  let res := poml (Example.world 0) (MarkupStr "<p>hi</p>") None None true
               None "dict" None s in
  exists r evs,
    _trace_log (snd res) = (_trace_log s ++ [r])%list
    /\ events (snd res) = (events s ++ evs)%list
    /\ match fst res with
       | Ok v =>
           rec_result r = Some v /\ (exists j, v = RJson j)
           /\ exists pre post,
                evs = (pre ++ EvAttachResult :: post)%list
                /\ Forall (fun e => kind_of e <> KAttach) pre
                /\ Forall (fun e => kind_of e = KTempDelete) post
                /\ backends_called s pre
       | Raise _ => rec_result r = None
       end.
Proof.
  intros s res.
  apply (@poml_attaches_result_after_forwarding (Example.world 0)
           (MarkupStr "<p>hi</p>") None None true None None s).
  reflexivity.
Defined.

(** C9.  A call of [poml] made with tracing enabled appends exactly one
    record to the log, whatever the way the call ends; when the call
    raises (markup not found, a renderer that exits with a non-zero code,
    output that does not parse or validate, a backend that fails), the
    record appended has no result. *)
Theorem poml_appends_record_on_every_exit :
  forall (E : collaborators) (markup : markup_arg)
         (context stylesheet : option data_arg) (chat : bool)
         (output_file : option string) (format : string)
         (extra_args : option (list string)) (s : state),
    _trace_enabled s = true ->
    exists r,
      _trace_log (snd (poml E markup context stylesheet chat output_file
                         format extra_args s))
      = (_trace_log s ++ [r])%list
      /\ forall e,
           fst (poml E markup context stylesheet chat output_file format
                  extra_args s) = Raise e ->
           rec_result r = None.
Proof.
  intros E markup context stylesheet chat output_file format extra_args s He.
  destruct (poml E markup context stylesheet chat output_file format
              extra_args s) as [o s'] eqn:Hrun.
  destruct (@Log.poml_log _ _ _ _ _ _ _ _ _ _ _ He Hrun)
    as (r & evs & Hl & _ & Ho).
  exists r. cbn [fst snd]. split; [exact Hl|].
  intros e ->. exact Ho.
Qed.

Lemma poml_appends_record_on_every_exit_witness :
  let s := Example.local_tracing in
  let res := poml (Example.world 2) (MarkupPath "/missing.poml") None None
               true None "openai_chat" None s in
  exists r,
    _trace_log (snd res) = (_trace_log s ++ [r])%list
    /\ forall e, fst res = Raise e -> rec_result r = None.
Proof.
  intros s res.
  apply (@poml_appends_record_on_every_exit (Example.world 2)
           (MarkupPath "/missing.poml") None None true None "openai_chat"
           None s).
  reflexivity.
Defined.

(** ** The renderer's exit status *)

Module Exit.
Import Rules Stages.








(** Lines 362-444 start no renderer. *)
Lemma deliver_after_run E markup chat specified output_file format :
  preserves (pair_rel (frel true false) (steps after_run))
    (deliver E markup chat specified output_file format).
Proof. apply deliver_rel; cbn; tauto. Qed.








Lemma new_events_app s s' evs :
  events s' = (events s ++ evs)%list -> new_events s s' = evs.
Proof.
  intros H. unfold new_events. rewrite H.
  rewrite skipn_app, skipn_all, Nat.sub_diag. reflexivity.
Qed.

End Exit.



(** ** Temporary files *)

Module Temps.
Import Rules Stages.

Lemma opened_app p a b : opened p (a ++ b) = opened p a + opened p b.
Proof.
  induction a as [|e a IH]; cbn; [reflexivity|].
  destruct e; cbn; rewrite IH; lia.
Qed.

Lemma closed_app p a b : closed p (a ++ b) = closed p a + closed p b.
Proof.
  induction a as [|e a IH]; cbn; [reflexivity|].
  destruct e; cbn; rewrite IH; lia.
Qed.



#[export] Instance balanced_preorder : PreOrder balanced.
Proof.
  split.
  - intros x. exists []. split; [now rewrite app_nil_r|].
    split; [reflexivity|constructor].
  - intros x y z (e1 & E1 & B1 & N1) (e2 & E2 & B2 & N2).
    exists (e1 ++ e2)%list.
    split; [now rewrite E2, E1, app_assoc|]. split.
    + intros p. rewrite opened_app, closed_app.
      specialize (B1 p). specialize (B2 p). lia.
    + apply Forall_app. now split.
Qed.


















End Temps.

(** ** The files of one call *)

Module Cleanup.
Import Rules Stages.











(** *** The blocks of the [try] body, one run at a time *)


(** *** What holds of any relation between states that the primitive
    operations on files respect *)

#[export] Instance any_frame_preorder : PreOrder any_frame.
Proof. split; [intros x|intros x y z _ _]; exact I. Qed.

#[export] Instance same_files_preorder : PreOrder same_files.
Proof.
  split; [intros s; reflexivity|].
  intros a b c H1 H2. unfold same_files in *. congruence.
Qed.

#[export] Instance still_there_preorder q : PreOrder (still_there q).
Proof.
  split; [intros s H; exact H|].
  intros a b c H1 H2 H. apply H2, H1, H.
Qed.

Section Files.
Variable Rg : state -> state -> Prop.
Context {HRg : PreOrder Rg}.
Variable E : collaborators.
Hypothesis Hemit : forall e, preserves Rg (emit e).
Hypothesis Hcreate : preserves Rg NamedTemporaryFile.
Hypothesis Hwrite :
  forall p text,
    preserves Rg (modify (fun s => with_fs (FS.write (fs s) p text) s)).
Hypothesis Hrun : forall args, preserves Rg (run_renderer E args).









End Files.

(** *** Instances: files that stay, files that do not change *)











(** *** The effects of the [try] body *)





(** *** One call of [poml] *)




(** *** A path the renderer does not remove *)






End Cleanup.



(** The four temporary files of a call with inline markup and with a
    context and a stylesheet given as dicts are created and deleted; the
    output file the caller named is written by the renderer and is still
    there after the call. *)
Example poml_keeps_the_callers_output :
  let res := poml (Example.world 0) (MarkupStr "<p>hi</p>")
               (Some (DataDict [("name", JStr "x")])) (Some (DataDict []))
               true (Some "/out.json") "dict" None Example.fresh in
  fst res = Ok (RJson (JArr []))
  /\ events (snd res)
     = [EvTempCreate "/tmp/tmp0"; EvTempCreate "/tmp/tmp1";
        EvTempCreate "/tmp/tmp2"; EvTempCreate "/tmp/tmp3";
        EvRun ["-f"; "/tmp/tmp0"; "-o"; "/out.json";
               "--context-file"; "/tmp/tmp2";
               "--stylesheet-file"; "/tmp/tmp3"; "--chat"; "true"] 0;
        EvReadOutput "/out.json";
        EvTempDelete "/tmp/tmp1"; EvTempDelete "/tmp/tmp0";
        EvTempDelete "/tmp/tmp2"; EvTempDelete "/tmp/tmp3"]
  /\ fs (snd res) = [("/out.json", File "[]")].
Proof. vm_compute. repeat split. Qed.

(** * Further properties of the code *)

(** ** The tracing state manager, on every argument *)

Module Configure.

Lemma activates_truthy enabled :
  activates enabled = list_truthy (enabled_list enabled).
Proof.
  unfold activates. destruct (enabled_list enabled); reflexivity.
Qed.

Lemma dir_not_file f p : FS.is_dir f p = true -> FS.is_file f p = false.
Proof.
  unfold FS.is_dir, FS.is_file. now destruct (FS.lookup f p) as [[t|]|].
Qed.

Lemma dir_exists f p : FS.is_dir f p = true -> FS.exists_ f p = true.
Proof.
  unfold FS.is_dir, FS.exists_. now destruct (FS.lookup f p) as [[t|]|].
Qed.

Lemma fold_add_dir_present l : forall f,
  Forall (fun a => FS.is_dir f a = true) l -> fold_left FS.add_dir l f = f.
Proof.
  induction l as [|a l IH]; intros f H; cbn [fold_left]; [reflexivity|].
  inversion H as [|x y Ha Hl]; subst.
  unfold FS.add_dir at 2. rewrite (dir_exists _ _ Ha). now apply IH.
Qed.

(** Making a directory that [mkdir(parents=True, exist_ok=True)] has just
    made changes nothing. *)
Lemma mkdir_parents_again p f f' :
  FS.mkdir_parents p f = Ok f' -> FS.mkdir_parents p f' = Ok f'.
Proof.
  intros H. apply FSFacts.mkdir_parents_ok in H. destruct H as (Hp & Ha & _).
  unfold FS.mkdir_parents.
  destruct (existsb (FS.is_file f') (FS.ancestors p)) eqn:He.
  - apply existsb_exists in He. destruct He as (a & Hin & Hf).
    rewrite Forall_forall in Ha. apply Ha, dir_not_file in Hin. congruence.
  - rewrite (dir_not_file _ _ Hp). f_equal. apply fold_add_dir_present.
    apply Forall_app. split; [exact Ha|]. constructor; [exact Hp|constructor].
Qed.

(** The runs of [set_trace], by the test of line 72 and the outcome of the
    directory creations. *)
Ltac cases trace_dir s :=
  unfold set_trace, mkdir, bind, ret, raise, gets, modify, lift;
  cbn [fst snd];
  destruct (list_truthy _ || str_in "local" _) eqn:?; cbn;
  [destruct trace_dir as [?base|]; cbn;
   [destruct (FS.mkdir_parents _ (fs s)) as [?f1|?e1] eqn:?; cbn;
    [match goal with
     | |- context [FS.mkdir_parents ?p ?f] =>
         destruct (FS.mkdir_parents p f) as [?f2|?e2] eqn:?; cbn
     end|]
   |destruct (environ_POML_TRACE s) as [?d|] eqn:?; cbn;
    [destruct (Str.truthy _) eqn:?; cbn;
     [destruct (FS.mkdir_parents _ (fs s)) as [?f1|?e1] eqn:?; cbn|]|]]
  |].

End Configure.

(** X1.  Whatever its arguments, and whether it returns or raises,
    [set_trace] leaves local tracing enabled exactly when the selection it
    was given is not empty, be the names in it known backends or not; it
    never touches the trace log. *)
Theorem set_trace_enables_on_any_selection :
  forall (enabled : enabled_arg) (trace_dir : option path) (s : state),
    _trace_enabled (snd (set_trace enabled trace_dir s))
    = list_truthy (enabled_list enabled)
    /\ _trace_log (snd (set_trace enabled trace_dir s)) = _trace_log s.
Proof.
  intros enabled trace_dir s.
  pose proof (Configure.activates_truthy enabled) as Hact. unfold activates in Hact.
  Configure.cases trace_dir s; split; congruence.
Qed.

(** X2.  After any call of [set_trace], returning or raising and from any
    state, a backend flag that is on, or a run directory that is stored,
    comes with local tracing enabled. *)
Theorem set_trace_backends_come_with_local_tracing :
  forall (enabled : enabled_arg) (trace_dir : option path) (s : state),
    let s' := snd (set_trace enabled trace_dir s) in
    (_weave_enabled s' = true \/ _agentops_enabled s' = true
     \/ _mlflow_enabled s' = true \/ _trace_dir s' <> None) ->
    _trace_enabled s' = true.
Proof.
  intros enabled trace_dir s.
  assert (Hempty : list_truthy (enabled_list enabled)
                   || str_in "local" (enabled_list enabled) = false ->
                   enabled_list enabled = []).
  { destruct (enabled_list enabled); [reflexivity|discriminate]. }
  Configure.cases trace_dir s; try (intros _; reflexivity).
  rewrite Hempty by reflexivity. cbn.
  intros [H|[H|[H|H]]]; congruence.
Qed.

Lemma set_trace_backends_come_with_local_tracing_witness :
  _trace_enabled (snd (set_trace (EnList ["mlflow"; "weave"]) None Example.fresh))
  = true.
Proof.
  apply (@set_trace_backends_come_with_local_tracing
           (EnList ["mlflow"; "weave"]) None Example.fresh).
  left. reflexivity.
Defined.

(** X3.  A call of [set_trace] that returns selects the backends afresh:
    each of weave, agentops and mlflow is on exactly when the selection
    names it, whatever was enabled before; the value returned is the run
    directory stored; and with an empty selection nothing is returned and
    the file system is not touched. *)
Theorem set_trace_selects_backends_afresh :
  forall (enabled : enabled_arg) (trace_dir : option path)
         (s s' : state) (r : option path),
    set_trace enabled trace_dir s = (Ok r, s') ->
    flags_set enabled s' /\ r = _trace_dir s'
    /\ (enabled_list enabled = [] -> r = None /\ fs s' = fs s).
Proof.
  intros enabled trace_dir s s' r.
  Configure.cases trace_dir s; intros H; try discriminate H;
    injection H as <- <-; cbn; (split; [repeat split|]);
    (split; [reflexivity|]); intros Hl; rewrite Hl in *;
    try discriminate; now split.
Qed.

Lemma set_trace_selects_backends_afresh_witness :
  let s := snd (set_trace (EnList ["weave"; "agentops"]) None Example.fresh) in
  let s' := snd (set_trace (EnStr "mlflow") (Some "/traces") s) in
  _weave_enabled s = true
  /\ flags_set (EnStr "mlflow") s'
  /\ Some "/traces/20250701120000000000" = _trace_dir s'
  /\ (enabled_list (EnStr "mlflow") = [] ->
      Some "/traces/20250701120000000000" = None /\ fs s' = fs s).
Proof.
  intros s s'. split; [reflexivity|].
  apply (@set_trace_selects_backends_afresh (EnStr "mlflow") (Some "/traces") s).
  reflexivity.
Defined.

(** X4.  A call of [set_trace] that raises, whatever the exception, has by
    then switched local tracing on, while the run directory and the three
    backend flags are those of before the call. *)
Theorem set_trace_failure_keeps_old_backends :
  forall (enabled : enabled_arg) (trace_dir : option path)
         (s s' : state) (e : exn),
    set_trace enabled trace_dir s = (Raise e, s') ->
    _trace_enabled s' = true
    /\ _trace_dir s' = _trace_dir s
    /\ _weave_enabled s' = _weave_enabled s
    /\ _agentops_enabled s' = _agentops_enabled s
    /\ _mlflow_enabled s' = _mlflow_enabled s.
Proof.
  intros enabled trace_dir s s' e.
  Configure.cases trace_dir s; intros H; try discriminate H;
    injection H as <- <-; cbn; repeat split; reflexivity.
Qed.

Lemma set_trace_failure_keeps_old_backends_witness :
  let s := mkState false false true false [] None [("/traces", File "notes")]
             None (mkDatetime 2025 7 1 12 0 0 0) 0 [] in
  let s' := snd (set_trace (EnStr "weave") (Some "/traces") s) in
  _trace_enabled s' = true
  /\ _trace_dir s' = None
  /\ _weave_enabled s' = false
  /\ _agentops_enabled s' = true
  /\ _mlflow_enabled s' = false.
Proof.
  intros s s'.
  apply (@set_trace_failure_keeps_old_backends (EnStr "weave") (Some "/traces")
           s s' (FileExistsError "/traces")).
  reflexivity.
Defined.

(** X5.  Without a [trace_dir] argument [set_trace] can be repeated: a
    second call with the same selection, after one that returned, returns
    the same directory and changes nothing. *)
Theorem set_trace_again_changes_nothing :
  forall (enabled : enabled_arg) (s s' : state) (r : option path),
    set_trace enabled None s = (Ok r, s') ->
    set_trace enabled None s' = (Ok r, s').
Proof.
  intros enabled s s' r.
  unfold set_trace, mkdir, bind, ret, raise, gets, modify, lift; cbn [fst snd].
  destruct (list_truthy _ || str_in "local" _) eqn:Hact; cbn.
  - destruct (environ_POML_TRACE s) as [d|] eqn:Henv; cbn.
    + destruct (Str.truthy d) eqn:Hd; cbn.
      * destruct (FS.mkdir_parents d (fs s)) as [f1|e1] eqn:H1; cbn;
          [|discriminate].
        intros H. injection H as <- <-. cbn. rewrite Henv. cbn. rewrite Hd. cbn.
        rewrite (Configure.mkdir_parents_again _ _ H1). reflexivity.
      * intros H. injection H as <- <-. cbn. rewrite Henv. cbn. rewrite Hd.
        reflexivity.
    + intros H. injection H as <- <-. cbn. rewrite Henv. reflexivity.
  - intros H. injection H as <- <-. reflexivity.
Qed.

Lemma set_trace_again_changes_nothing_witness :
  let s := mkState false false false false [] None [] (Some "/shared/run")
             (mkDatetime 2025 7 1 12 0 0 0) 0 [] in
  let s' := snd (set_trace (EnStr "agentops") None s) in
  set_trace (EnStr "agentops") None s' = (Ok (Some "/shared/run"), s').
Proof.
  intros s s'.
  apply (@set_trace_again_changes_nothing (EnStr "agentops") s).
  reflexivity.
Defined.

(** ** File names, run directories and artifacts *)

Module Names.

Lemma append_nil s : s ++ "" = s.
Proof. induction s as [|c s IH]; cbn; congruence. Qed.

Lemma append_snoc a c b : (a ++ String c "") ++ b = a ++ String c b.
Proof. induction a as [|x a IH]; cbn; congruence. Qed.

Lemma append_assoc a b c : (a ++ b) ++ c = a ++ b ++ c.
Proof. induction a as [|x a IH]; cbn; congruence. Qed.

Lemma uint_digits u : Str.all Str.is_digit (NilZero.string_of_uint u) = true.
Proof.
  assert (H : forall d, Str.all Str.is_digit (NilEmpty.string_of_uint d) = true)
    by (induction d; cbn; auto).
  destruct u; try apply H. reflexivity.
Qed.

Lemma all_impl (p q : ascii -> bool) s :
  (forall c, p c = true -> q c = true) ->
  Str.all p s = true -> Str.all q s = true.
Proof.
  intros Hpq. induction s as [|c s IH]; cbn; [reflexivity|].
  intros H. apply andb_true_iff in H. destruct H as [Hc Hs].
  now rewrite (Hpq _ Hc), IH.
Qed.

Lemma digit_not_separator c :
  Str.is_digit c = true -> negb (Ascii.eqb c "/") = true.
Proof.
  destruct c as [[] [] [] [] [] [] [] []]; intros H;
    try discriminate H; reflexivity.
Qed.

Lemma timestamp_digits t : Str.all Str.is_digit (strftime_YmdHMSf t) = true.
Proof.
  unfold strftime_YmdHMSf, Str.of_nat.
  now rewrite !Timestamp.all_app, !Timestamp.zero_pad_digits, uint_digits.
Qed.

Lemma path_name_from_plain name : forall acc,
  Str.all (fun c => negb (Ascii.eqb c "/")) name = true ->
  path_name_from acc name = acc ++ name.
Proof.
  induction name as [|c name IH]; intros acc; cbn [path_name_from Str.all].
  - intros _. now rewrite append_nil.
  - intros H. apply andb_true_iff in H. destruct H as [Hc Hn].
    destruct (Ascii.eqb c "/"); [discriminate|].
    rewrite IH by exact Hn. apply append_snoc.
Qed.

(** The name of [base / name] is [name], when [name] has no separator. *)
Lemma path_name_join base name :
  Str.all (fun c => negb (Ascii.eqb c "/")) name = true ->
  path_name (FS.join base name) = name.
Proof.
  intros Hn. unfold path_name, FS.join.
  enough (H : forall acc, path_name_from acc (base ++ "/" ++ name) = name)
    by apply H.
  induction base as [|c base IH]; intros acc; cbn [append path_name_from].
  - cbn. now rewrite path_name_from_plain.
  - destruct (Ascii.eqb c "/"); apply IH.
Qed.

Lemma lazy_group_tail rest : forall g g',
  Pattern.lazy_group g rest = Some g' ->
  exists mid tail,
    rest = mid ++ tail /\ g' = g ++ mid /\ Pattern.tail_matches tail = true.
Proof.
  induction rest as [|c rest IH]; intros g g'; cbn [Pattern.lazy_group].
  - destruct (Pattern.tail_matches "") eqn:Ht; [|discriminate].
    intros H. injection H as <-. exists "", "". now rewrite append_nil.
  - destruct (Pattern.tail_matches (String c rest)) eqn:Ht.
    + intros H. injection H as <-. exists "", (String c rest).
      now rewrite append_nil.
    + destruct (Ascii.eqb c Str.newline); [discriminate|].
      intros H. apply IH in H. destruct H as (mid & tail & -> & -> & Hm).
      exists (String c mid), tail. now rewrite append_snoc.
Qed.

(** A name that matches the pattern is its group followed by one of the
    four endings. *)
Lemma match_group1_tail name g :
  Pattern.match_group1 name = Some g ->
  exists tail, name = g ++ tail /\ Pattern.tail_matches tail = true.
Proof.
  unfold Pattern.match_group1.
  destruct name as [|a [|b [|c [|d rest]]]]; try discriminate.
  destruct (Str.is_digit a && Str.is_digit b && Str.is_digit c
            && Str.is_digit d); [|discriminate].
  intros H. apply lazy_group_tail in H.
  destruct H as (mid & tail & -> & -> & Hm). exists tail. now split.
Qed.

Lemma length_grows a c b : a <> a ++ String c b.
Proof.
  intros H. apply (f_equal String.length) in H.
  rewrite Timestamp.length_app in H. cbn in H. lia.
Qed.

(** No text that ends in [.source.poml] after at least one more character
    is one of the four endings. *)
Lemma long_tail c m :
  Pattern.tail_matches (String c (m ++ ".source.poml")) = false.
Proof.
  destruct (Pattern.tail_matches _) eqn:H; [|reflexivity].
  apply Convert.str_in_In in H. cbn in H.
  destruct H as [H|[H|[H|[H|[]]]]];
    pose proof (f_equal String.length H) as Hl; cbn in Hl;
    rewrite Timestamp.length_app in Hl; cbn in Hl; try lia.
  destruct m; [discriminate H|cbn in Hl; lia].
Qed.

Lemma source_link mid : forall acc,
  Pattern.lazy_group acc (mid ++ ".poml") = Some (acc ++ mid) ->
  Pattern.lazy_group acc (mid ++ ".source.poml") = Some (acc ++ mid).
Proof.
  induction mid as [|c mid IH]; intros acc.
  - intros _. cbn. now rewrite append_nil.
  - cbn [append Pattern.lazy_group].
    destruct (Pattern.tail_matches (String c (mid ++ ".poml"))).
    + intros H. injection H as H. now apply length_grows in H.
    + rewrite long_tail. destruct (Ascii.eqb c Str.newline); [discriminate|].
      rewrite <- (append_snoc acc c mid). apply IH.
Qed.

Lemma write_lookup_same f p t : FS.lookup (FS.write f p t) p = Some (File t).
Proof.
  induction f as [|[q n] f IH]; cbn.
  - now rewrite String.eqb_refl.
  - destruct (q =? p) eqn:Hq; cbn; now rewrite Hq.
Qed.

Lemma write_lookup_other f p t q :
  q <> p -> FS.lookup (FS.write f p t) q = FS.lookup f q.
Proof.
  intros Hne. induction f as [|[x n] f IH]; cbn.
  - destruct (String.eqb_spec p q); [congruence|reflexivity].
  - destruct (String.eqb_spec x p) as [->|Hx]; cbn.
    + destruct (String.eqb_spec p q); [congruence|reflexivity].
    + destruct (x =? q); [reflexivity|exact IH].
Qed.

(** Writing a file adds at most its own name to a directory listing, at
    the end. *)
Lemma iterdir_write f p t d :
  FS.iterdir (FS.write f p t) d
  = (FS.iterdir f d
     ++ if FS.exists_ f p then [] else olist (FS.child_name d p))%list.
Proof.
  induction f as [|[q n] f IH]; cbn [FS.write FS.iterdir].
  - cbn. now destruct (FS.child_name d p).
  - unfold FS.exists_. cbn [FS.lookup].
    destruct (q =? p) eqn:Hq; cbn [FS.iterdir].
    + now rewrite app_nil_r.
    + rewrite IH. unfold FS.exists_.
      now destruct (FS.child_name d q).
Qed.

Lemma child_name_join d : forall p name,
  FS.child_name d p = Some name -> p = FS.join d name.
Proof.
  unfold FS.join.
  induction d as [|a d IH]; intros p name; cbn [FS.child_name].
  - destruct p as [|c rest]; [discriminate|].
    destruct (Ascii.eqb_spec c "/") as [->|]; [|discriminate].
    cbn [andb]. destruct (_ && _); [|discriminate].
    intros H. now injection H as <-.
  - destruct p as [|b rest]; [discriminate|].
    destruct (Ascii.eqb_spec a b) as [<-|]; [|discriminate].
    intros H. apply IH in H. cbn. now rewrite H.
Qed.

Lemma endswith_self s : Str.endswith s s = true.
Proof. destruct s; cbn; [reflexivity|]. now rewrite Ascii.eqb_refl, String.eqb_refl. Qed.

Lemma endswith_app a b x :
  Str.endswith b x = true -> Str.endswith (a ++ b) x = true.
Proof.
  intros H. induction a as [|c a IH]; cbn [append]; [exact H|].
  cbn [Str.endswith]. rewrite IH. apply orb_true_r.
Qed.

(** A name that counts as a record ends in [.poml], or in [.poml] and a
    line feed. *)
Lemma record_name_ending name i g :
  entry_index name = Some (i, g) ->
  Str.endswith name ".poml" = true
  \/ Str.endswith name (".poml" ++ String Str.newline "") = true.
Proof.
  unfold entry_index.
  destruct (Pattern.match_group1 name) as [g0|] eqn:Hm; [|discriminate].
  intros _. apply match_group1_tail in Hm. destruct Hm as (tail & -> & Ht).
  apply Convert.str_in_In in Ht. cbn in Ht.
  destruct Ht as [<-|[<-|[<-|[<-|[]]]]].
  - left. apply endswith_app. reflexivity.
  - right. apply endswith_app. reflexivity.
  - left. apply endswith_app. reflexivity.
  - right. apply endswith_app. reflexivity.
Qed.

End Names.

(** X6.  After [set_trace] has enabled tracing with a [trace_dir] argument,
    the current trace version is the timestamp that names the run
    directory, whatever [trace_dir] is. *)
Theorem current_trace_version_is_the_timestamp :
  forall (enabled : enabled_arg) (base : path) (s s' : state) (r : option path),
    activates enabled = true ->
    set_trace enabled (Some base) s = (Ok r, s') ->
    _current_trace_version s' = Some (strftime_YmdHMSf (clock s)).
Proof.
  intros enabled base s s' r Hact H.
  apply SetTrace.with_trace_dir_arg in H; [|exact Hact].
  destruct H as (f1 & _ & _ & _ & Hd & He & _).
  unfold _current_trace_version. rewrite He, Hd. f_equal.
  apply Names.path_name_join.
  apply Names.all_impl with (p := Str.is_digit);
    [apply Names.digit_not_separator|apply Names.timestamp_digits].
Qed.

Lemma current_trace_version_is_the_timestamp_witness :
  _current_trace_version
    (snd (set_trace (EnStr "weave") (Some "/var/log/traces") Example.fresh))
  = Some "20250701120000000000".
Proof.
  apply (@current_trace_version_is_the_timestamp (EnStr "weave")
           "/var/log/traces" Example.fresh
           (snd (set_trace (EnStr "weave") (Some "/var/log/traces") Example.fresh))
           (Some "/var/log/traces/20250701120000000000")).
  - reflexivity.
  - reflexivity.
Defined.

(** X7.  A prefix that [_latest_trace_prefix] returns lies directly inside
    the run directory and comes from an entry of it: the entry's name is
    the prefix part followed by [.poml] or [.source.poml], with or without
    a final line feed, and the prefix part does not end in [.source]. *)
Theorem latest_trace_prefix_names_a_record_file :
  forall (s : state) (p : path),
    _latest_trace_prefix s = Ok (Some p) ->
    exists d g tail,
      _trace_enabled s = true /\ _trace_dir s = Some d
      /\ p = FS.join d g
      /\ In (g ++ tail) (FS.iterdir (fs s) d)
      /\ Pattern.tail_matches tail = true
      /\ Str.endswith g ".source" = false.
Proof.
  intros s p. unfold _latest_trace_prefix.
  destruct (_trace_enabled s); [|discriminate].
  destruct (_trace_dir s) as [d|]; [|discriminate].
  destruct (FS.is_dir (fs s) d);
    [|destruct (FS.exists_ (fs s) d); discriminate].
  destruct (Discovery.scan_fold d (FS.iterdir (fs s) d) (-1)%Z None)
    as [[_ Hres]|(n1 & name & n2 & idx & g & Hn & Hi & _ & Hres & _)];
    rewrite Hres; cbn [snd]; intros H; [discriminate|].
  injection H as <-. unfold entry_index in Hi.
  destruct (Pattern.match_group1 name) as [g0|] eqn:Hm; [|discriminate].
  destruct (Str.endswith g0 ".source") eqn:Hs; [discriminate|].
  destruct (PyInt.int _); [|discriminate]. injection Hi as _ <-.
  apply Names.match_group1_tail in Hm. destruct Hm as (tail & -> & Ht).
  exists d, g0, tail. repeat split; auto.
  rewrite Hn. apply in_or_app. right. now left.
Qed.

Lemma latest_trace_prefix_names_a_record_file_witness :
  let s := mkState true false false false [] (Some "/t")
             [("/t", Dir); ("/t/0007.main.source.poml", File "")]
             None (mkDatetime 2025 7 1 12 0 0 0) 0 [] in
  exists d g tail,
    _trace_enabled s = true /\ _trace_dir s = Some d
    /\ "/t/0007.main" = FS.join d g
    /\ In (g ++ tail) (FS.iterdir (fs s) d)
    /\ Pattern.tail_matches tail = true
    /\ Str.endswith g ".source" = false.
Proof.
  intros s.
  apply (@latest_trace_prefix_names_a_record_file s "/t/0007.main").
  reflexivity.
Defined.

(** X8.  The test that is to skip source link files does not skip them:
    when [g.poml] is a record name with prefix part [g], the pattern gives
    [g.source.poml] the same prefix part, so that the loop of
    [_latest_trace_prefix] treats both names alike. *)
Theorem source_link_files_count_as_records :
  forall (g : string),
    Pattern.match_group1 (g ++ ".poml") = Some g ->
    Pattern.match_group1 (g ++ ".source.poml") = Some g
    /\ entry_index (g ++ ".source.poml") = entry_index (g ++ ".poml")
    /\ forall d latest,
         scan_entry d latest (g ++ ".source.poml")
         = scan_entry d latest (g ++ ".poml").
Proof.
  intros g H.
  assert (Hs : Pattern.match_group1 (g ++ ".source.poml") = Some g).
  { destruct g as [|a [|b [|c [|d mid]]]]; try discriminate H.
    - cbn in H. now destruct (Str.is_digit a).
    - cbn in H. now destruct (Str.is_digit a), (Str.is_digit b).
    - cbn in H.
      now destruct (Str.is_digit a), (Str.is_digit b), (Str.is_digit c).
    - cbn [append Pattern.match_group1] in *.
      destruct (Str.is_digit a && Str.is_digit b && Str.is_digit c
                && Str.is_digit d); [|discriminate].
      now apply (Names.source_link mid
                   (String a (String b (String c (String d ""))))). }
  split; [exact Hs|]. split.
  - unfold entry_index. now rewrite Hs, H.
  - intros d latest. unfold scan_entry. now rewrite Hs, H.
Qed.

Lemma source_link_files_count_as_records_witness :
  Pattern.match_group1 ("0002.main" ++ ".source.poml") = Some "0002.main"
  /\ entry_index ("0002.main" ++ ".source.poml")
     = entry_index ("0002.main" ++ ".poml")
  /\ forall d latest,
       scan_entry d latest ("0002.main" ++ ".source.poml")
       = scan_entry d latest ("0002.main" ++ ".poml").
Proof.
  apply (@source_link_files_count_as_records "0002.main"). reflexivity.
Defined.

(** X9.  Text without a carriage return that [trace_artifact] writes can be
    read back: after a call that returned a path, the file at that path
    holds the contents, the path is the latest prefix followed by the
    suffix (a dot put in front when the suffix has none), and, the written
    name not ending in [.poml], [_read_latest_traced_file] on that suffix
    returns the contents.  (Reading in text mode turns a carriage return
    into a line feed, so other contents do not come back unchanged.) *)
Theorem trace_artifact_is_read_back :
  forall (file_suffix contents : string) (s s' : state) (p : path),
    trace_artifact file_suffix contents s = (Ok (Some p), s') ->
    no_carriage_return contents = true ->
    Str.endswith p ".poml" = false ->
    Str.endswith p (".poml" ++ String Str.newline "") = false ->
    let suffix := if String.prefix "." file_suffix then file_suffix
                  else "." ++ file_suffix in
    (exists pre, _latest_trace_prefix s = Ok (Some pre) /\ p = pre ++ suffix)
    /\ FS.read_text (fs s') p = Ok contents
    /\ _latest_trace_prefix s' = _latest_trace_prefix s
    /\ _read_latest_traced_file suffix s' = (Ok (Some contents), s').
Proof.
  intros file_suffix contents s s' p H _ E1 E2 suffix.
  unfold trace_artifact, bind, gets, modify, ret, raise in H.
  destruct (_latest_trace_prefix s) as [[pre|]|e] eqn:Hpre;
    cbn [fst snd] in H; try discriminate H.
  fold suffix in H.
  destruct (FS.is_dir (fs s) (pre ++ suffix)) eqn:Hisd; [discriminate H|].
  injection H as <- <-.
  assert (Hread : FS.read_text (FS.write (fs s) (pre ++ suffix) contents)
                    (pre ++ suffix) = Ok contents).
  { unfold FS.read_text. now rewrite Names.write_lookup_same. }
  assert (Hsame : _latest_trace_prefix
                    (with_fs (FS.write (fs s) (pre ++ suffix) contents) s)
                  = Ok (Some pre)).
  { rewrite <- Hpre. unfold _latest_trace_prefix in *. cbn.
    destruct (_trace_enabled s); [|reflexivity].
    destruct (_trace_dir s) as [d|]; [|reflexivity].
    destruct (FS.is_dir (fs s) d) eqn:Hd;
      [|destruct (FS.exists_ (fs s) d); discriminate Hpre].
    assert (Hne : d <> pre ++ suffix) by (intros ->; congruence).
    unfold FS.is_dir. rewrite Names.write_lookup_other by exact Hne.
    unfold FS.is_dir in Hd. rewrite Hd. rewrite Names.iterdir_write.
    destruct (FS.exists_ (fs s) (pre ++ suffix)); [now rewrite app_nil_r|].
    destruct (FS.child_name d (pre ++ suffix)) as [name|] eqn:Hc;
      [|now rewrite app_nil_r].
    cbn [olist]. rewrite fold_left_app. cbn [fold_left].
    rewrite Discovery.scan_entry_index.
    destruct (entry_index name) as [[i g]|] eqn:Hi; [|reflexivity].
    apply Names.child_name_join in Hc. unfold FS.join in Hc.
    apply Names.record_name_ending in Hi.
    rewrite Hc in E1, E2.
    destruct Hi as [Hi|Hi];
      apply (Names.endswith_app (d ++ "/")) in Hi;
      rewrite Names.append_assoc in Hi; congruence. }
  split; [exists pre; now split|]. split; [exact Hread|].
  split; [exact Hsame|].
  unfold _read_latest_traced_file, bind, gets, ret. rewrite Hsame.
  cbn [fst snd]. unfold FS.exists_. cbn [fs with_fs].
  rewrite Names.write_lookup_same. cbn [fs with_fs] in Hread |- *.
  now rewrite Hread.
Qed.

Lemma trace_artifact_is_read_back_witness :
  let s := mkState true false false false [] (Some "/t")
             [("/t", Dir); ("/t/0003.ask.poml", File "<p>hi</p>")]
             None (mkDatetime 2025 7 1 12 0 0 0) 0 [] in
  let s' := snd (trace_artifact "reply.txt" "hello" s) in
  (exists pre, _latest_trace_prefix s = Ok (Some pre)
               /\ "/t/0003.ask.reply.txt" = pre ++ ".reply.txt")
  /\ FS.read_text (fs s') "/t/0003.ask.reply.txt" = Ok "hello"
  /\ _latest_trace_prefix s' = _latest_trace_prefix s
  /\ _read_latest_traced_file ".reply.txt" s' = (Ok (Some "hello"), s').
Proof.
  intros s s'.
  apply (@trace_artifact_is_read_back "reply.txt" "hello" s s'
           "/t/0003.ask.reply.txt"); reflexivity.
Defined.

(** ** The converters, in both directions *)

Module Converters.

Lemma known_role sp role :
  assoc sp speaker_to_role = Some role -> str_in sp Speaker = true.
Proof.
  destruct (str_in sp Speaker) eqn:H; [reflexivity|].
  now rewrite (Convert.unknown_speaker _ H).
Qed.

Lemma openai_part_inv p j :
  openai_content_part p = Ok j -> Shape.is_other p = false.
Proof. destruct p; cbn; [reflexivity|reflexivity|discriminate]. Qed.

Lemma langchain_part_inv p j :
  langchain_content_part p = Ok j -> Shape.is_other p = false.
Proof. destruct p; cbn; [reflexivity|reflexivity|discriminate]. Qed.

Lemma parts_inv (f : content_part -> outcome json) parts js :
  (forall p j, f p = Ok j -> Shape.is_other p = false) ->
  map_outcome f parts = Ok js ->
  forallb (fun p => negb (Shape.is_other p)) parts = true.
Proof.
  intros Hf H. apply Convert.map_outcome_inv in H.
  induction H as [|p j l l' Hp _ IH]; cbn; [reflexivity|].
  now rewrite (Hf _ _ Hp), IH.
Qed.

Lemma openai_message_inv m j :
  openai_message m = Ok j -> Shape.legal_message m = true.
Proof.
  unfold openai_message, Shape.legal_message.
  destruct (assoc (speaker m) speaker_to_role) as [role|] eqn:Hr;
    [|discriminate].
  rewrite (known_role _ Hr). cbn [andb].
  destruct (content m) as [t|parts|t]; cbn; [reflexivity| |discriminate].
  destruct (map_outcome openai_content_part parts) as [js|e] eqn:Hp;
    [|discriminate].
  intros _. eapply parts_inv; [apply openai_part_inv|exact Hp].
Qed.

Lemma langchain_part_ok p :
  Shape.is_other p = false ->
  langchain_content_part p = Ok (LangchainShape.part p).
Proof. destruct p; cbn; intros H; [reflexivity|reflexivity|discriminate]. Qed.

Lemma langchain_message_ok m :
  Shape.legal_content (content m) = true ->
  langchain_message m = Ok (LangchainShape.message m).
Proof.
  unfold langchain_message, LangchainShape.message.
  destruct (content m) as [t|parts|t]; cbn; [reflexivity| |discriminate].
  intros H.
  rewrite (@Convert.map_outcome_map _ _ langchain_content_part
             LangchainShape.part parts); [reflexivity|].
  intros p Hp. apply langchain_part_ok.
  rewrite forallb_forall in H. apply H in Hp.
  now destruct (Shape.is_other p).
Qed.

Lemma langchain_message_inv m j :
  langchain_message m = Ok j -> Shape.legal_content (content m) = true.
Proof.
  unfold langchain_message.
  destruct (content m) as [t|parts|t]; cbn; [reflexivity| |discriminate].
  destruct (map_outcome langchain_content_part parts) as [js|e] eqn:Hp;
    [|discriminate].
  intros _. eapply parts_inv; [apply langchain_part_inv|exact Hp].
Qed.

Lemma all_inv {A} (f : A -> outcome json) (ok : A -> bool) l ds :
  (forall a j, f a = Ok j -> ok a = true) ->
  map_outcome f l = Ok ds -> forallb ok l = true.
Proof.
  intros Hf H. apply Convert.map_outcome_inv in H.
  induction H as [|a j l0 l' Ha _ IH]; cbn; [reflexivity|].
  now rewrite (Hf _ _ Ha), IH.
Qed.

Lemma langchain_converts msgs :
  forallb (fun m => Shape.legal_content (content m)) msgs = true ->
  _poml_response_to_langchain msgs = Ok (map LangchainShape.message msgs).
Proof.
  intros H. apply Convert.map_outcome_map. intros m Hm.
  apply langchain_message_ok. rewrite forallb_forall in H. now apply H.
Qed.

Lemma legal_contents msgs :
  forallb Shape.legal_message msgs = true ->
  forallb (fun m => Shape.legal_content (content m)) msgs = true.
Proof.
  rewrite !forallb_forall. intros H m Hm. apply H in Hm.
  unfold Shape.legal_message in Hm. now apply andb_true_iff in Hm.
Qed.

(** Validation gives back a message written in the renderer's JSON. *)
Lemma media_back m : Pydantic.validate_media
                       match Wire.media m with JObj d => d | _ => [] end
                     = Ok m.
Proof. destruct m as [t b [a|]]; reflexivity. Qed.

Lemma part_back p :
  Shape.is_other p = false -> Pydantic.validate_part (Wire.part p) = Ok p.
Proof.
  destruct p as [s|m|x]; cbn [Wire.part Shape.is_other];
    [reflexivity| |discriminate].
  intros _. pose proof (media_back m) as H. unfold Wire.media in *.
  cbn [Pydantic.validate_part]. now rewrite H.
Qed.

Lemma content_back c :
  Shape.legal_content c = true ->
  Pydantic.validate_content (Wire.content_of c) = Ok c.
Proof.
  destruct c as [t|parts|t]; cbn [Wire.content_of Shape.legal_content];
    [reflexivity| |discriminate].
  intros H. cbn [Pydantic.validate_content].
  assert (Hp : map_outcome Pydantic.validate_part (map Wire.part parts)
               = Ok parts).
  { induction parts as [|p parts IH]; cbn [map map_outcome]; [reflexivity|].
    cbn [forallb] in H. apply andb_true_iff in H. destruct H as [H1 H2].
    rewrite part_back by now destruct (Shape.is_other p).
    now rewrite IH. }
  now rewrite Hp.
Qed.

Lemma message_back m :
  Shape.legal_message m = true ->
  Pydantic.construct_kwargs (Wire.message m) = Ok m.
Proof.
  unfold Shape.legal_message. intros H. apply andb_true_iff in H.
  destruct H as [Hs Hc]. destruct m as [sp c]. cbn [speaker content] in *.
  unfold Wire.message. cbn [speaker content Pydantic.construct_kwargs dict_get].
  cbn [String.eqb Ascii.eqb Bool.eqb]. unfold Pydantic.construct.
  cbn [Pydantic.validate_speaker]. rewrite Hs.
  now rewrite (content_back _ Hc).
Qed.

Lemma messages_back msgs :
  forallb Shape.legal_message msgs = true ->
  pydantic_result true (JArr (map Wire.message msgs)) = Ok msgs.
Proof.
  intros H. unfold pydantic_result. cbn [Pydantic.iterate].
  induction msgs as [|m msgs IH]; cbn [map map_outcome]; [reflexivity|].
  cbn [forallb] in H. apply andb_true_iff in H. destruct H as [H1 H2].
  now rewrite (message_back _ H1), IH.
Qed.

End Converters.

(** X10.  [_poml_response_to_openai_chat] returns only on messages of the
    legal shapes: when it returns, every message has a speaker among human,
    assistant and system and content that is text or a list of text and
    multimedia parts, and the dicts returned are one per message, in
    order. *)
Theorem openai_chat_returns_only_on_legal_messages :
  forall (msgs : list PomlMessage) (ds : list json),
    _poml_response_to_openai_chat msgs = Ok ds ->
    forallb Shape.legal_message msgs = true
    /\ ds = map Shape.openai_message msgs
    /\ length ds = length msgs.
Proof.
  intros msgs ds H.
  assert (Hl : forallb Shape.legal_message msgs = true)
    by (eapply Converters.all_inv; [apply Converters.openai_message_inv|exact H]).
  rewrite (Validated.legal_converts _ Hl) in H. injection H as <-.
  split; [exact Hl|]. split; [reflexivity|apply length_map].
Qed.

Lemma openai_chat_returns_only_on_legal_messages_witness :
  let msgs := [mkMessage "system" (ContentStr "Be brief.");
               mkMessage "human"
                 (ContentList [PartStr "What is this?";
                               PartMedia (mkMedia "image/png" "AAAA" None)])] in
  let ds := [JObj [("role", JStr "system"); ("content", JStr "Be brief.")];
             JObj [("role", JStr "user");
                   ("content",
                    JArr [JObj [("type", JStr "text");
                                ("text", JStr "What is this?")];
                          JObj [("type", JStr "image_url");
                                ("image_url",
                                 JObj [("url", JStr "data:image/png;base64,AAAA")])]])]] in
  forallb Shape.legal_message msgs = true
  /\ ds = map Shape.openai_message msgs
  /\ length ds = length msgs.
Proof.
  intros msgs ds.
  apply (@openai_chat_returns_only_on_legal_messages msgs ds). reflexivity.
Defined.

(** X11.  [_poml_response_to_langchain] does not look at the speaker: it
    returns exactly on the lists in which every content is text or a list
    of text and multimedia parts, and then gives one dict per message, in
    order, whose [type] is the speaker string as it is and whose image
    parts carry the base64 data and the mime type. *)
Theorem langchain_keeps_any_speaker :
  forall (msgs : list PomlMessage),
    (forallb (fun m => Shape.legal_content (content m)) msgs = true ->
     _poml_response_to_langchain msgs = Ok (map LangchainShape.message msgs))
    /\ (forall ds, _poml_response_to_langchain msgs = Ok ds ->
          forallb (fun m => Shape.legal_content (content m)) msgs = true
          /\ ds = map LangchainShape.message msgs
          /\ Forall2 (fun m d => dict_get "type"
                                   match d with JObj f => f | _ => [] end
                                 = Some (JStr (speaker m))) msgs ds).
Proof.
  intros msgs. split; [apply Converters.langchain_converts|].
  intros ds H.
  assert (Hl : forallb (fun m => Shape.legal_content (content m)) msgs = true)
    by (eapply Converters.all_inv; [apply Converters.langchain_message_inv|exact H]).
  rewrite (Converters.langchain_converts _ Hl) in H. injection H as <-.
  split; [exact Hl|]. split; [reflexivity|].
  clear Hl. induction msgs as [|m msgs IH]; cbn [map]; constructor; auto.
Qed.

(** X12.  Validation loses nothing of what the renderer wrote: when the
    output file parses to the list of the JSON objects of some messages of
    the legal shapes, the format [pydantic] returns those messages, and the
    formats [openai_chat] and [langchain] the dicts of those messages. *)
Theorem typed_formats_return_the_messages_written :
  forall (E : collaborators) (text : string) (msgs : list PomlMessage),
    json_loads E text = Ok (JArr (map Wire.message msgs)) ->
    forallb Shape.legal_message msgs = true ->
    convert E true "pydantic" text = Ok (Return (RPydantic msgs))
    /\ convert E true "openai_chat" text
       = Ok (Return (RDicts (map Shape.openai_message msgs)))
    /\ convert E true "langchain" text
       = Ok (Return (RDicts (map LangchainShape.message msgs))).
Proof.
  intros E text msgs Hj Hl. unfold convert.
  cbn [String.eqb Ascii.eqb Bool.eqb negb]. rewrite Hj.
  rewrite (Converters.messages_back _ Hl).
  rewrite (Validated.legal_converts _ Hl).
  rewrite (Converters.langchain_converts _ (Converters.legal_contents _ Hl)).
  repeat split.
Qed.

Lemma typed_formats_return_the_messages_written_witness :
  let msgs := [mkMessage "assistant"
                 (ContentList [PartStr "see:";
                               PartMedia (mkMedia "image/png" "AAAA" (Some "x"))])] in
  let E := mkCollaborators (fun _ => Ok "{}")
             (fun _ => Ok (JArr (map Wire.message msgs)))
             (fun _ f => (Ok 0%Z, f)) (fun _ => None)
             (fun _ _ _ _ _ _ => None) in
  convert E true "pydantic" "[...]" = Ok (Return (RPydantic msgs))
  /\ convert E true "openai_chat" "[...]"
     = Ok (Return (RDicts (map Shape.openai_message msgs)))
  /\ convert E true "langchain" "[...]"
     = Ok (Return (RDicts (map LangchainShape.message msgs))).
Proof.
  intros msgs E.
  apply (@typed_formats_return_the_messages_written E "[...]" msgs);
    reflexivity.
Defined.

(** ** Whole calls of [poml] *)

Module Calls.
Import Rules Stages.

Ltac bind_step := apply bind_; order.
Ltac finally_step := apply try_finally_; order.
Ltac local_step := apply local_; order.

#[export] Instance none_kept_preorder : PreOrder none_kept.
Proof.
  split; [intros fr H; exact H|intros a b c H1 H2 H; now apply H2, H1].
Qed.

#[export] Instance same_temps_preorder : PreOrder same_temps.
Proof.
  split; [intros fr; repeat split|].
  intros a b c (A1 & A2 & A3) (B1 & B2 & B3). repeat split; congruence.
Qed.

(** The blocks of [poml] keep every relation on the locals that the
    assignments to the three temporary file variables keep. *)
Section Frame.
Variable Rf : frame -> frame -> Prop.
Context {HRf : PreOrder Rf}.
Variable ks : list kind.
Variable E : collaborators.
Hypothesis Hinput : forall v fr, Rf fr (set_temp_input_file v fr).
Hypothesis Hcontext : forall v fr, Rf fr (set_temp_context_file v fr).
Hypothesis Hstylesheet : forall v fr, Rf fr (set_temp_stylesheet_file v fr).
Hypothesis Hcreate : In KTempCreate ks.
Hypothesis Hdelete : In KTempDelete ks.
Hypothesis Hwarn : In KWarn ks.
Hypothesis Hrun : In KRun ks.

Lemma resolve_markup_frame markup :
  preserves (pair_rel Rf (steps ks)) (resolve_markup markup).
Proof.
  unfold resolve_markup, os_path_exists. pres.
  - now apply write_file_steps.
  - local_step. apply Hinput.
Qed.

Lemma data_args_frame flag data set_slot :
  (forall v fr, Rf fr (set_slot v fr)) ->
  preserves (pair_rel Rf (steps ks)) (data_args E flag data set_slot).
Proof.
  intros Hs. unfold data_args, os_path_exists. pres.
  - now apply write_file_steps.
  - local_step. apply Hs.
Qed.

Variable chat : bool.
Variable format : string.
Hypothesis Hdeliver : forall markup specified output_file,
  preserves (pair_rel Rf (steps ks))
    (deliver E markup chat specified output_file format).

Lemma invoke_frame markup specified output_file extra_args context_args
      stylesheet_args :
  preserves (pair_rel Rf (steps ks))
    (invoke E markup chat specified output_file format extra_args
       context_args stylesheet_args).
Proof.
  unfold invoke. pres; [now apply run_renderer_steps|apply Hdeliver].
Qed.

Lemma poml_main_frame markup context stylesheet output_file extra_args :
  preserves (pair_rel Rf (steps ks))
    (poml_main E markup context stylesheet chat output_file format
       extra_args).
Proof.
  unfold poml_main, with_NamedTemporaryFile. bind_step.
  { apply resolve_markup_frame. }
  intros markup'. bind_step.
  { pres. now apply NamedTemporaryFile_steps. }
  intros f. finally_step.
  - unfold render. cbv zeta. bind_step.
    { now apply data_args_frame. }
    intros context_args. bind_step.
    { now apply data_args_frame. }
    intros stylesheet_args. apply invoke_frame.
  - pres. now apply close_temp_steps.
Qed.

End Frame.

(** *** Formats that return from the validation block *)

Lemma convert_typed E chat format text fl :
  format <> "raw" -> format <> "dict" ->
  convert E chat format text = Ok fl -> exists v, fl = Return v.
Proof.
  intros Hraw Hdict. unfold convert.
  destruct (String.eqb_spec format "raw"); [contradiction|].
  destruct (json_loads E text); [|discriminate].
  destruct (String.eqb_spec format "dict"); [contradiction|]. cbn [negb].
  destruct (pydantic_result chat a); [|discriminate].
  destruct (format =? "pydantic"); [intros H; injection H as <-; eauto|].
  destruct (format =? "openai_chat").
  { destruct (_poml_response_to_openai_chat a0); [|discriminate].
    intros H; injection H as <-; eauto. }
  destruct (format =? "langchain"); [|discriminate].
  destruct (_poml_response_to_langchain a0); [|discriminate].
  intros H; injection H as <-; eauto.
Qed.

Lemma deliver_typed ks E t markup chat specified output_file format :
  In KReadOutput ks -> format <> "raw" -> format <> "dict" ->
  preserves (pair_rel (frel t true) (steps ks))
    (deliver E markup chat specified output_file format).
Proof.
  intros Hk Hraw Hdict. unfold deliver. bind_step.
  { pres. now apply read_output_steps. }
  intros text x. unfold bind, lift.
  destruct (convert E chat format text) as [fl|e] eqn:Hc; cbn [fst snd];
    [|reflexivity].
  destruct (convert_typed _ _ _ Hraw Hdict Hc) as [v ->]. cbn. reflexivity.
Qed.

Lemma frel_slots r v fr :
  frel false r fr (set_temp_input_file v fr)
  /\ frel false r fr (set_temp_context_file v fr)
  /\ frel false r fr (set_temp_stylesheet_file v fr).
Proof.
  repeat split; intros; try discriminate;
    unfold record_kept, no_result_kept; cbn; eauto.
Qed.

Lemma poml_main_typed E markup context stylesheet chat output_file format
      extra_args :
  format <> "raw" -> format <> "dict" ->
  preserves (pair_rel (frel false true) (steps without_backends))
    (poml_main E markup context stylesheet chat output_file format
       extra_args).
Proof.
  intros Hraw Hdict. apply poml_main_frame; try (cbn; tauto);
    try (intros v fr; apply (frel_slots true v fr)).
  - typeclasses eauto.
  - intros m sp o. apply deliver_typed; [cbn; tauto|assumption|assumption].
Qed.

(** *** Calls made with tracing disabled *)

Lemma attach_result_none ks result :
  In KAttach ks ->
  preserves (pair_rel none_kept (steps ks)) (attach_result result).
Proof.
  intros H. unfold attach_result. pres.
  unfold record_set. local_step. intros fr Hn. cbn. now rewrite Hn.
Qed.

Lemma poml_main_untraced E markup context stylesheet chat output_file format
      extra_args :
  preserves (pair_rel none_kept (steps all_kinds))
    (poml_main E markup context stylesheet chat output_file format
       extra_args).
Proof.
  apply poml_main_frame; try (cbn; tauto); try (intros v fr H; exact H).
  - typeclasses eauto.
  - intros m sp o. unfold deliver. pres.
    + apply read_output_steps. cbn; tauto.
    + apply forward_all_steps. cbn; tauto.
    + apply attach_result_none. cbn; tauto.
Qed.

Lemma poml_try_globals E markup context stylesheet chat output_file format
      extra_args :
  preserves (pair_rel (frel false false) (steps all_kinds))
    (poml_try E markup context stylesheet chat output_file format
       extra_args).
Proof.
  unfold poml_try. bind_step; [apply trace_inputs_rel|]. intros _.
  apply poml_main_frame; try (cbn; tauto);
    try (intros v fr; apply (frel_slots false v fr)).
  - typeclasses eauto.
  - intros m sp o. apply deliver_rel; cbn; tauto.
Qed.

(** *** Values returned *)

Lemma yields_ret {S A} (P : A -> Prop) (v : A) : P v -> yields P (@ret S A v).
Proof. intros H x w Hw. cbn in Hw. now injection Hw as <-. Qed.

Lemma yields_raise {S A} (P : A -> Prop) e : yields P (@raise S A e).
Proof. intros x w Hw. discriminate Hw. Qed.

Lemma yields_bind {S A B} (P : B -> Prop) (m : St S A) (k : A -> St S B) :
  (forall a, (exists x, fst (m x) = Ok a) -> yields P (k a)) ->
  yields P (bind m k).
Proof.
  intros Hk x v. unfold bind. destruct (m x) as [[a|e] y] eqn:Hm;
    [|discriminate].
  apply Hk. exists x. now rewrite Hm.
Qed.

Lemma yields_try_finally {S A} (P : A -> Prop) (body : St S A) cleanup :
  yields P body -> yields P (try_finally body cleanup).
Proof.
  intros Hb x v. unfold try_finally. specialize (Hb x).
  destruct (body x) as [o y]. destruct (cleanup y) as [[u|e] z];
    [|discriminate].
  exact (Hb v).
Qed.

Lemma poml_yields E markup context stylesheet chat output_file format
      extra_args :
  yields (fun v => exists text fl,
            convert E chat format text = Ok fl /\ v = value_of fl)
    (poml E markup context stylesheet chat output_file format extra_args).
Proof.
  intros s v. unfold poml.
  pose proof (@yields_try_finally _ _
                (fun v => exists text fl,
                   convert E chat format text = Ok fl /\ v = value_of fl)
                (poml_try E markup context stylesheet chat output_file format
                   extra_args) poml_finally) as H.
  match goal with
  | |- context [try_finally ?b ?c ?x] =>
      specialize (fun Hb => H Hb x v); destruct (try_finally b c x) as [o [fr s']]
  end.
  apply H. clear H.
  unfold poml_try, poml_main, with_NamedTemporaryFile, render, invoke, deliver.
  cbv zeta.
  repeat first
    [ apply yields_try_finally
    | apply yields_raise
    | apply yields_bind; intros ? ?
    | match goal with
      | |- yields _ (if ?b then _ else _) => destruct b
      end ].
  match goal with
  | H : exists x, fst (lift ?o x) = Ok ?a |- _ =>
      destruct H as [x Hx]; cbn in Hx
  end.
  match goal with
  | |- yields _ (match ?fl with _ => _ end) => destruct fl as [w|w]
  end.
  - apply yields_ret. eauto.
  - repeat (apply yields_bind; intros ? ?). apply yields_ret. eauto.
Qed.

Lemma convert_result E chat format text fl :
  convert E chat format text = Ok fl ->
  format_result format (value_of fl) /\ In format OutputFormat.
Proof.
  unfold convert.
  destruct (String.eqb_spec format "raw") as [->|].
  { intros H. injection H as <-. cbn. auto. }
  destruct (json_loads E text); [|discriminate].
  destruct (String.eqb_spec format "dict") as [->|]; cbn [negb].
  { intros H. injection H as <-. cbn. auto. }
  destruct (pydantic_result chat a); [|discriminate].
  destruct (String.eqb_spec format "pydantic") as [->|].
  { intros H. injection H as <-. cbn. auto 10. }
  destruct (String.eqb_spec format "openai_chat") as [->|].
  { destruct (_poml_response_to_openai_chat a0); [|discriminate].
    intros H. injection H as <-. cbn. auto 10. }
  destruct (String.eqb_spec format "langchain") as [->|]; [|discriminate].
  destruct (_poml_response_to_langchain a0); [|discriminate].
  intros H. injection H as <-. cbn. auto 10.
Qed.

Lemma convert_without_chat E format text fl :
  convert E false format text = Ok fl ->
  (format = "pydantic" ->
   exists c, Shape.legal_content c = true
             /\ fl = Return (RPydantic [mkMessage "human" c]))
  /\ (format = "openai_chat" ->
      exists c, Shape.legal_content c = true
                /\ fl = Return (RDicts [JObj [("role", JStr "user");
                                              ("content", Shape.openai_content c)]]))
  /\ (format = "langchain" ->
      exists c, Shape.legal_content c = true
                /\ fl = Return (RDicts [JObj [("type", JStr "human");
                                              ("data", JObj [("content", LangchainShape.content_of c)])]])).
Proof.
  unfold convert, pydantic_result, Pydantic.construct.
  cbn [Pydantic.validate_speaker str_in Speaker existsb String.eqb Ascii.eqb
         Bool.eqb orb].
  intros H. repeat split; intros ->;
    cbn [String.eqb Ascii.eqb Bool.eqb negb] in H;
    destruct (json_loads E text) as [j|]; try discriminate H;
    destruct (Pydantic.validate_content j) as [c|] eqn:Hc; try discriminate H;
    pose proof (Validated.content_legal _ Hc) as Hl; exists c;
    (split; [exact Hl|]).
  - now injection H as <-.
  - rewrite Validated.legal_converts in H by (cbn; now rewrite Hl).
    now injection H as <-.
  - rewrite Converters.langchain_converts in H by (cbn; now rewrite Hl).
    now injection H as <-.
Qed.

(** *** A markup file that does not exist *)

Ltac reads :=
  repeat lazymatch goal with
  | |- preserves _ (bind _ _) => bind_step; [|intros ?]
  | |- preserves _ (ret _) => rule ret_
  | |- preserves _ (gets _) => rule gets_
  | |- preserves _ (lift _) => rule lift_
  | |- preserves _ (glob _) => rule glob_
  | |- preserves _ (local _) => rule local_; intros ?; repeat split
  | |- preserves _ (fun s => (_, s)) => rule pure_
  | |- preserves _ (match ?x with _ => _ end) => destruct x
  end.

(** Lines 283-306 only read: the process state is the same afterwards,
    and so are the temporary file variables. *)
Lemma trace_inputs_reads E markup context stylesheet :
  preserves (pair_rel same_temps eq)
    (trace_inputs E markup context stylesheet).
Proof.
  unfold trace_inputs, trace_fill, trace_data, record_set, os_path_exists,
    read_text.
  reads.
Qed.

(** A call is the block under [try] followed by the [finally] block,
    which returns. *)
Lemma poml_run E markup context stylesheet chat output_file format
      extra_args s :
  exists o fr1 s1 s2,
    poml_try E markup context stylesheet chat output_file format extra_args
      (init_frame, s) = (o, (fr1, s1))
    /\ poml E markup context stylesheet chat output_file format extra_args s
       = (o, s2)
    /\ poml_finally (fr1, s1) = (Ok tt, (fr1, s2))
    /\ _trace_log s2 = (_trace_log s1 ++ olist (trace_record fr1))%list
    /\ (_trace_enabled s2, _weave_enabled s2, _agentops_enabled s2,
        _mlflow_enabled s2, _trace_dir s2)
       = (_trace_enabled s1, _weave_enabled s1, _agentops_enabled s1,
          _mlflow_enabled s1, _trace_dir s1)
    /\ events s2 = (events s1 ++ map EvTempDelete (temps_of fr1))%list.
Proof.
  unfold poml, try_finally.
  destruct (poml_try E markup context stylesheet chat output_file format
              extra_args (init_frame, s)) as [o1 [fr1 s1]].
  destruct (Log.poml_finally_run fr1 s1)
    as (s2 & Hfin & Hlog & H1 & H2 & H3 & H4 & H5 & Hev).
  exists o1, fr1, s1, s2. rewrite Hfin.
  repeat split; auto. congruence.
Qed.

Lemma deletions_without_backends l :
  Forall (fun e => In (kind_of e) without_backends) (map EvTempDelete l).
Proof.
  apply Forall_forall. intros ev Hin. apply in_map_iff in Hin.
  destruct Hin as (p & <- & _). cbn. tauto.
Qed.

End Calls.

(** X13.  With a format other than [raw] and [dict], a call of [poml],
    however it ends, enters no backend block and attaches no result: the
    only effects are temporary files, warnings, the renderer run and the
    reading of its output, and the record that a call made with tracing
    enabled appends to the log has no result, also when the call
    returns. *)
Theorem typed_formats_bypass_backends :
  forall (E : collaborators) (markup : markup_arg)
         (context stylesheet : option data_arg) (chat : bool)
         (output_file : option string) (format : string)
         (extra_args : option (list string)) (s : state),
    format <> "raw" -> format <> "dict" ->
    Forall (fun e => In (kind_of e) without_backends)
      (new_events s (snd (poml E markup context stylesheet chat output_file
                            format extra_args s)))
    /\ (_trace_enabled s = true ->
        exists r,
          _trace_log (snd (poml E markup context stylesheet chat output_file
                             format extra_args s))
          = (_trace_log s ++ [r])%list
          /\ rec_result r = None).
Proof.
  intros E markup context stylesheet chat output_file format extra_args s
    Hraw Hdict.
  destruct (Calls.poml_run E markup context stylesheet chat output_file format
              extra_args s)
    as (o & fr1 & s1 & s2 & Htry & -> & _ & Hlog & _ & Hev).
  cbn [snd]. unfold poml_try, bind in Htry.
  pose proof (@Stages.trace_inputs_rel without_backends E false true markup
                context stylesheet (init_frame, s)) as Hti.
  destruct (trace_inputs E markup context stylesheet (init_frame, s))
    as [[u|e] [fr0 s0]] eqn:Hin; cbn [fst snd] in Hti.
  - pose proof (@Calls.poml_main_typed E markup context stylesheet chat
                  output_file format extra_args Hraw Hdict (fr0, s0)) as Hm.
    rewrite Htry in Hm. cbn [fst snd] in Hm.
    destruct Hti as [_ [G0 (e0 & Ev0 & F0)]].
    destruct Hm as [(_ & _ & N) [G1 (e1 & Ev1 & F1)]].
    cbn [fst snd] in *. split.
    + rewrite (@Exit.new_events_app s s2
                 (e0 ++ e1 ++ map EvTempDelete (temps_of fr1))%list).
      * repeat (apply Forall_app; split); auto.
        apply Calls.deletions_without_backends.
      * rewrite Hev, Ev1, Ev0, <- !app_assoc. reflexivity.
    + intros He.
      destruct (@Log.trace_inputs_run _ _ _ _ _ _ _ _ _ He Hin)
        as ((r0 & Hr0 & Hn0) & _ & _).
      destruct (N eq_refl _ Hr0 Hn0) as (r1 & Hr1 & Hn1).
      exists r1. split; [|exact Hn1].
      rewrite Hlog, Hr1. unfold globals_of in G0, G1. cbn. congruence.
  - injection Htry as <- <- <-.
    destruct Hti as [_ [G0 (e0 & Ev0 & F0)]]. cbn [fst snd] in *. split.
    + rewrite (@Exit.new_events_app s s2
                 (e0 ++ map EvTempDelete (temps_of fr0))%list).
      * apply Forall_app; split; auto.
        apply Calls.deletions_without_backends.
      * rewrite Hev, Ev0, <- !app_assoc. reflexivity.
    + intros He.
      destruct (@Log.trace_inputs_run _ _ _ _ _ _ _ _ _ He Hin)
        as ((r0 & Hr0 & Hn0) & _ & _).
      exists r0. split; [|exact Hn0].
      rewrite Hlog, Hr0. unfold globals_of in G0. cbn. congruence.
Qed.

Lemma typed_formats_bypass_backends_witness :
  let s := snd (set_trace (EnStr "weave") (Some "/traces") Example.fresh) in
  let res := poml (Example.world 0) (MarkupStr "<p>hi</p>") None None true
               None "openai_chat" None s in
  fst res = Ok (RDicts [])
  /\ Forall (fun e => In (kind_of e) without_backends) (new_events s (snd res))
  /\ (_trace_enabled s = true ->
      exists r, _trace_log (snd res) = (_trace_log s ++ [r])%list
                /\ rec_result r = None).
Proof.
  intros s res. split; [vm_compute; reflexivity|].
  apply (@typed_formats_bypass_backends (Example.world 0)
           (MarkupStr "<p>hi</p>") None None true None "openai_chat" None s);
    discriminate.
Defined.

(** X14.  A value that [poml] returns has the kind its format names: text
    for [raw], the parsed JSON for [dict], messages for [pydantic], a list
    of dicts for [openai_chat] and [langchain].  With a format that is
    none of these five the call never returns. *)
Theorem poml_returns_what_the_format_names :
  forall (E : collaborators) (markup : markup_arg)
         (context stylesheet : option data_arg) (chat : bool)
         (output_file : option string) (format : string)
         (extra_args : option (list string)) (s : state) (v : py_result),
    fst (poml E markup context stylesheet chat output_file format extra_args s)
    = Ok v ->
    format_result format v /\ In format OutputFormat.
Proof.
  intros E markup context stylesheet chat output_file format extra_args s v H.
  destruct (@Calls.poml_yields E markup context stylesheet chat output_file
              format extra_args s v H) as (text & fl & Hc & ->).
  exact (Calls.convert_result _ _ _ _ Hc).
Qed.

Lemma poml_returns_what_the_format_names_witness :
  format_result "pydantic" (RPydantic []) /\ In "pydantic" OutputFormat.
Proof.
  apply (@poml_returns_what_the_format_names (Example.world 0)
           (MarkupStr "<p>hi</p>") None None true None "pydantic" None
           Example.fresh (RPydantic [])).
  vm_compute. reflexivity.
Defined.

(** X15.  Without chat mode the typed formats return exactly one message,
    spoken by the human: [pydantic] one [PomlMessage] with speaker human,
    [openai_chat] one dict with role user, [langchain] one dict of type
    human; the content is text or a list of text and multimedia parts. *)
Theorem poml_without_chat_returns_one_human_message :
  forall (E : collaborators) (markup : markup_arg)
         (context stylesheet : option data_arg)
         (output_file : option string) (format : string)
         (extra_args : option (list string)) (s : state) (v : py_result),
    fst (poml E markup context stylesheet false output_file format extra_args s)
    = Ok v ->
    (format = "pydantic" ->
     exists c, Shape.legal_content c = true
               /\ v = RPydantic [mkMessage "human" c])
    /\ (format = "openai_chat" ->
        exists c, Shape.legal_content c = true
                  /\ v = RDicts [JObj [("role", JStr "user");
                                       ("content", Shape.openai_content c)]])
    /\ (format = "langchain" ->
        exists c, Shape.legal_content c = true
                  /\ v = RDicts [JObj [("type", JStr "human");
                                       ("data",
                                        JObj [("content",
                                               LangchainShape.content_of c)])]]).
Proof.
  intros E markup context stylesheet output_file format extra_args s v H.
  destruct (@Calls.poml_yields E markup context stylesheet false output_file
              format extra_args s v H) as (text & fl & Hc & ->).
  destruct (Calls.convert_without_chat _ _ _ Hc) as (H1 & H2 & H3).
  repeat split; intros Hf;
    [destruct (H1 Hf) as (c & Hl & ->)|destruct (H2 Hf) as (c & Hl & ->)
    |destruct (H3 Hf) as (c & Hl & ->)]; exists c; now split.
Qed.

Lemma poml_without_chat_returns_one_human_message_witness :
  let v := RPydantic [mkMessage "human" (ContentList [])] in
  ("pydantic" = "pydantic" ->
   exists c, Shape.legal_content c = true
             /\ v = RPydantic [mkMessage "human" c])
  /\ ("pydantic" = "openai_chat" ->
      exists c, Shape.legal_content c = true
                /\ v = RDicts [JObj [("role", JStr "user");
                                     ("content", Shape.openai_content c)]])
  /\ ("pydantic" = "langchain" ->
      exists c, Shape.legal_content c = true
                /\ v = RDicts [JObj [("type", JStr "human");
                                     ("data",
                                      JObj [("content",
                                             LangchainShape.content_of c)])]]).
Proof.
  intros v.
  apply (@poml_without_chat_returns_one_human_message (Example.world 0)
           (MarkupStr "<p>hi</p>") None None None "pydantic" None
           Example.fresh v).
  vm_compute. reflexivity.
Defined.

(** X16.  A call of [poml] never changes the tracing configuration: local
    tracing, the three backend flags and the run directory are the same
    after the call, however it ends; and a call made with tracing disabled
    leaves the trace log as it was. *)
Theorem poml_keeps_the_tracing_configuration :
  forall (E : collaborators) (markup : markup_arg)
         (context stylesheet : option data_arg) (chat : bool)
         (output_file : option string) (format : string)
         (extra_args : option (list string)) (s : state),
    let s' := snd (poml E markup context stylesheet chat output_file format
                     extra_args s) in
    _trace_enabled s' = _trace_enabled s
    /\ _weave_enabled s' = _weave_enabled s
    /\ _agentops_enabled s' = _agentops_enabled s
    /\ _mlflow_enabled s' = _mlflow_enabled s
    /\ _trace_dir s' = _trace_dir s
    /\ (_trace_enabled s = false -> _trace_log s' = _trace_log s).
Proof.
  intros E markup context stylesheet chat output_file format extra_args s.
  destruct (Calls.poml_run E markup context stylesheet chat output_file format
              extra_args s)
    as (o & fr1 & s1 & s2 & Htry & -> & _ & Hlog & Hcfg & _).
  cbn [snd]. cbv zeta.
  pose proof (@Calls.poml_try_globals E markup context stylesheet chat
                output_file format extra_args (init_frame, s)) as Hg.
  rewrite Htry in Hg. destruct Hg as [_ [G _]]. cbn [fst snd] in G.
  unfold globals_of in G. injection G as G1 G2 G3 G4 G5 G6.
  injection Hcfg as C1 C2 C3 C4 C5.
  repeat (split; [congruence|]).
  intros He. unfold poml_try, bind in Htry.
  assert (Hti : trace_inputs E markup context stylesheet (init_frame, s)
                = (Ok tt, (init_frame, s))).
  { cbv [trace_inputs bind glob gets ret fst snd]. now rewrite He. }
  rewrite Hti in Htry.
  pose proof (@Calls.poml_main_untraced E markup context stylesheet chat
                output_file format extra_args (init_frame, s)) as Hm.
  rewrite Htry in Hm. destruct Hm as [Hn _]. cbn [fst snd] in Hn.
  rewrite Hlog, (Hn eq_refl). cbn [olist]. rewrite app_nil_r. exact G5.
Qed.

(** X17.  A markup [Path] that does not exist makes [poml] raise before
    anything is done: no temporary file is created, the renderer is not
    started and the file system is as before.  The exception is
    [FileNotFoundError] with the message of the source when tracing is
    disabled, in which case nothing at all has changed, and when neither
    context nor stylesheet is given. *)
Theorem poml_missing_markup_file :
  forall (E : collaborators) (p : path)
         (context stylesheet : option data_arg) (chat : bool)
         (output_file : option string) (format : string)
         (extra_args : option (list string)) (s : state),
    FS.exists_ (fs s) p = false ->
    exists e s',
      poml E (MarkupPath p) context stylesheet chat output_file format
        extra_args s = (Raise e, s')
      /\ events s' = events s /\ fs s' = fs s
      /\ (_trace_enabled s = false ->
          e = FileNotFoundError ("File not found: " ++ p) /\ s' = s)
      /\ (context = None -> stylesheet = None ->
          e = FileNotFoundError ("File not found: " ++ p)).
Proof.
  intros E p context stylesheet chat output_file format extra_args s Hex.
  unfold poml, try_finally, poml_try, bind.
  pose proof (@Calls.trace_inputs_reads E (MarkupPath p) context stylesheet
                (init_frame, s)) as Hr.
  destruct (trace_inputs E (MarkupPath p) context stylesheet (init_frame, s))
    as [[u|e0] [fr0 s0]] eqn:Hin; destruct Hr as [(T1 & T2 & T3) Hs];
    cbn [fst snd] in *; subst s0; destruct fr0 as [i c st r];
    cbn in T1, T2, T3; subst i c st.
  - cbv [poml_main resolve_markup os_path_exists bind glob gets raise fst snd].
    rewrite Hex.
    cbv [poml_finally bind gets glob close_if_set ret modify fst snd
           temp_input_file temp_context_file temp_stylesheet_file trace_record].
    destruct r as [r|]; eexists _, _; (split; [reflexivity|]); cbn;
      (split; [reflexivity|]); (split; [reflexivity|]); split; auto.
    intros He. exfalso. revert Hin.
    cbv [trace_inputs bind glob gets ret fst snd]. rewrite He. discriminate.
  - cbv [poml_finally bind gets glob close_if_set ret modify fst snd
           temp_input_file temp_context_file temp_stylesheet_file trace_record].
    destruct r as [r|]; eexists _, _; (split; [reflexivity|]); cbn;
      (split; [reflexivity|]); (split; [reflexivity|]); split;
      try (intros He; exfalso; revert Hin;
           cbv [trace_inputs bind glob gets ret fst snd]; rewrite He;
           discriminate);
      intros -> ->; exfalso; revert Hin;
      cbv [trace_inputs bind glob gets fst snd];
      (destruct (_trace_enabled s); [|discriminate]);
      cbv [trace_fill trace_data record_set local modify os_path_exists bind
             glob gets ret fst snd];
      rewrite Hex; discriminate.
Qed.

Lemma poml_missing_markup_file_witness :
  let s := Example.local_tracing in
  exists e s',
    poml (Example.world 0) (MarkupPath "/prompts/ask.poml") None None true None
      "dict" None s = (Raise e, s')
    /\ events s' = events s /\ fs s' = fs s
    /\ (_trace_enabled s = false ->
        e = FileNotFoundError ("File not found: " ++ "/prompts/ask.poml")
        /\ s' = s)
    /\ (@None data_arg = None -> @None data_arg = None ->
        e = FileNotFoundError ("File not found: " ++ "/prompts/ask.poml")).
Proof.
  intros s.
  apply (@poml_missing_markup_file (Example.world 0) "/prompts/ask.poml" None
           None true None "dict" None s).
  reflexivity.
Defined.

(** ** The renderer's command line *)

Module CommandLine.
Import Rules Stages.

Lemma runs_app a b : runs (a ++ b) = (runs a ++ runs b)%list.
Proof. apply flat_map_app. Qed.

Lemma runs_none ks evs :
  ~ In KRun ks -> Forall (fun ev => In (kind_of ev) ks) evs -> runs evs = [].
Proof.
  intros Hk F. induction F as [|ev evs Hev _ IH]; [reflexivity|].
  change (runs (ev :: evs))
    with ((match ev with EvRun args _ => [args] | _ => [] end) ++ runs evs)%list.
  rewrite IH. destruct ev; try reflexivity. contradiction.
Qed.

Lemma runs_deletes l : runs (map EvTempDelete l) = [].
Proof. induction l; [reflexivity|exact IHl]. Qed.

Lemma trace_args_globals s s' :
  globals_of s' = globals_of s -> trace_args s' = trace_args s.
Proof.
  unfold globals_of, trace_args. intros H. injection H as H1 _ _ _ _ H6.
  now rewrite H1, H6.
Qed.

Lemma ran_after (P P' : list string -> Prop) x y z :
  exit_prefix x y -> ran P y z ->
  (trace_args (snd y) = trace_args (snd x) -> forall args, P args -> P' args) ->
  ran P' x z.
Proof.
  intros [_ [G0 (e0 & E0 & F0)]] [G (evs & Ev & H)] HP. split; [congruence|].
  exists (e0 ++ evs)%list. split; [now rewrite Ev, E0, app_assoc|].
  assert (H0 : runs e0 = [])
    by (eapply runs_none; [|exact F0]; cbn; intuition discriminate).
  unfold at_most_one_run. rewrite runs_app, H0. cbn [app].
  destruct H as [H|(args & H & Ha)]; [now left|right].
  exists args. split; [exact H|].
  apply HP; [now apply trace_args_globals|exact Ha].
Qed.

Lemma ran_prefix (P : list string -> Prop) x y : exit_prefix x y -> ran P x y.
Proof.
  intros [_ [G0 (e0 & E0 & F0)]]. split; [exact G0|]. exists e0.
  split; [exact E0|]. left.
  eapply runs_none; [|exact F0]. cbn. intuition discriminate.
Qed.

Lemma ran_closes (P : list string -> Prop) x y z :
  ran P x y -> closes y z -> ran P x z.
Proof.
  intros [G (evs & Ev & H)] (_ & G1 & dels & Ed & Fd). split; [congruence|].
  exists (evs ++ dels)%list. split; [now rewrite Ed, Ev, app_assoc|].
  assert (H0 : runs dels = []).
  { clear - Fd. induction Fd as [|ev l Hev _ IH]; [reflexivity|].
    change (runs (ev :: l))
      with ((match ev with EvRun args _ => [args] | _ => [] end) ++ runs l)%list.
    rewrite IH. now destruct ev. }
  unfold at_most_one_run. now rewrite runs_app, H0, app_nil_r.
Qed.

(** Lines 348-444: one run, with the arguments built so far. *)
Lemma invoke_ran E markup chat specified output_file format extra_args
      context_args stylesheet_args x o y :
  invoke E markup chat specified output_file format extra_args context_args
    stylesheet_args x = (o, y) ->
  ran (fun args =>
         args = renderer_args markup output_file context_args stylesheet_args
                  chat (trace_args (snd x))
                  match extra_args with Some l => l | None => [] end)
    x y.
Proof.
  destruct x as [fr s]. unfold invoke. unfold bind at 1.
  cbv [glob gets fst snd]. unfold bind at 1. unfold glob, run_renderer.
  cbn [fst snd]. fold (trace_args s).
  match goal with
  | |- context [run E ?a (fs s)] =>
      change a with (renderer_args markup output_file context_args
                       stylesheet_args chat (trace_args s)
                       match extra_args with Some l => l | None => [] end);
      set (args := renderer_args markup output_file context_args
                     stylesheet_args chat (trace_args s)
                     match extra_args with Some l => l | None => [] end)
  end.
  destruct (run E args (fs s)) as [[c|e] f'] eqn:Hr.
  - destruct (Z.eqb_spec c 0) as [->|Hc]; cbn [negb].
    + intros Hrun.
      pose proof (@Exit.deliver_after_run E markup chat specified output_file
                    format
                    (fr, with_events (events s ++ [EvRun args 0%Z])
                           (with_fs f' s))) as [_ [G (evs & Ev & F)]].
      rewrite Hrun in G, Ev. cbn [fst snd] in G, Ev. split; [exact G|].
      exists (EvRun args 0%Z :: evs). split.
      * rewrite Ev. cbn. now rewrite <- app_assoc.
      * right. exists args. split; [|reflexivity].
        change (runs (EvRun args 0%Z :: evs)) with (args :: runs evs).
        rewrite (@runs_none after_run evs); [reflexivity| |exact F].
        cbn. intuition discriminate.
    + intros Hrun. injection Hrun as <- <-.
      split; [reflexivity|]. exists [EvRun args c].
      split; [reflexivity|]. right. exists args. now split.
  - intros Hrun. injection Hrun as <- <-.
    split; [reflexivity|]. exists []. cbn. split; [now rewrite app_nil_r|].
    now left.
Qed.

Lemma write_file_name content s :
  exists n, fst (write_file content s) = Ok (tmp_name n).
Proof.
  cbv [write_file NamedTemporaryFile bind modify ret fst snd]. eauto.
Qed.

Lemma data_args_value E flag data set_slot x a :
  fst (data_args E flag data set_slot x) = Ok a -> data_file_args flag data a.
Proof.
  destruct x as [fr s]. unfold data_args, data_file_args.
  destruct data as [[d|t|p]|].
  - unfold bind at 1. unfold lift. destruct (json_dumps E (JObj d)) as [text|e];
      cbn [fst snd]; [|discriminate].
    unfold bind at 1. unfold glob. cbn [fst snd].
    destruct (write_file_name text s) as [n Hn].
    destruct (write_file text s) as [o s1]. cbn [fst] in Hn. subst o.
    cbv [bind local modify ret fst snd]. intros H. injection H as <-. eauto.
  - destruct (data_truthy (DataStr t)); [|intros H; now injection H as <-].
    cbv [bind os_path_exists glob gets ret raise fst snd].
    destruct (FS.exists_ (fs s) (data_str (DataStr t))); [|discriminate].
    intros H. now injection H as <-.
  - destruct (data_truthy (DataPath p)); [|intros H; now injection H as <-].
    cbv [bind os_path_exists glob gets ret raise fst snd].
    destruct (FS.exists_ (fs s) (data_str (DataPath p))); [|discriminate].
    intros H. now injection H as <-.
  - intros H. now injection H as <-.
Qed.

Lemma resolve_markup_value markup fr s m :
  fst (resolve_markup markup (fr, s)) = Ok m -> markup_file markup s m.
Proof.
  unfold resolve_markup, markup_file. destruct markup as [p|t].
  - cbv [bind os_path_exists glob gets ret raise fst snd].
    destruct (FS.exists_ (fs s) p); [|discriminate].
    intros H. now injection H as <-.
  - unfold bind at 1. cbv [os_path_exists glob gets fst snd].
    destruct (FS.exists_ (fs s) t); [intros H; now injection H as <-|].
    set (warn := if looks_like_path t then _ else _).
    unfold bind at 1. destruct (warn (fr, s)) as [[u|e] [fr1 s1]];
      cbn [fst snd]; [|discriminate].
    unfold bind at 1. unfold glob. cbn [fst snd].
    destruct (write_file_name t s1) as [n Hn].
    destruct (write_file t s1) as [o s2]. cbn [fst] in Hn. subst o.
    cbv [bind local modify ret fst snd]. intros H. injection H as <-. eauto.
Qed.

(** Lines 321-444. *)
Lemma render_ran E markup context stylesheet chat output_file format
      extra_args temp_output_file x :
  ran (fun args =>
         exists context_args stylesheet_args,
           data_file_args "--context-file" context context_args
           /\ data_file_args "--stylesheet-file" stylesheet stylesheet_args
           /\ args = renderer_args markup
                       match output_file with
                       | None => temp_output_file
                       | Some o => o
                       end
                       context_args stylesheet_args chat (trace_args (snd x))
                       match extra_args with Some l => l | None => [] end)
    x (snd (render E markup context stylesheet chat output_file format
              extra_args temp_output_file x)).
Proof.
  unfold render. cbv zeta. unfold bind at 1.
  pose proof (@data_args_rel before_run E false "--context-file" context
                set_temp_context_file
                (or_intror (or_introl eq_refl)) (fun _ _ => eq_refl) x) as H1.
  pose proof (@data_args_value E "--context-file" context
                set_temp_context_file x) as V1.
  destruct (data_args E "--context-file" context set_temp_context_file x)
    as [[ca|e] y]; cbn [fst snd] in *; [|now apply ran_prefix].
  specialize (V1 ca eq_refl). unfold bind at 1.
  pose proof (@data_args_rel before_run E false "--stylesheet-file" stylesheet
                set_temp_stylesheet_file
                (or_intror (or_introl eq_refl)) (fun _ _ => eq_refl) y) as H2.
  pose proof (@data_args_value E "--stylesheet-file" stylesheet
                set_temp_stylesheet_file y) as V2.
  destruct (data_args E "--stylesheet-file" stylesheet
              set_temp_stylesheet_file y)
    as [[sa|e] z]; cbn [fst snd] in *.
  - specialize (V2 sa eq_refl).
    assert (Hxz : exit_prefix x z) by (etransitivity; eassumption).
    match goal with
    | |- ran _ _ (snd ?r) =>
        destruct r as [o w] eqn:Hi; apply invoke_ran in Hi; cbn [snd]
    end.
    eapply ran_after; [exact Hxz|exact Hi|].
    intros Ht args ->. exists ca, sa. rewrite Ht. auto.
  - apply ran_prefix. etransitivity; eassumption.
Qed.

Lemma temporary_name s : exists n, fst (NamedTemporaryFile s) = Ok (tmp_name n).
Proof. cbv [NamedTemporaryFile fst]. eauto. Qed.

(** Lines 308-444, from the state [s] in which the markup is looked up. *)
Lemma poml_main_ran E markup context stylesheet chat output_file format
      extra_args fr s :
  ran (command_line markup context stylesheet chat output_file extra_args s)
    (fr, s)
    (snd (poml_main E markup context stylesheet chat output_file format
            extra_args (fr, s))).
Proof.
  unfold poml_main. unfold bind at 1.
  pose proof (@resolve_markup_rel before_run false markup
                (or_introl eq_refl) (or_intror (or_introl eq_refl)) (fr, s))
    as H1.
  pose proof (@resolve_markup_value markup fr s) as V1.
  destruct (resolve_markup markup (fr, s)) as [[m|e] y]; cbn [fst snd] in *;
    [|now apply ran_prefix].
  specialize (V1 m eq_refl). unfold with_NamedTemporaryFile. unfold bind at 1.
  assert (H2 : exit_prefix y (snd (glob NamedTemporaryFile y))).
  { apply (@glob_ _ (frel false false) (steps before_run) _ NamedTemporaryFile).
    apply NamedTemporaryFile_steps. cbn. tauto. }
  assert (V2 : forall f, fst (glob NamedTemporaryFile y) = Ok f ->
                         exists n, f = tmp_name n).
  { destruct y as [fr1 s1]. unfold glob. cbn [fst snd].
    destruct (temporary_name s1) as [n Hn].
    destruct (NamedTemporaryFile s1) as [o s2]. cbn [fst] in *. subst o.
    intros f H. injection H as <-. eauto. }
  destruct (glob NamedTemporaryFile y) as [[f|e] z]; cbn [fst snd] in *;
    [|apply ran_prefix; etransitivity; eassumption].
  destruct (V2 f eq_refl) as [n ->].
  assert (Hxz : exit_prefix (fr, s) z) by (etransitivity; eassumption).
  unfold try_finally.
  pose proof (@render_ran E m context stylesheet chat output_file format
                extra_args (tmp_name n) z) as Hr.
  destruct (render E m context stylesheet chat output_file format extra_args
              (tmp_name n) z) as [o w]. cbn [snd] in Hr.
  destruct (Log.close_temp_closes (tmp_name n) w) as [Hok Hc].
  destruct (glob (close_temp (tmp_name n)) w) as [[u|e] w'];
    cbn [fst snd] in *; [|discriminate].
  assert (Hrw : ran (fun args =>
                  exists context_args stylesheet_args,
                    data_file_args "--context-file" context context_args
                    /\ data_file_args "--stylesheet-file" stylesheet stylesheet_args
                    /\ args = renderer_args m
                                match output_file with
                                | None => tmp_name n
                                | Some o => o
                                end
                                context_args stylesheet_args chat
                                (trace_args (snd z))
                                match extra_args with Some l => l | None => [] end)
                  z w') by (eapply ran_closes; eassumption).
  assert (Hfinal : ran (command_line markup context stylesheet chat output_file
                          extra_args s) (fr, s) w').
  { eapply ran_after; [exact Hxz|exact Hrw|].
    cbn [snd]. intros Ht args (ca & sa & Hca & Hsa & ->).
    exists m, match output_file with None => tmp_name n | Some o => o end, ca, sa.
    rewrite Ht. repeat split; auto.
    unfold output_path. destruct output_file; eauto. }
  now destruct o.
Qed.

End CommandLine.

(** X18.  A call of [poml], however it ends, starts the renderer at most
    once, and with this command line: [-f] and the markup file (the path
    given, or a temporary file for text that names no existing file), [-o]
    and the output file (the caller's, or a temporary file), the context
    and stylesheet files when there are any, [--chat] with true or false,
    [--traceDir] and the run directory when tracing is enabled with one,
    and last the extra arguments as they were given. *)
Theorem poml_starts_the_renderer_at_most_once :
  forall (E : collaborators) (markup : markup_arg)
         (context stylesheet : option data_arg) (chat : bool)
         (output_file : option string) (format : string)
         (extra_args : option (list string)) (s : state),
    at_most_one_run
      (command_line markup context stylesheet chat output_file extra_args s)
      (new_events s (snd (poml E markup context stylesheet chat output_file
                            format extra_args s))).
Proof.
  intros E markup context stylesheet chat output_file format extra_args s.
  destruct (Calls.poml_run E markup context stylesheet chat output_file format
              extra_args s)
    as (o & fr1 & s1 & s2 & Htry & -> & _ & _ & _ & Hev).
  cbn [snd]. unfold poml_try, bind in Htry.
  pose proof (@Calls.trace_inputs_reads E markup context stylesheet
                (init_frame, s)) as [_ Hs].
  destruct (trace_inputs E markup context stylesheet (init_frame, s))
    as [[u|e] [fr0 s0]]; cbn [fst snd] in Hs; subst s0.
  - pose proof (@CommandLine.poml_main_ran E markup context stylesheet chat
                  output_file format extra_args fr0 s) as Hm.
    rewrite Htry in Hm. destruct Hm as [_ (evs & Ev & H)].
    cbn [fst snd] in Ev.
    rewrite (@Exit.new_events_app s s2
               (evs ++ map EvTempDelete (temps_of fr1))%list)
      by (rewrite Hev, Ev, <- app_assoc; reflexivity).
    unfold at_most_one_run.
    now rewrite CommandLine.runs_app, CommandLine.runs_deletes, app_nil_r.
  - injection Htry as <- <- <-.
    rewrite (@Exit.new_events_app s s2 (map EvTempDelete (temps_of fr0)))
      by exact Hev.
    left. apply CommandLine.runs_deletes.
Qed.

(** ** The LlamaIndex integration *)

Module Formatter.
Import LlamaIndex.

Lemma convert_pydantic E chat text fl :
  convert E chat "pydantic" text = Ok fl ->
  exists msgs, forallb Shape.legal_message msgs = true
               /\ fl = Return (RPydantic msgs).
Proof.
  unfold convert. cbn [String.eqb Ascii.eqb Bool.eqb negb].
  destruct (json_loads E text) as [j|]; [|discriminate].
  destruct (pydantic_result chat j) as [msgs|] eqn:Hp; [|discriminate].
  intros H. injection H as <-. exists msgs. split; [|reflexivity].
  exact (Validated.pydantic_result_legal _ _ Hp).
Qed.

(** What [poml] returns for the format [pydantic]. *)
Lemma poml_pydantic E markup context stylesheet chat output_file extra_args
      s v :
  fst (poml E markup context stylesheet chat output_file "pydantic"
         extra_args s) = Ok v ->
  exists msgs, forallb Shape.legal_message msgs = true /\ v = RPydantic msgs.
Proof.
  intros H.
  destruct (@Calls.poml_yields E markup context stylesheet chat output_file
              "pydantic" extra_args s v H) as (text & fl & Hc & ->).
  destruct (convert_pydantic _ _ _ Hc) as (msgs & Hl & ->). eauto.
Qed.

Lemma snoc_map {A B} (f : A -> B) l : forall acc,
  fold_left (fun acc a => (acc ++ [f a])%list) l acc = (acc ++ map f l)%list.
Proof.
  induction l as [|a l IH]; intros acc; cbn; [now rewrite app_nil_r|].
  rewrite IH, <- app_assoc. reflexivity.
Qed.

Lemma text_content_legal other_text parts :
  forallb (fun p => negb (Shape.is_other p)) parts = true ->
  text_content other_text parts = String.concat "" (map part_text parts).
Proof.
  unfold text_content.
  enough (H : forall acc,
            forallb (fun p => negb (Shape.is_other p)) parts = true ->
            fold_left
              (fun text part =>
                 match part with
                 | PartStr s => text ++ s
                 | PartMedia _ => text
                 | PartOther shown => text ++ other_text shown
                 end) parts acc
            = acc ++ String.concat "" (map part_text parts))
    by (intros Hl; now rewrite H).
  induction parts as [|p parts IH]; intros acc Hl; cbn [fold_left map].
  - cbn. now rewrite Names.append_nil.
  - cbn [forallb] in Hl. apply andb_true_iff in Hl. destruct Hl as [Hp Hl].
    rewrite IH by exact Hl.
    assert (Hc : forall x l, String.concat "" (x :: l) = x ++ String.concat "" l).
    { intros x [|y l]; cbn; [now rewrite Names.append_nil|reflexivity]. }
    rewrite Hc. destruct p as [t|m|x]; cbn [part_text].
    + now rewrite Names.append_assoc.
    + reflexivity.
    + discriminate Hp.
Qed.

Lemma role_of_known sp :
  str_in sp Speaker = true ->
  role_of sp = if sp =? "system" then SYSTEM else USER.
Proof.
  intros H. apply Convert.str_in_In in H.
  destruct H as [<-|[<-|[<-|[]]]]; reflexivity.
Qed.

Lemma chat_messages_legal other_text msgs :
  forallb Shape.legal_message msgs = true ->
  chat_messages other_text msgs
  = map (fun m => mkChatMessage
                    (if speaker m =? "system" then SYSTEM else USER)
                    (plain_text (content m))) msgs.
Proof.
  unfold chat_messages.
  enough (H : forall acc,
            forallb Shape.legal_message msgs = true ->
            fold_left
              (fun chat_messages msg =>
                 let role := role_of (speaker msg) in
                 match content msg with
                 | ContentStr s => (chat_messages ++ [mkChatMessage role s])%list
                 | ContentList parts =>
                     (chat_messages
                      ++ [mkChatMessage role (text_content other_text parts)])%list
                 | ContentOther _ => chat_messages
                 end) msgs acc
            = (acc ++ map (fun m => mkChatMessage
                             (if speaker m =? "system" then SYSTEM else USER)
                             (plain_text (content m))) msgs)%list)
    by (intros Hl; now rewrite H).
  induction msgs as [|m msgs IH]; intros acc Hl; cbn [fold_left map].
  - now rewrite app_nil_r.
  - cbn [forallb] in Hl. apply andb_true_iff in Hl. destruct Hl as [Hm Hl].
    unfold Shape.legal_message in Hm. apply andb_true_iff in Hm.
    destruct Hm as [Hs Hc]. rewrite IH by exact Hl. cbv zeta.
    rewrite (role_of_known _ Hs).
    destruct (content m) as [t|parts|t]; cbn [Shape.legal_content] in Hc;
      [| |discriminate Hc]; rewrite <- app_assoc; cbn [app plain_text];
      [reflexivity|].
    now rewrite text_content_legal.
Qed.

Lemma contains_user_block template :
  contains "{% chat" (user_block template) = true.
Proof. reflexivity. Qed.

End Formatter.

(** X19.  [poml_formatter] without speaker mode never returns: the
    exceptions of [poml] pass through, and when [poml] returns, which it
    does with exactly one message, line 55 asks the list of messages for an
    attribute [content] and raises [AttributeError]. *)
Theorem poml_formatter_without_speaker_mode_never_returns :
  forall (other_text : string -> string) (E : collaborators)
         (markup : markup_arg) (context : option data_arg) (s : state),
    match fst (poml E markup context None false None "pydantic" None s) with
    | Ok _ =>
        fst (LlamaIndex.poml_formatter other_text E markup false context s)
        = LlamaIndex.Failed
            (LlamaIndex.AttributeError "'list' object has no attribute 'content'")
    | Raise e =>
        fst (LlamaIndex.poml_formatter other_text E markup false context s)
        = LlamaIndex.Failed (LlamaIndex.Exn e)
    end.
Proof.
  intros other_text E markup context s. unfold LlamaIndex.poml_formatter.
  pose proof (@Calls.poml_yields E markup context None false None "pydantic"
                None s) as H.
  destruct (poml E markup context None false None "pydantic" None s)
    as [[v|e] s']; cbn [fst] in *; [|reflexivity].
  destruct (H v eq_refl) as (text & fl & Hc & ->).
  destruct (Calls.convert_without_chat _ _ _ Hc) as (H1 & _).
  destruct (H1 eq_refl) as (c & _ & ->). reflexivity.
Qed.

(** X20.  [poml_formatter] in speaker mode gives no message the role
    [ASSISTANT]: the messages of [poml] have the speakers human, assistant
    and system, the formatter knows [ai] for the assistant, so that an
    assistant message falls to the fallback and gets the role [USER], as a
    human message does; system messages get [SYSTEM].  There is one chat
    message per message, in order; its text is the string content, or the
    strings of a list content concatenated, multimedia parts left out. *)
Theorem poml_formatter_gives_assistant_the_user_role :
  forall (other_text : string -> string) (E : collaborators)
         (markup : markup_arg) (context : option data_arg) (s : state)
         (r : LlamaIndex.formatted),
    fst (LlamaIndex.poml_formatter other_text E markup true context s)
    = LlamaIndex.Returned r ->
    exists msgs,
      fst (poml E markup context None true None "pydantic" None s)
      = Ok (RPydantic msgs)
      /\ r = LlamaIndex.Messages
               (map (fun m =>
                       LlamaIndex.mkChatMessage
                         (if speaker m =? "system" then LlamaIndex.SYSTEM
                          else LlamaIndex.USER)
                         (LlamaIndex.plain_text (content m))) msgs)
      /\ forall cm l, r = LlamaIndex.Messages l -> In cm l ->
                      LlamaIndex.role cm <> LlamaIndex.ASSISTANT.
Proof.
  intros other_text E markup context s r. unfold LlamaIndex.poml_formatter.
  pose proof (@Formatter.poml_pydantic E markup context None true None None s)
    as H.
  destruct (poml E markup context None true None "pydantic" None s)
    as [[v|e] s']; cbn [fst] in *; [|discriminate].
  destruct (H v eq_refl) as (msgs & Hl & ->). intros Hr. injection Hr as <-.
  exists msgs. split; [reflexivity|].
  rewrite (Formatter.chat_messages_legal _ _ Hl). split; [reflexivity|].
  intros cm l Hm Hin. injection Hm as <-. apply in_map_iff in Hin.
  destruct Hin as (m & <- & _). cbn. now destruct (speaker m =? "system").
Qed.

Lemma poml_formatter_gives_assistant_the_user_role_witness :
  let reply := [mkMessage "system" (ContentStr "Be brief.");
                mkMessage "assistant"
                  (ContentList [PartStr "See ";
                                PartMedia (mkMedia "image/png" "AAAA" None);
                                PartStr "this."])] in
  let E := mkCollaborators (fun _ => Ok "{}")
             (fun _ => Ok (JArr (map Wire.message reply)))
             (fun _ f => (Ok 0%Z, f)) (fun _ => None)
             (fun _ _ _ _ _ _ => None) in
  let r := LlamaIndex.Messages
             [LlamaIndex.mkChatMessage LlamaIndex.SYSTEM "Be brief.";
              LlamaIndex.mkChatMessage LlamaIndex.USER "See this."] in
  exists msgs,
    fst (poml E (MarkupStr "<p>hi</p>") None None true None "pydantic" None
           Example.fresh)
    = Ok (RPydantic msgs)
    /\ r = LlamaIndex.Messages
             (map (fun m =>
                     LlamaIndex.mkChatMessage
                       (if speaker m =? "system" then LlamaIndex.SYSTEM
                        else LlamaIndex.USER)
                       (LlamaIndex.plain_text (content m))) msgs)
    /\ forall cm l, r = LlamaIndex.Messages l -> In cm l ->
                    LlamaIndex.role cm <> LlamaIndex.ASSISTANT.
Proof.
  intros reply E r.
  apply (@poml_formatter_gives_assistant_the_user_role (fun _ => "") E
           (MarkupStr "<p>hi</p>") None Example.fresh r).
  vm_compute. reflexivity.
Defined.

(** X21.  The conversion of [from_template] is idempotent: a template that
    was wrapped in a chat block of the user holds the marker [{% chat] and
    is not wrapped again, and a template that was left alone is left alone
    again. *)
Theorem from_template_wraps_once :
  forall (template : string) (speaker_mode : bool),
    LlamaIndex.from_template
      (LlamaIndex.from_template template speaker_mode) speaker_mode
    = LlamaIndex.from_template template speaker_mode.
Proof.
  intros template speaker_mode. unfold LlamaIndex.from_template at 2 3.
  destruct (speaker_mode
            && negb (LlamaIndex.contains "{% chat" template
                     || LlamaIndex.contains "{{" template)) eqn:Hw.
  - unfold LlamaIndex.from_template.
    rewrite Formatter.contains_user_block. cbn [orb negb].
    now rewrite andb_false_r.
  - unfold LlamaIndex.from_template. now rewrite Hw.
Qed.

(** X22.  [from_file] and [from_template] agree: on a file that exists
    [from_file] gives the parent class what [from_template] gives for the
    text of the file, and changes nothing; on a path that does not exist it
    raises [FileNotFoundError] with the message of the source. *)
Theorem from_file_agrees_with_from_template :
  forall (template_file : path) (speaker_mode : bool) (s : state),
    match FS.lookup (fs s) template_file with
    | Some (File text) =>
        LlamaIndex.from_file template_file speaker_mode s
        = (Ok (LlamaIndex.from_template text speaker_mode), s)
    | Some Dir =>
        LlamaIndex.from_file template_file speaker_mode s
        = (Raise (IsADirectoryError template_file), s)
    | None =>
        LlamaIndex.from_file template_file speaker_mode s
        = (Raise (FileNotFoundError
                    ("Template file not found: " ++ template_file)), s)
    end.
Proof.
  intros template_file speaker_mode s.
  unfold LlamaIndex.from_template.
  cbv [LlamaIndex.from_file bind gets raise ret FS.exists_ FS.read_text
         fst snd].
  destruct (FS.lookup (fs s) template_file) as [[text|]|] eqn:Hl; cbn [negb];
    cbv beta; rewrite ?Hl; try reflexivity.
  destruct speaker_mode; cbn [andb]; [|reflexivity].
  now destruct (negb _).
Qed.

(** X23.  Module initialisation: with [POML_TRACE] set to a non-empty
    value and tracing not enabled yet, an import that succeeds leaves local
    tracing enabled and no backend, with the directory that [POML_TRACE]
    names as run directory, existing; and the trace log as it was. *)
Theorem module_init_enables_tracing_from_the_environment :
  forall (s s' : state) (d : string),
    environ_POML_TRACE s = Some d -> d <> "" ->
    _trace_enabled s = false ->
    module_init s = (Ok tt, s') ->
    _trace_enabled s' = true
    /\ _weave_enabled s' = false /\ _agentops_enabled s' = false
    /\ _mlflow_enabled s' = false
    /\ _trace_dir s' = Some d /\ FS.is_dir (fs s') d = true
    /\ _trace_log s' = _trace_log s.
Proof.
  intros s s' d Henv Hd He.
  unfold module_init. unfold bind at 1. cbv [gets fst snd].
  unfold bind at 1. cbv [gets fst snd]. rewrite Henv, He.
  apply SetTrace.truthy_iff in Hd. rewrite Hd. cbn [andb negb].
  unfold bind.
  destruct (set_trace (EnBool true) None s) as [[r|e] s1] eqn:Hs;
    [|discriminate].
  cbn [ret]. intros H. injection H as <-.
  pose proof Hs as Hs'.
  apply (@SetTrace.with_environment (EnBool true) d) in Hs; auto.
  destruct Hs as (Hm & _ & Hdir & Hte & Hw & Ha & Hml).
  apply FSFacts.mkdir_parents_ok in Hm. destruct Hm as (Hisd & _ & _).
  cbn in Hw, Ha, Hml. repeat split; auto.
  revert Hs'. unfold set_trace, mkdir, bind, ret, raise, gets, modify, lift.
  cbn. rewrite Henv. cbn. rewrite Hd. cbn.
  destruct (FS.mkdir_parents d (fs s)); cbn; [|discriminate].
  intros H. now injection H as _ <-.
Qed.

Lemma module_init_enables_tracing_from_the_environment_witness :
  let s := mkState false false false false [] None [] (Some "/shared/run")
             (mkDatetime 2025 7 1 12 0 0 0) 0 [] in
  let s' := snd (module_init s) in
  _trace_enabled s' = true
  /\ _weave_enabled s' = false /\ _agentops_enabled s' = false
  /\ _mlflow_enabled s' = false
  /\ _trace_dir s' = Some "/shared/run"
  /\ FS.is_dir (fs s') "/shared/run" = true
  /\ _trace_log s' = _trace_log s.
Proof.
  intros s s'.
  apply (@module_init_enables_tracing_from_the_environment s s' "/shared/run");
    try reflexivity.
  discriminate.
Defined.

(** ** The backend blocks *)

Module Backends.
Import Rules Stages.

(** The blocks of [poml] around lines 362-444, for properties of the
    whole call that those lines decide. *)
Section Spine.
Variable E : collaborators.
Variable chat : bool.
Variable format : string.
Variable ks : list kind.
Variable Re : exn -> frame * state -> frame * state -> Prop.
Variable T : py_result -> frame * state -> frame * state -> Prop.
Hypothesis Hcreate : In KTempCreate ks.
Hypothesis Hwarn : In KWarn ks.
Hypothesis Hrun : In KRun ks.
Hypothesis H0 : forall e x y,
  pair_rel (frel false false) (steps ks) x y -> Re e x y.
Hypothesis He : forall e x y z,
  pair_rel (frel false false) (steps ks) x y -> Re e y z -> Re e x z.
Hypothesis Ht : forall v x y z,
  pair_rel (frel false false) (steps ks) x y -> T v y z -> T v x z.
Hypothesis Hce : forall e x y z, Re e x y -> closes y z -> Re e x z.
Hypothesis Hct : forall v x y z, T v x y -> closes y z -> T v x z.
Hypothesis Hdeliver : forall markup specified output_file,
  spec Re T (deliver E markup chat specified output_file format).

Lemma after {A} (m : L A) (k : A -> L py_result) :
  preserves (pair_rel (frel false false) (steps ks)) m ->
  (forall a, spec Re T (k a)) -> spec Re T (bind m k).
Proof.
  intros Hm Hk.
  apply spec_bind with (R0 := pair_rel (frel false false) (steps ks)); auto.
Qed.

Lemma poml_try_spine markup context stylesheet output_file extra_args :
  spec Re T
    (poml_try E markup context stylesheet chat output_file format extra_args).
Proof.
  unfold poml_try. apply after; [apply trace_inputs_rel|]. intros _.
  unfold poml_main. apply after; [now apply resolve_markup_rel|].
  intros markup'. unfold with_NamedTemporaryFile. apply after.
  { pres. now apply NamedTemporaryFile_steps. }
  intros f. apply spec_try_finally with (Rc := closes).
  - unfold render. cbv zeta.
    apply after; [apply data_args_rel; [assumption|reflexivity]|].
    intros context_args.
    apply after; [apply data_args_rel; [assumption|reflexivity]|].
    intros stylesheet_args. unfold invoke. apply after; [pres|].
    intros trace_args. apply after.
    { pres. now apply run_renderer_steps. }
    intros returncode. destruct (negb (returncode =? 0)%Z).
    + apply spec_raise. intros x. apply H0. reflexivity.
    + apply Hdeliver.
  - apply Log.close_temp_closes.
  - exact Hce.
  - exact Hct.
Qed.

End Spine.

(** A backend block that is entered without a run directory raises. *)
Lemma forward_stranded E backend label tm markup result s :
  _trace_enabled s = false \/ _trace_dir s = None ->
  exists e, forward E backend label tm markup result s = (Raise e, s).
Proof.
  intros Hs. unfold forward.
  destruct (import_integration E backend) as [e|]; [now exists e|].
  assert (Hp : _latest_trace_prefix s = Ok None).
  { unfold _latest_trace_prefix. destruct Hs as [-> | ->]; [reflexivity|].
    now destruct (_trace_enabled s). }
  cbv [bind gets fst snd]. rewrite Hp. cbv [raise]. eauto.
Qed.

Lemma forward_if_stranded flag E backend label tm markup result s :
  _trace_enabled s = false \/ _trace_dir s = None ->
  (flag s = true ->
   exists e s', forward_if flag E backend label tm markup result s
                = (Raise e, s'))
  /\ (flag s = false ->
      forward_if flag E backend label tm markup result s = (Ok tt, s)).
Proof.
  intros Hs. unfold forward_if. cbv [bind gets fst snd].
  split; intros ->; [|reflexivity].
  cbv [emit modify]. 
  match goal with
  | |- context [forward E backend label tm markup result ?s1] =>
      destruct (@forward_stranded E backend label tm markup result s1 Hs)
        as [e ->]
  end.
  eauto.
Qed.

Lemma forward_all_stranded E markup result s :
  stranded s -> exists e s', forward_all E markup result s = (Raise e, s').
Proof.
  intros [Hb Hs]. unfold forward_all, bind.
  destruct (@forward_if_stranded _weave_enabled E "weave" "Weave" true markup
              result s Hs) as [W1 W0].
  destruct (_weave_enabled s) eqn:Hw.
  { destruct (W1 eq_refl) as (e & s' & ->). eauto. }
  rewrite (W0 eq_refl).
  destruct (@forward_if_stranded _agentops_enabled E "agentops" "AgentOps"
              false markup result s Hs) as [A1 A0].
  destruct (_agentops_enabled s) eqn:Ha.
  { destruct (A1 eq_refl) as (e & s' & ->). eauto. }
  rewrite (A0 eq_refl).
  destruct (@forward_if_stranded _mlflow_enabled E "mlflow" "MLflow" true
              markup result s Hs) as [M1 _].
  destruct (_mlflow_enabled s) eqn:Hm.
  { destruct (M1 eq_refl) as (e & s' & ->). eauto. }
  destruct Hb as [Hb|[Hb|Hb]]; discriminate Hb.
Qed.

Lemma convert_falls_through E chat format text fl :
  format = "raw" \/ format = "dict" ->
  convert E chat format text = Ok fl -> exists result, fl = Continue result.
Proof.
  unfold convert. intros [-> | ->]; cbn [String.eqb Ascii.eqb Bool.eqb negb].
  - intros H. injection H as <-. eauto.
  - destruct (json_loads E text); [|discriminate].
    intros H. injection H as <-. eauto.
Qed.

Lemma stranded_globals s s' :
  globals_of s' = globals_of s -> stranded s -> stranded s'.
Proof.
  unfold globals_of, stranded. intros H. injection H as H1 H2 H3 H4 _ H6.
  now rewrite H1, H2, H3, H4, H6.
Qed.

Lemma deliver_stranded E markup chat specified output_file format :
  format = "raw" \/ format = "dict" ->
  spec (fun _ _ _ => True) (fun _ x _ => ~ stranded (snd x))
    (deliver E markup chat specified output_file format).
Proof.
  intros Hf. apply spec_run. intros [fr s] o y. destruct o as [v|e]; [|auto].
  intros Hrun Hs. cbn [snd] in Hs. unfold deliver in Hrun.
  unfold bind at 1 in Hrun.
  pose proof (@read_output_steps all_kinds specified output_file
                (or_intror (or_intror (or_intror (or_intror (or_introl eq_refl)))))
                s) as [G _].
  unfold glob in Hrun. cbn [fst snd] in Hrun.
  destruct (read_output specified output_file s) as [[text|e] s1];
    cbn [fst snd] in *; [|discriminate].
  unfold bind at 1 in Hrun. unfold lift in Hrun.
  destruct (convert E chat format text) as [fl|e] eqn:Hc; [|discriminate].
  destruct (convert_falls_through _ _ _ Hf Hc) as [result ->].
  unfold bind at 1 in Hrun. unfold glob in Hrun. cbn [fst snd] in Hrun.
  destruct (@forward_all_stranded E markup result s1
              (@stranded_globals s s1 G Hs)) as (e & s2 & Hfa).
  rewrite Hfa in Hrun. discriminate.
Qed.

(** *** The order of the backend blocks *)

Lemma entered_app a b :
  backends_entered (a ++ b) = (backends_entered a ++ backends_entered b)%list.
Proof. apply flat_map_app. Qed.

Lemma entered_none ks evs :
  ~ In KBackend ks -> Forall (fun ev => In (kind_of ev) ks) evs ->
  backends_entered evs = [].
Proof.
  intros Hk F. induction F as [|ev evs Hev _ IH]; [reflexivity|].
  change (backends_entered (ev :: evs))
    with ((match ev with EvBackend b => [b] | _ => [] end)
          ++ backends_entered evs)%list.
  rewrite IH. destruct ev; try reflexivity. contradiction.
Qed.

Lemma around_none evs :
  Forall (fun ev => In (kind_of ev) around_backends) evs ->
  backends_entered evs = [].
Proof. apply entered_none. cbn. intuition discriminate. Qed.

Lemma enabled_globals s s' :
  globals_of s' = globals_of s -> enabled_backends s' = enabled_backends s.
Proof.
  unfold globals_of, enabled_backends. intros H.
  injection H as _ H2 H3 H4 _ _. now rewrite H2, H3, H4.
Qed.

(** A guarded block logs its entry, when the backend is enabled, and
    nothing else. *)
Lemma forward_if_entry flag E backend label tm markup result s o s' :
  forward_if flag E backend label tm markup result s = (o, s') ->
  globals_of s' = globals_of s
  /\ events s' = (events s ++ if flag s then [EvBackend backend] else [])%list.
Proof.
  unfold forward_if. cbv [bind gets fst snd]. destruct (flag s).
  - cbv [emit modify].
    match goal with
    | |- context [forward E backend label tm markup result ?s1] =>
        destruct (@forward_steps [] E backend label tm markup result s1)
          as [G (evs & Ev & F)];
        destruct (forward E backend label tm markup result s1) as [o1 s2]
    end.
    cbn [fst snd] in *. intros H. injection H as <- <-.
    assert (evs = []) by (destruct F as [|x l Hx _]; [reflexivity|destruct Hx]).
    subst evs. rewrite app_nil_r in Ev. split; [exact G|exact Ev].
  - intros H. injection H as <- <-. split; [reflexivity|].
    now rewrite app_nil_r.
Qed.

Lemma forward_all_order E markup result s o s' :
  forward_all E markup result s = (o, s') ->
  globals_of s' = globals_of s
  /\ exists evs,
       events s' = (events s ++ evs)%list
       /\ Forall (fun ev => kind_of ev = KBackend) evs
       /\ match o with
          | Ok _ => backends_entered evs = enabled_backends s
          | Raise _ =>
              exists rest,
                enabled_backends s = (backends_entered evs ++ rest)%list
          end.
Proof.
  unfold forward_all, bind, enabled_backends.
  destruct (forward_if _weave_enabled E "weave" "Weave" true markup result s)
    as [[u1|e1] s1] eqn:H1; apply forward_if_entry in H1;
    destruct H1 as [G1 E1].
  - destruct (forward_if _agentops_enabled E "agentops" "AgentOps" false
                markup result s1) as [[u2|e2] s2] eqn:H2;
      apply forward_if_entry in H2; destruct H2 as [G2 E2].
    + intros H3. apply forward_if_entry in H3. destruct H3 as [G3 E3].
      split; [congruence|].
      assert (Ha : _agentops_enabled s1 = _agentops_enabled s)
        by (unfold globals_of in G1; congruence).
      assert (Hm : _mlflow_enabled s2 = _mlflow_enabled s)
        by (unfold globals_of in G1, G2; congruence).
      rewrite Ha in E2. rewrite Hm in E3.
      eexists. split; [rewrite E3, E2, E1, <- !app_assoc; reflexivity|].
      destruct o as [u|e]; split;
        try (destruct (_weave_enabled s), (_agentops_enabled s),
               (_mlflow_enabled s); repeat constructor);
        try (exists []; rewrite app_nil_r);
        destruct (_weave_enabled s), (_agentops_enabled s),
          (_mlflow_enabled s); reflexivity.
    + intros H. injection H as <- <-. split; [congruence|].
      assert (Ha : _agentops_enabled s1 = _agentops_enabled s)
        by (unfold globals_of in G1; congruence).
      rewrite Ha in E2.
      eexists. split; [rewrite E2, E1, <- !app_assoc; reflexivity|].
      split; [destruct (_weave_enabled s), (_agentops_enabled s);
              repeat constructor|].
      exists (if _mlflow_enabled s then ["mlflow"] else []).
      destruct (_weave_enabled s), (_agentops_enabled s); reflexivity.
  - intros H. injection H as <- <-. split; [exact G1|].
    eexists. split; [exact E1|].
    split; [destruct (_weave_enabled s); repeat constructor|].
    exists ((if _agentops_enabled s then ["agentops"] else [])
            ++ (if _mlflow_enabled s then ["mlflow"] else []))%list.
    destruct (_weave_enabled s); reflexivity.
Qed.

Lemma around_to_some x y :
  pair_rel (frel false false) (steps around_backends) x y -> entered_some x y.
Proof.
  intros [_ [_ (evs & Ev & F)]]. exists evs, (enabled_backends (snd x)).
  split; [exact Ev|]. now rewrite (around_none F).
Qed.

Lemma around_then_some x y z :
  pair_rel (frel false false) (steps around_backends) x y ->
  entered_some y z -> entered_some x z.
Proof.
  intros [_ [G (e0 & E0 & F0)]] (evs & rest & Ev & H).
  exists (e0 ++ evs)%list, rest. split; [now rewrite Ev, E0, app_assoc|].
  rewrite entered_app, (around_none F0), <- (enabled_globals G). exact H.
Qed.

Lemma around_then_all x y z :
  pair_rel (frel false false) (steps around_backends) x y ->
  entered_all y z -> entered_all x z.
Proof.
  intros [_ [G (e0 & E0 & F0)]] (evs & Ev & H).
  exists (e0 ++ evs)%list. split; [now rewrite Ev, E0, app_assoc|].
  rewrite entered_app, (around_none F0), <- (enabled_globals G). exact H.
Qed.

Lemma deletes_none dels :
  Forall (fun e => kind_of e = KTempDelete) dels -> backends_entered dels = [].
Proof.
  intros F. induction F as [|ev l Hev _ IH]; [reflexivity|].
  change (backends_entered (ev :: l))
    with ((match ev with EvBackend b => [b] | _ => [] end)
          ++ backends_entered l)%list.
  rewrite IH. now destruct ev.
Qed.

Lemma some_closes x y z : entered_some x y -> closes y z -> entered_some x z.
Proof.
  intros (evs & rest & Ev & H) (_ & _ & dels & Ed & Fd).
  exists (evs ++ dels)%list, rest. split; [now rewrite Ed, Ev, app_assoc|].
  now rewrite entered_app, (deletes_none Fd), app_nil_r.
Qed.

Lemma all_closes x y z : entered_all x y -> closes y z -> entered_all x z.
Proof.
  intros (evs & Ev & H) (_ & _ & dels & Ed & Fd).
  exists (evs ++ dels)%list. split; [now rewrite Ed, Ev, app_assoc|].
  now rewrite entered_app, (deletes_none Fd), app_nil_r.
Qed.

Lemma deliver_order E markup chat specified output_file format :
  format = "raw" \/ format = "dict" ->
  spec (fun _ => entered_some) (fun _ => entered_all)
    (deliver E markup chat specified output_file format).
Proof.
  intros Hf. apply spec_run. intros [fr s] o y Hrun. unfold deliver in Hrun.
  unfold bind at 1 in Hrun.
  pose proof (@read_output_steps around_backends specified output_file
                (or_intror (or_intror (or_intror (or_intror (or_introl eq_refl)))))
                s) as Hread.
  unfold glob in Hrun. cbn [fst snd] in Hrun.
  destruct (read_output specified output_file s) as [[text|e] s1];
    cbn [fst snd] in *.
  2:{ injection Hrun as <- <-. apply around_to_some. split; [reflexivity|].
      exact Hread. }
  assert (Hpre : pair_rel (frel false false) (steps around_backends)
                   (fr, s) (fr, s1)) by (split; [reflexivity|exact Hread]).
  unfold bind at 1 in Hrun. unfold lift in Hrun.
  destruct (convert E chat format text) as [fl|e] eqn:Hc.
  2:{ injection Hrun as <- <-. now apply around_to_some. }
  destruct (convert_falls_through _ _ _ Hf Hc) as [result ->].
  unfold bind at 1 in Hrun. unfold glob in Hrun. cbn [fst snd] in Hrun.
  destruct (forward_all E markup result s1) as [[u|e] s2] eqn:Hfa;
    apply forward_all_order in Hfa; destruct Hfa as (G & evs & Ev & F & H).
  - pose proof (@attach_result_rel around_backends false result
                  (or_intror (or_intror (or_intror (or_intror
                     (or_intror (or_introl eq_refl)))))) (fr, s2))
      as [_ [Ga (ea & Ea & Fa)]].
    cbv [bind ret] in Hrun.
    destruct (attach_result result (fr, s2)) as [[u2|e2] y2];
      cbn [fst snd] in *; injection Hrun as <- <-.
    + apply (around_then_all Hpre). exists (evs ++ ea)%list.
      split; [cbn [snd]; now rewrite Ea, Ev, app_assoc|].
      cbn [snd]. now rewrite entered_app, (around_none Fa), app_nil_r.
    + apply (around_then_some Hpre). exists (evs ++ ea)%list, [].
      cbn [snd]. split; [now rewrite Ea, Ev, app_assoc|].
      now rewrite entered_app, (around_none Fa), !app_nil_r.
  - injection Hrun as <- <-. apply (around_then_some Hpre).
    destruct H as [rest H]. exists evs, rest. now split.
Qed.

End Backends.

(** X24.  A backend that is enabled while there is no run directory, as
    after [set_trace("weave")] with neither a [trace_dir] argument nor
    [POML_TRACE], blocks every call with the format [raw] or [dict]: such
    a call never returns. *)
Theorem backend_without_run_directory_blocks_the_call :
  forall (E : collaborators) (markup : markup_arg)
         (context stylesheet : option data_arg) (chat : bool)
         (output_file : option string) (format : string)
         (extra_args : option (list string)) (s : state),
    format = "raw" \/ format = "dict" ->
    stranded s ->
    exists e,
      fst (poml E markup context stylesheet chat output_file format
             extra_args s) = Raise e.
Proof.
  intros E markup context stylesheet chat output_file format extra_args s
    Hf Hs.
  destruct (Calls.poml_run E markup context stylesheet chat output_file format
              extra_args s) as (o & fr1 & s1 & s2 & Htry & -> & _).
  cbn [fst].
  pose proof (@Backends.poml_try_spine E chat format all_kinds
                (fun _ _ _ => True) (fun _ x _ => ~ stranded (snd x))) as H.
  specialize (H ltac:(cbn; tauto) ltac:(cbn; tauto) ltac:(cbn; tauto)).
  specialize (H (fun _ _ _ _ => I) (fun _ _ _ _ _ _ => I)).
  assert (Ht : forall (v : py_result) (x y z : frame * state),
             pair_rel (frel false false) (steps all_kinds) x y ->
             ~ stranded (snd y) -> ~ stranded (snd x)).
  { intros v x y z [_ [G _]] Hn Hx. apply Hn.
    exact (@Backends.stranded_globals (snd x) (snd y) G Hx). }
  specialize (H Ht (fun _ _ _ _ _ _ => I) (fun _ _ _ _ Hn _ => Hn)).
  specialize (H (fun m sp o => @Backends.deliver_stranded E m chat sp o format Hf)
                markup context stylesheet output_file extra_args
                (init_frame, s)).
  rewrite Htry in H. cbn [fst snd] in H.
  destruct o as [v|e]; [contradiction|eauto].
Qed.

Lemma backend_without_run_directory_blocks_the_call_witness :
  exists e,
    fst (poml (Example.world 0) (MarkupStr "<p>hi</p>") None None true None
           "dict" None Example.weave_without_directory) = Raise e.
Proof.
  apply (@backend_without_run_directory_blocks_the_call (Example.world 0)
           (MarkupStr "<p>hi</p>") None None true None "dict" None
           Example.weave_without_directory).
  - right. reflexivity.
  - split; [left|right]; reflexivity.
Defined.

(** X25.  With the format [raw] or [dict] the backend blocks are entered
    in the order weave, agentops, mlflow, each at most once and only when
    its flag is on: in a call that returns the backends entered are
    exactly those enabled, in that order; in a call that raises they are
    the first of them. *)
Theorem backends_are_entered_in_order :
  forall (E : collaborators) (markup : markup_arg)
         (context stylesheet : option data_arg) (chat : bool)
         (output_file : option string) (format : string)
         (extra_args : option (list string)) (s : state),
    format = "raw" \/ format = "dict" ->
    match fst (poml E markup context stylesheet chat output_file format
                 extra_args s) with
    | Ok _ =>
        backends_entered
          (new_events s (snd (poml E markup context stylesheet chat
                                output_file format extra_args s)))
        = enabled_backends s
    | Raise _ =>
        exists rest,
          enabled_backends s
          = (backends_entered
               (new_events s (snd (poml E markup context stylesheet chat
                                     output_file format extra_args s)))
             ++ rest)%list
    end.
Proof.
  intros E markup context stylesheet chat output_file format extra_args s Hf.
  destruct (Calls.poml_run E markup context stylesheet chat output_file format
              extra_args s) as (o & fr1 & s1 & s2 & Htry & -> & _ & _ & _ & Hev).
  cbn [fst snd].
  pose proof (@Backends.poml_try_spine E chat format around_backends
                (fun _ => entered_some) (fun _ => entered_all)) as H.
  specialize (H ltac:(cbn; tauto) ltac:(cbn; tauto) ltac:(cbn; tauto)).
  specialize (H (fun _ x y => @Backends.around_to_some x y)
                (fun _ x y z => @Backends.around_then_some x y z)
                (fun _ x y z => @Backends.around_then_all x y z)
                (fun _ x y z => @Backends.some_closes x y z)
                (fun _ x y z => @Backends.all_closes x y z)).
  specialize (H (fun m sp o => @Backends.deliver_order E m chat sp o format Hf)
                markup context stylesheet output_file extra_args
                (init_frame, s)).
  rewrite Htry in H. cbn [fst snd] in H.
  assert (Hd : backends_entered (map EvTempDelete (temps_of fr1)) = []).
  { apply Backends.deletes_none. apply Forall_forall. intros ev Hin.
    apply in_map_iff in Hin. destruct Hin as (p & <- & _). reflexivity. }
  destruct o as [v|e].
  - destruct H as (evs & Ev & H). cbn [snd] in Ev.
    rewrite (@Exit.new_events_app s s2
               (evs ++ map EvTempDelete (temps_of fr1))%list)
      by (rewrite Hev, Ev, <- app_assoc; reflexivity).
    now rewrite Backends.entered_app, Hd, app_nil_r.
  - destruct H as (evs & rest & Ev & H). cbn [snd] in Ev. exists rest.
    rewrite (@Exit.new_events_app s s2
               (evs ++ map EvTempDelete (temps_of fr1))%list)
      by (rewrite Hev, Ev, <- app_assoc; reflexivity).
    now rewrite Backends.entered_app, Hd, app_nil_r.
Qed.

Lemma backends_are_entered_in_order_witness :
  let s := mkState true true false true [] (Some "/t")
             [("/t", Dir); ("/t/0001.ask.poml", File "<p>hi</p>")]
             None (mkDatetime 2025 7 1 12 0 0 0) 0 [] in
  let res := poml (Example.world 0) (MarkupStr "<p>hi</p>") None None true
               None "dict" None s in
  fst res = Ok (RJson (JArr []))
  /\ backends_entered (new_events s (snd res)) = ["weave"; "mlflow"].
Proof.
  intros s res.
  assert (Hres : fst res = Ok (RJson (JArr []))) by (vm_compute; reflexivity).
  split; [exact Hres|].
  pose proof (@backends_are_entered_in_order (Example.world 0)
                (MarkupStr "<p>hi</p>") None None true None "dict" None s
                (or_intror eq_refl)) as H.
  fold res in H. rewrite Hres in H. exact H.
Defined.

(** ** The markup in the trace record *)

Module Record.
Import Rules Stages.

#[export] Instance markup_kept_preorder : PreOrder markup_kept.
Proof.
  split; [intros fr r H; eauto|].
  intros a b c H1 H2 r H. destruct (H1 _ H) as (r1 & Hr1 & E1).
  destruct (H2 _ Hr1) as (r2 & Hr2 & E2). exists r2. split; [exact Hr2|].
  congruence.
Qed.

Lemma trace_fill_blocks E markup context stylesheet :
  trace_fill E markup context stylesheet
  = (trace_markup markup ;;
     trace_data E context set_context set_context_path ;;
     trace_data E stylesheet set_stylesheet set_stylesheet_path).
Proof. reflexivity. Qed.

Lemma record_set_kept (Rg : state -> state -> Prop) {HG : PreOrder Rg} f :
  (forall r, markup_fields (f r) = markup_fields r) ->
  preserves (pair_rel markup_kept Rg) (record_set f).
Proof.
  intros Hf. unfold record_set. apply local_; [exact HG|].
  intros fr r Hr. cbn. rewrite Hr. cbn. eauto.
Qed.

Lemma slot_kept v fr :
  markup_kept fr (set_temp_input_file v fr)
  /\ markup_kept fr (set_temp_context_file v fr)
  /\ markup_kept fr (set_temp_stylesheet_file v fr).
Proof. repeat split; intros r Hr; cbn; eauto. Qed.

Ltac kept :=
  repeat lazymatch goal with
  | |- preserves _ (bind _ _) => rule bind_; [|intros ?]
  | |- preserves _ (ret _) => rule ret_
  | |- preserves _ (gets _) => rule gets_
  | |- preserves _ (lift _) => rule lift_
  | |- preserves _ (glob _) => rule glob_
  | |- preserves _ (record_set _) =>
      apply record_set_kept; [typeclasses eauto|auto]
  | |- preserves _ (fun s => (_, s)) => rule pure_
  | |- preserves _ (match ?x with _ => _ end) => destruct x
  end.

(** The context and stylesheet keys are set after the markup keys and
    leave them alone; nothing but the locals changes. *)
Lemma trace_data_kept E data set_text set_path :
  (forall v r, markup_fields (set_text v r) = markup_fields r) ->
  (forall v r, markup_fields (set_path v r) = markup_fields r) ->
  preserves (pair_rel markup_kept eq) (trace_data E data set_text set_path).
Proof.
  intros H1 H2. unfold trace_data, os_path_exists, read_text. kept.
Qed.

Lemma trace_rest_kept E context stylesheet :
  preserves (pair_rel markup_kept eq)
    (trace_data E context set_context set_context_path ;;
     trace_data E stylesheet set_stylesheet set_stylesheet_path).
Proof. kept; now apply trace_data_kept. Qed.

(** Lines 285-291 on a record that is still empty. *)
Lemma trace_markup_run markup fr s o fr' s' :
  trace_record fr = Some empty_record ->
  trace_markup markup (fr, s) = (o, (fr', s')) ->
  s' = s
  /\ exists r, trace_record fr' = Some r
               /\ markup_fields r = traced_markup markup s.
Proof.
  intros Hr. unfold traced_markup, FS.exists_.
  destruct markup as [p|t];
    [destruct (FS.lookup (fs s) p) as [[text|]|] eqn:Hl
    |destruct (FS.lookup (fs s) t) as [[text|]|] eqn:Hl];
    cbv [trace_markup record_set os_path_exists read_text local glob gets
           modify bind ret fst snd FS.exists_ FS.read_text];
    repeat (cbv beta iota; rewrite ?Hl, ?Hr; cbn [option_map trace_record
              set_trace_record]);
    intros H; injection H as <- <- <-; (split; [reflexivity|]); cbn; eauto.
Qed.

Lemma attach_result_kept ks result :
  In KAttach ks ->
  preserves (pair_rel markup_kept (steps ks)) (attach_result result).
Proof.
  intros H. unfold attach_result. pres.
  apply record_set_kept; [typeclasses eauto|reflexivity].
Qed.

Lemma poml_main_kept E markup context stylesheet chat output_file format
      extra_args :
  preserves (pair_rel markup_kept (steps all_kinds))
    (poml_main E markup context stylesheet chat output_file format
       extra_args).
Proof.
  apply Calls.poml_main_frame; try (cbn; tauto);
    try (intros v fr; apply (slot_kept v fr)).
  - typeclasses eauto.
  - intros m sp o. unfold deliver. pres.
    + apply read_output_steps. cbn; tauto.
    + apply forward_all_steps. cbn; tauto.
    + apply attach_result_kept. cbn; tauto.
Qed.

End Record.

(** X26.  The record that a call of [poml] made with tracing enabled
    appends to the log holds the markup as it was given, however the call
    ends: for markup that names an existing file the key [markup_path] is
    that path and [markup] the text of the file (absent when the file
    cannot be read), for a [Path] that does not exist the path alone, and
    for inline text the key [markup] alone. *)
Theorem poml_records_the_markup :
  forall (E : collaborators) (markup : markup_arg)
         (context stylesheet : option data_arg) (chat : bool)
         (output_file : option string) (format : string)
         (extra_args : option (list string)) (s : state),
    _trace_enabled s = true ->
    exists r,
      _trace_log (snd (poml E markup context stylesheet chat output_file
                         format extra_args s))
      = (_trace_log s ++ [r])%list
      /\ markup_fields r = traced_markup markup s.
Proof.
  intros E markup context stylesheet chat output_file format extra_args s He.
  destruct (Calls.poml_run E markup context stylesheet chat output_file format
              extra_args s) as (o & fr1 & s1 & s2 & Htry & -> & _ & Hlog & _).
  cbn [snd].
  pose proof (@Calls.poml_try_globals E markup context stylesheet chat
                output_file format extra_args (init_frame, s)) as Hg.
  rewrite Htry in Hg. destruct Hg as [_ [G _]]. cbn [fst snd] in G.
  assert (Hl : _trace_log s1 = _trace_log s)
    by (unfold globals_of in G; congruence).
  enough (Hrec : exists r, trace_record fr1 = Some r
                           /\ markup_fields r = traced_markup markup s).
  { destruct Hrec as (r & Hr & Hm). exists r. split; [|exact Hm].
    now rewrite Hlog, Hr, Hl. }
  unfold poml_try in Htry. unfold bind at 1 in Htry.
  unfold trace_inputs in Htry. unfold bind at 1 in Htry.
  cbv [glob gets fst snd] in Htry. rewrite He in Htry.
  unfold bind at 1 in Htry. cbv [local modify fst snd] in Htry.
  rewrite Record.trace_fill_blocks in Htry. unfold bind at 1 in Htry.
  destruct (trace_markup markup
              (set_trace_record (Some empty_record) init_frame, s))
    as [o0 [fr0 s0]] eqn:Hmk.
  apply Record.trace_markup_run in Hmk; [|reflexivity].
  destruct Hmk as (-> & r0 & Hr0 & Hm0).
  destruct o0 as [u|e]; [|injection Htry as <- <- <-; eauto].
  pose proof (@Record.trace_rest_kept E context stylesheet (fr0, s)) as Hd.
  destruct ((trace_data E context set_context set_context_path ;;
             trace_data E stylesheet set_stylesheet set_stylesheet_path)
              (fr0, s)) as [[u1|e1] [fr2 s2']]; destruct Hd as [K Hs];
    cbn [fst snd] in K, Hs; subst s2'; destruct (K _ Hr0) as (r2 & Hr2 & Hm2).
  - pose proof (@Record.poml_main_kept E markup context stylesheet chat
                  output_file format extra_args (fr2, s)) as Hmain.
    rewrite Htry in Hmain. destruct Hmain as [K1 _]. cbn [fst snd] in K1.
    destruct (K1 _ Hr2) as (r3 & Hr3 & Hm3). exists r3. split; [exact Hr3|].
    congruence.
  - injection Htry as <- <- <-. exists r2. split; [exact Hr2|]. congruence.
Qed.

Lemma poml_records_the_markup_witness :
  let s := Example.local_tracing in
  exists r,
    _trace_log (snd (poml (Example.world 3) (MarkupStr "<p>hi</p>") None None
                       true None "dict" None s))
    = (_trace_log s ++ [r])%list
    /\ markup_fields r = traced_markup (MarkupStr "<p>hi</p>") s.
Proof.
  intros s.
  apply (@poml_records_the_markup (Example.world 3) (MarkupStr "<p>hi</p>")
           None None true None "dict" None s).
  reflexivity.
Defined.
